(** * BankChain core contracts: a shallow embedding and its properties

    The development embeds the four Solidity contracts of the on-chain core
    as Rocq functions over explicit contract states:
    [KYCRegistry] (contracts/KYCRegistry.sol, the compliance registry),
    [DepositToken] (contracts/DepositToken.sol, the ledger token),
    [BankVault] (the vault) and [LendingPool] (the lending facility).
    It also embeds the invoice contract and the market that trades invoices
    ([InvoiceNFT], [FactoringMarket]) and the function of the backend that
    puts a KYC payload in canonical form ([Server.stableStringify]).

    - [uint256] values are integers in [0, MAX_UINT256]; checked arithmetic
      (Solidity 0.8) reverts with a panic on overflow, underflow or division
      by zero, [unchecked] blocks wrap around modulo [2^256].
    - A Solidity [mapping] is a finite map together with the default value
      that an absent key reads as.
    - A call either returns the new state or reverts with a reason; a
      transaction that reverts leaves the state it started from ([commit]).
    - The contracts inherit from OpenZeppelin v5 (ERC20, ERC721,
      AccessControl, ReentrancyGuard). Those bases are imported packages;
      the parts the contracts rely on are modelled where they are used.
    - A recipient of ether is modelled by whether it accepts a payment; gas
      is not modelled. Emitted events are not part of the contract state and
      are left out.

    The errors keep the names and messages of the code: [NotKYCApproved] is
    the error of the compliance gate, and the messages
    "No on-chain pending request", "No debt" and "ETH transfer failed" are
    those of a missing pending request, a missing debt and a failed payout. *)

From Stdlib Require Import ZArith Lia String List Bool.
From stdpp Require Import base option gmap.

Open Scope Z_scope.

(** ** EVM basics *)

(** Addresses, words and hashes are integers; the names only document the
    Solidity type of a value. *)
Abbreviation address := Z (only parsing).
Abbreviation uint256 := Z (only parsing).
Abbreviation bytes32 := Z (only parsing).

Definition MAX_UINT256 : Z := 2 ^ 256 - 1.

(** The roles of OpenZeppelin's AccessControl that the contracts declare. *)
Inductive role : Type :=
| DEFAULT_ADMIN_ROLE
| COMPLIANCE_ROLE
| MINTER_ROLE
| TREASURY_ROLE
| RISK_ROLE.

Definition role_eqb (r1 r2 : role) : bool :=
  match r1, r2 with
  | DEFAULT_ADMIN_ROLE, DEFAULT_ADMIN_ROLE
  | COMPLIANCE_ROLE, COMPLIANCE_ROLE
  | MINTER_ROLE, MINTER_ROLE
  | TREASURY_ROLE, TREASURY_ROLE
  | RISK_ROLE, RISK_ROLE => true
  | _, _ => false
  end.

(** Why a call reverted: a [require] message, a custom error of the
    contracts or of the OpenZeppelin bases, or a compiler panic.
    [OutOfFunds] stands for the EVM refusing a call whose value exceeds the
    balance of the account that sends it. *)
Inductive revert_reason : Type :=
| Error (msg : string)
| Panic (code : Z)
| NotKYCApproved (user : address)
| InsufficientCollateral
| BorrowTooLarge
| DebtOutstanding
| AmountZero
| AccessControlUnauthorizedAccount (account : address) (neededRole : role)
| ReentrancyGuardReentrantCall
| ERC20InsufficientBalance (sender : address) (balance needed : uint256)
| ERC20InsufficientAllowance (spender : address) (allowance needed : uint256)
| ERC20InvalidSender (sender : address)
| ERC20InvalidReceiver (receiver : address)
| ERC20InvalidApprover (approver : address)
| ERC20InvalidSpender (spender : address)
| OutOfFunds (account : address).

Inductive result (A : Type) : Type :=
| Ok (a : A)
| Revert (e : revert_reason).

Arguments Ok {A} a.
Arguments Revert {A} e.

Definition bind {A B : Type} (r : result A) (k : A -> result B) : result B :=
  match r with
  | Ok a => k a
  | Revert e => Revert e
  end.

Notation "'let*' x := c 'in' k" := (bind c (fun x => k))
  (at level 10, x name, c at level 100, k at level 200).
Notation "c ;;; k" := (bind c (fun _ => k))
  (at level 100, k at level 200, right associativity).

(** [require(cond, msg)] *)
Definition require (cond : bool) (msg : string) : result unit :=
  if cond then Ok tt else Revert (Error msg).

(** [if (cond) revert e;] *)
Definition revert_if (cond : bool) (e : revert_reason) : result unit :=
  if cond then Revert e else Ok tt.

(** Checked [uint256] arithmetic. *)
Definition checked_add (a b : uint256) : result uint256 :=
  if a + b <=? MAX_UINT256 then Ok (a + b) else Revert (Panic 17).

Definition checked_sub (a b : uint256) : result uint256 :=
  if b <=? a then Ok (a - b) else Revert (Panic 17).

Definition checked_mul (a b : uint256) : result uint256 :=
  if a * b <=? MAX_UINT256 then Ok (a * b) else Revert (Panic 17).

Definition checked_div (a b : uint256) : result uint256 :=
  if b =? 0 then Revert (Panic 18) else Ok (Z.quot a b).

(** Arithmetic inside an [unchecked] block. *)
Definition wrap (a : Z) : uint256 := a mod 2 ^ 256.

(** The sum of the values a [mapping(address => uint256)] stores. *)
Definition msum (m : gmap address Z) : Z :=
  map_fold (fun (_ : address) (v acc : Z) => v + acc) 0 m.

(** The state a transaction leaves behind: the callee's result when the call
    returns, the state before the call when it reverts. *)
Definition commit {S : Type} (before : S) (r : result S) : S :=
  match r with
  | Ok after => after
  | Revert _ => before
  end.

(** The part of the transaction context the contracts read. *)
Record Msg : Type := {
  msg_sender : address;
  msg_value : uint256;
  block_timestamp : uint256
}.

(** ** KYCRegistry.sol *)

Module KYCRegistry.

Record KYCInfo : Type := {
  approved : bool;
  level : Z;
  expiresAt : Z
}.

Definition KYCInfo_zero : KYCInfo :=
  {| approved := false; level := 0; expiresAt := 0 |}.

Record State : Type := {
  _roles : role -> address -> bool;
  _kyc : gmap address KYCInfo;
  pendingKycHash : gmap address bytes32
}.

Definition hasRole (s : State) (r : role) (account : address) : bool :=
  _roles s r account.

(** [_kyc[user]] and [pendingKycHash[user]] as Solidity reads them. *)
Definition kycOf (s : State) (user : address) : KYCInfo :=
  default KYCInfo_zero (_kyc s !! user).

Definition pendingOf (s : State) (user : address) : bytes32 :=
  default 0 (pendingKycHash s !! user).

Definition constructor (admin : address) : State :=
  {| _roles := fun r a =>
       (role_eqb r DEFAULT_ADMIN_ROLE || role_eqb r COMPLIANCE_ROLE)
       && (a =? admin);
     _kyc := {[ admin := {| approved := true; level := 1; expiresAt := 0 |} ]};
     pendingKycHash := ∅ |}.

Definition isKYCApproved (now : uint256) (s : State) (user : address) : bool :=
  let k := kycOf s user in
  if negb (approved k) then false
  else if expiresAt k =? 0 then true
  else now <=? expiresAt k.

Definition onlyComplianceApproved (m : Msg) (s : State) : result unit :=
  require (hasRole s COMPLIANCE_ROLE (msg_sender m)) "Not compliance" ;;;
  require (isKYCApproved (block_timestamp m) s (msg_sender m))
          "Admin must be KYC-approved".

Definition requestKYC (m : Msg) (kycHash : bytes32) (s : State) : result State :=
  require (negb (kycHash =? 0)) "kycHash=0" ;;;
  Ok {| _roles := _roles s;
        _kyc := _kyc s;
        pendingKycHash := <[ msg_sender m := kycHash ]> (pendingKycHash s) |}.

Definition approveFromRequest (m : Msg) (user : address) (lvl exp : Z)
    (s : State) : result State :=
  onlyComplianceApproved m s ;;;
  require (negb (pendingOf s user =? 0)) "No on-chain pending request" ;;;
  Ok {| _roles := _roles s;
        _kyc := <[ user := {| approved := true; level := lvl; expiresAt := exp |} ]>
                  (_kyc s);
        pendingKycHash := <[ user := 0 ]> (pendingKycHash s) |}.

Definition approveKYC (m : Msg) (user : address) (s : State) : result State :=
  onlyComplianceApproved m s ;;;
  require (negb (pendingOf s user =? 0)) "No on-chain pending request" ;;;
  Ok {| _roles := _roles s;
        _kyc := <[ user := {| approved := true; level := 1; expiresAt := 0 |} ]>
                  (_kyc s);
        pendingKycHash := <[ user := 0 ]> (pendingKycHash s) |}.

(** [_kyc[user].approved = false]: the other two fields of the slot keep
    what they held. *)
Definition revokeKYC (m : Msg) (user : address) (s : State) : result State :=
  onlyComplianceApproved m s ;;;
  let k := kycOf s user in
  Ok {| _roles := _roles s;
        _kyc := <[ user := {| approved := false; level := level k;
                              expiresAt := expiresAt k |} ]> (_kyc s);
        pendingKycHash := pendingKycHash s |}.

End KYCRegistry.

(** ** DepositToken.sol *)

Module DepositToken.

(** The token consults the registry [kyc] it was constructed with; the state
    of that registry is an argument of every call that reads it. *)
Record State : Type := {
  _roles : role -> address -> bool;
  _balances : gmap address uint256;
  _allowances : gmap (address * address) uint256;
  _totalSupply : uint256;
  isSystemAddress : gmap address bool
}.

Definition hasRole (s : State) (r : role) (account : address) : bool :=
  _roles s r account.

Definition balanceOf (s : State) (account : address) : uint256 :=
  default 0 (_balances s !! account).

Definition allowance (s : State) (owner spender : address) : uint256 :=
  default 0 (_allowances s !! (owner, spender)).

Definition totalSupply (s : State) : uint256 := _totalSupply s.

Definition isSystem (s : State) (who : address) : bool :=
  default false (isSystemAddress s !! who).

(** The sum of all stored balances. *)
Definition sumBalances (s : State) : Z := msum (_balances s).

Definition set_balance (account : address) (v : uint256) (s : State) : State :=
  {| _roles := _roles s;
     _balances := <[ account := v ]> (_balances s);
     _allowances := _allowances s;
     _totalSupply := _totalSupply s;
     isSystemAddress := isSystemAddress s |}.

Definition set_totalSupply (v : uint256) (s : State) : State :=
  {| _roles := _roles s;
     _balances := _balances s;
     _allowances := _allowances s;
     _totalSupply := v;
     isSystemAddress := isSystemAddress s |}.

Definition set_allowance (owner spender : address) (v : uint256) (s : State)
    : State :=
  {| _roles := _roles s;
     _balances := _balances s;
     _allowances := <[ (owner, spender) := v ]> (_allowances s);
     _totalSupply := _totalSupply s;
     isSystemAddress := isSystemAddress s |}.

Definition constructor (admin : address) : State :=
  {| _roles := fun r a => role_eqb r DEFAULT_ADMIN_ROLE && (a =? admin);
     _balances := ∅;
     _allowances := ∅;
     _totalSupply := 0;
     isSystemAddress := ∅ |}.

(** [onlyRole(r)] of AccessControl. *)
Definition onlyRole (r : role) (m : Msg) (s : State) : result unit :=
  revert_if (negb (hasRole s r (msg_sender m)))
            (AccessControlUnauthorizedAccount (msg_sender m) r).

Definition setSystemAddress (m : Msg) (who : address) (enabled : bool)
    (s : State) : result State :=
  onlyRole DEFAULT_ADMIN_ROLE m s ;;;
  Ok {| _roles := _roles s;
        _balances := _balances s;
        _allowances := _allowances s;
        _totalSupply := _totalSupply s;
        isSystemAddress := <[ who := enabled ]> (isSystemAddress s) |}.

(** Modelled from the spec: [grantRole] and [revokeRole] of the
    AccessControl base; the admin role of every role is
    [DEFAULT_ADMIN_ROLE], which no contract of the repository changes. *)
Definition set_role (r : role) (account : address) (b : bool) (s : State)
    : State :=
  {| _roles := fun r' a =>
       if role_eqb r' r && (a =? account) then b else _roles s r' a;
     _balances := _balances s;
     _allowances := _allowances s;
     _totalSupply := _totalSupply s;
     isSystemAddress := isSystemAddress s |}.

Definition grantRole (m : Msg) (r : role) (account : address) (s : State)
    : result State :=
  onlyRole DEFAULT_ADMIN_ROLE m s ;;;
  Ok (set_role r account true s).

Definition revokeRole (m : Msg) (r : role) (account : address) (s : State)
    : result State :=
  onlyRole DEFAULT_ADMIN_ROLE m s ;;;
  Ok (set_role r account false s).

(** Modelled from the spec: [super._update], the balance bookkeeping of the
    OpenZeppelin v5 ERC20 base that DepositToken inherits (the base is an
    imported package and not part of the sources). It applies the balance
    delta and fails with an insufficient-balance error if the debit would
    underflow. A mint adds to the total supply with a checked addition; the
    credit and the burn's decrement of the supply are [unchecked] there. *)
Definition ERC20_update (from to : address) (value : uint256) (s : State)
    : result State :=
  let* s1 :=
    (if from =? 0 then
       let* ts := checked_add (_totalSupply s) value in
       Ok (set_totalSupply ts s)
     else
       let fromBalance := balanceOf s from in
       if fromBalance <? value
       then Revert (ERC20InsufficientBalance from fromBalance value)
       else Ok (set_balance from (fromBalance - value) s)) in
  if to =? 0 then Ok (set_totalSupply (wrap (_totalSupply s1 - value)) s1)
  else Ok (set_balance to (wrap (balanceOf s1 to + value)) s1).

(** The KYC condition that [_update] imposes on a party. *)
Definition blocked (kyc : KYCRegistry.State) (now : uint256) (s : State)
    (who : address) : bool :=
  negb (isSystem s who) && negb (KYCRegistry.isKYCApproved now kyc who).

Definition _update (kyc : KYCRegistry.State) (now : uint256)
    (from to : address) (value : uint256) (s : State) : result State :=
  if from =? 0 then
    (* Mint *)
    revert_if (blocked kyc now s to) (NotKYCApproved to) ;;;
    ERC20_update from to value s
  else if to =? 0 then
    (* Burn *)
    revert_if (blocked kyc now s from) (NotKYCApproved from) ;;;
    ERC20_update from to value s
  else
    (* Transfer *)
    revert_if (blocked kyc now s from) (NotKYCApproved from) ;;;
    revert_if (blocked kyc now s to) (NotKYCApproved to) ;;;
    ERC20_update from to value s.

(** Modelled from the spec: the entry points of the ERC20 base that route
    into [_update] ([_mint], [_burn], [_transfer], [transfer],
    [transferFrom], [approve] and the allowance bookkeeping), as
    OpenZeppelin v5 defines them. *)
Definition _mint (kyc : KYCRegistry.State) (now : uint256)
    (account : address) (value : uint256) (s : State) : result State :=
  revert_if (account =? 0) (ERC20InvalidReceiver 0) ;;;
  _update kyc now 0 account value s.

Definition _burn (kyc : KYCRegistry.State) (now : uint256)
    (account : address) (value : uint256) (s : State) : result State :=
  revert_if (account =? 0) (ERC20InvalidSender 0) ;;;
  _update kyc now account 0 value s.

Definition _transfer (kyc : KYCRegistry.State) (now : uint256)
    (from to : address) (value : uint256) (s : State) : result State :=
  revert_if (from =? 0) (ERC20InvalidSender 0) ;;;
  revert_if (to =? 0) (ERC20InvalidReceiver 0) ;;;
  _update kyc now from to value s.

Definition _approve (owner spender : address) (value : uint256) (s : State)
    : result State :=
  revert_if (owner =? 0) (ERC20InvalidApprover 0) ;;;
  revert_if (spender =? 0) (ERC20InvalidSpender 0) ;;;
  Ok (set_allowance owner spender value s).

Definition _spendAllowance (owner spender : address) (value : uint256)
    (s : State) : result State :=
  let currentAllowance := allowance s owner spender in
  if currentAllowance <? MAX_UINT256 then
    if currentAllowance <? value
    then Revert (ERC20InsufficientAllowance spender currentAllowance value)
    else _approve owner spender (currentAllowance - value) s
  else Ok s.

Definition approve (m : Msg) (spender : address) (value : uint256) (s : State)
    : result State :=
  _approve (msg_sender m) spender value s.

Definition transfer (kyc : KYCRegistry.State) (m : Msg) (to : address)
    (value : uint256) (s : State) : result State :=
  _transfer kyc (block_timestamp m) (msg_sender m) to value s.

Definition transferFrom (kyc : KYCRegistry.State) (m : Msg) (from to : address)
    (value : uint256) (s : State) : result State :=
  let* s1 := _spendAllowance from (msg_sender m) value s in
  _transfer kyc (block_timestamp m) from to value s1.

Definition mint (kyc : KYCRegistry.State) (m : Msg) (to : address)
    (amount : uint256) (s : State) : result State :=
  onlyRole MINTER_ROLE m s ;;;
  _mint kyc (block_timestamp m) to amount s.

Definition burn (kyc : KYCRegistry.State) (m : Msg) (from : address)
    (amount : uint256) (s : State) : result State :=
  onlyRole MINTER_ROLE m s ;;;
  _burn kyc (block_timestamp m) from amount s.

(** The calls of the token, and a run of them. Each call comes with the
    registry state and the transaction context it executes in; a reverted
    call leaves the token as it was. *)
Inductive op : Type :=
| Mint (to : address) (amount : uint256)
| Burn (from : address) (amount : uint256)
| Transfer (to : address) (amount : uint256)
| TransferFrom (from to : address) (amount : uint256)
| Approve (spender : address) (value : uint256)
| SetSystemAddress (who : address) (enabled : bool)
| GrantRole (r : role) (account : address)
| RevokeRole (r : role) (account : address).

Definition exec (kyc : KYCRegistry.State) (m : Msg) (o : op) (s : State)
    : result State :=
  match o with
  | Mint to amount => mint kyc m to amount s
  | Burn from amount => burn kyc m from amount s
  | Transfer to amount => transfer kyc m to amount s
  | TransferFrom from to amount => transferFrom kyc m from to amount s
  | Approve spender value => approve m spender value s
  | SetSystemAddress who enabled => setSystemAddress m who enabled s
  | GrantRole r account => grantRole m r account s
  | RevokeRole r account => revokeRole m r account s
  end.

Definition step (s : State) (c : KYCRegistry.State * Msg * op) : State :=
  let '(kyc, m, o) := c in commit s (exec kyc m o s).

Definition run (s : State) (cs : list (KYCRegistry.State * Msg * op)) : State :=
  fold_left step cs s.

End DepositToken.

(** ** LendingPool.sol *)

Module LendingPool.

Record Account : Type := {
  collateral : uint256;
  debt : uint256;
  lastAccrued : uint256
}.

Definition Account_zero : Account :=
  {| collateral := 0; debt := 0; lastAccrued := 0 |}.

(** ReentrancyGuard's [_status]. *)
Inductive status : Type := NOT_ENTERED | ENTERED.

(** [this] is [address(this)], the address the pool is deployed at; the
    token and the registry it points to are passed to each call. *)
Record State : Type := {
  this : address;
  _roles : role -> address -> bool;
  _status : status;
  maxLTVBps : uint256;
  annualRateBps : uint256;
  accounts : gmap address Account
}.

Definition hasRole (s : State) (r : role) (account : address) : bool :=
  _roles s r account.

Definition accountOf (s : State) (user : address) : Account :=
  default Account_zero (accounts s !! user).

Definition set_account (user : address) (a : Account) (s : State) : State :=
  {| this := this s;
     _roles := _roles s;
     _status := _status s;
     maxLTVBps := maxLTVBps s;
     annualRateBps := annualRateBps s;
     accounts := <[ user := a ]> (accounts s) |}.

Definition set_status (st : status) (s : State) : State :=
  {| this := this s;
     _roles := _roles s;
     _status := st;
     maxLTVBps := maxLTVBps s;
     annualRateBps := annualRateBps s;
     accounts := accounts s |}.

Definition constructor (self admin : address) : State :=
  {| this := self;
     _roles := fun r a =>
       (role_eqb r DEFAULT_ADMIN_ROLE || role_eqb r RISK_ROLE) && (a =? admin);
     _status := NOT_ENTERED;
     maxLTVBps := 5000;
     annualRateBps := 800;
     accounts := ∅ |}.

(** [365 days] *)
Definition SECONDS_PER_YEAR : Z := 31536000.

Definition onlyRole (r : role) (m : Msg) (s : State) : result unit :=
  revert_if (negb (hasRole s r (msg_sender m)))
            (AccessControlUnauthorizedAccount (msg_sender m) r).

Definition onlyKYC (kyc : KYCRegistry.State) (m : Msg) (user : address)
    : result unit :=
  revert_if (negb (KYCRegistry.isKYCApproved (block_timestamp m) kyc user))
            (NotKYCApproved user).

(** [nonReentrant]: refuse a nested entry, mark the guard for the duration
    of the body, release it afterwards. *)
Definition nonReentrant {T : Type}
    (body : State -> result (State * T)) (s : State) : result (State * T) :=
  revert_if (match _status s with ENTERED => true | NOT_ENTERED => false end)
            ReentrancyGuardReentrantCall ;;;
  let* r := body (set_status ENTERED s) in
  Ok (set_status NOT_ENTERED (fst r), snd r).

Definition setParams (m : Msg) (_maxLTVBps _annualRateBps : uint256)
    (s : State) : result State :=
  onlyRole RISK_ROLE m s ;;;
  require (_maxLTVBps <=? 9000) "LTV too high" ;;;
  require (_annualRateBps <=? 5000) "APR too high" ;;;
  Ok {| this := this s;
        _roles := _roles s;
        _status := _status s;
        maxLTVBps := _maxLTVBps;
        annualRateBps := _annualRateBps;
        accounts := accounts s |}.

Definition _accrue (now : uint256) (user : address) (s : State) : result State :=
  let a := accountOf s user in
  if debt a =? 0 then
    Ok (set_account user {| collateral := collateral a; debt := debt a;
                            lastAccrued := now |} s)
  else
    let* dt := checked_sub now (lastAccrued a) in
    if dt =? 0 then Ok s
    else
      let* x := checked_mul (debt a) (annualRateBps s) in
      let* y := checked_mul x dt in
      let* interest := checked_div y (10000 * SECONDS_PER_YEAR) in
      let* d := checked_add (debt a) interest in
      Ok (set_account user {| collateral := collateral a; debt := d;
                              lastAccrued := now |} s).

(** The pool calls the token as [address(this)]. *)
Definition asPool (m : Msg) (s : State) : Msg :=
  {| msg_sender := this s; msg_value := 0;
     block_timestamp := block_timestamp m |}.

Definition depositCollateral (kyc : KYCRegistry.State) (m : Msg)
    (amount : uint256) (t : DepositToken.State) (s : State)
    : result (State * DepositToken.State) :=
  nonReentrant (fun s =>
    onlyKYC kyc m (msg_sender m) ;;;
    revert_if (amount =? 0) AmountZero ;;;
    let* s := _accrue (block_timestamp m) (msg_sender m) s in
    let* t := DepositToken.transferFrom kyc (asPool m s) (msg_sender m)
                (this s) amount t in
    let a := accountOf s (msg_sender m) in
    let* c := checked_add (collateral a) amount in
    Ok (set_account (msg_sender m)
          {| collateral := c; debt := debt a; lastAccrued := lastAccrued a |} s,
        t)) s.

Definition withdrawCollateral (kyc : KYCRegistry.State) (m : Msg)
    (amount : uint256) (t : DepositToken.State) (s : State)
    : result (State * DepositToken.State) :=
  nonReentrant (fun s =>
    onlyKYC kyc m (msg_sender m) ;;;
    revert_if (amount =? 0) AmountZero ;;;
    let* s := _accrue (block_timestamp m) (msg_sender m) s in
    let a := accountOf s (msg_sender m) in
    require (amount <=? collateral a) "Not enough collateral" ;;;
    let* newCollateral := checked_sub (collateral a) amount in
    let* x := checked_mul newCollateral (maxLTVBps s) in
    let* maxDebtAllowed := checked_div x 10000 in
    revert_if (maxDebtAllowed <? debt a) InsufficientCollateral ;;;
    let s := set_account (msg_sender m)
               {| collateral := newCollateral; debt := debt a;
                  lastAccrued := lastAccrued a |} s in
    let* t := DepositToken.transfer kyc (asPool m s) (msg_sender m) amount t in
    Ok (s, t)) s.

Definition borrow (kyc : KYCRegistry.State) (m : Msg)
    (amount : uint256) (t : DepositToken.State) (s : State)
    : result (State * DepositToken.State) :=
  nonReentrant (fun s =>
    onlyKYC kyc m (msg_sender m) ;;;
    revert_if (amount =? 0) AmountZero ;;;
    let* s := _accrue (block_timestamp m) (msg_sender m) s in
    let a := accountOf s (msg_sender m) in
    let* x := checked_mul (collateral a) (maxLTVBps s) in
    let* maxDebtAllowed := checked_div x 10000 in
    let* wanted := checked_add (debt a) amount in
    revert_if (maxDebtAllowed <? wanted) BorrowTooLarge ;;;
    let* d := checked_add (debt a) amount in
    let s := set_account (msg_sender m)
               {| collateral := collateral a; debt := d;
                  lastAccrued := lastAccrued a |} s in
    let* t := DepositToken.transfer kyc (asPool m s) (msg_sender m) amount t in
    Ok (s, t)) s.

Definition repay (kyc : KYCRegistry.State) (m : Msg)
    (amount : uint256) (t : DepositToken.State) (s : State)
    : result (State * DepositToken.State) :=
  nonReentrant (fun s =>
    onlyKYC kyc m (msg_sender m) ;;;
    revert_if (amount =? 0) AmountZero ;;;
    let* s := _accrue (block_timestamp m) (msg_sender m) s in
    let a := accountOf s (msg_sender m) in
    require (0 <? debt a) "No debt" ;;;
    let* t := DepositToken.transferFrom kyc (asPool m s) (msg_sender m)
                (this s) amount t in
    if debt a <=? amount then
      let* over := checked_sub amount (debt a) in
      let s := set_account (msg_sender m)
                 {| collateral := collateral a; debt := 0;
                    lastAccrued := block_timestamp m |} s in
      (* refund any overpayment *)
      let* t := (if 0 <? over
                 then DepositToken.transfer kyc (asPool m s) (msg_sender m) over t
                 else Ok t) in
      Ok (s, t)
    else
      let* d := checked_sub (debt a) amount in
      Ok (set_account (msg_sender m)
            {| collateral := collateral a; debt := d;
               lastAccrued := lastAccrued a |} s,
          t)) s.

Definition getAccount (now : uint256) (s : State) (user : address)
    : result (uint256 * uint256 * uint256) :=
  let a := accountOf s user in
  if debt a =? 0 then Ok (collateral a, 0, lastAccrued a)
  else
    let* dt := checked_sub now (lastAccrued a) in
    let* x := checked_mul (debt a) (annualRateBps s) in
    let* y := checked_mul x dt in
    let* interest := checked_div y (10000 * SECONDS_PER_YEAR) in
    let* d := checked_add (debt a) interest in
    Ok (collateral a, d, lastAccrued a).

(** The interest [_accrue] and [getAccount] charge on a debt [d] for [dt]
    seconds at [rate] basis points a year. *)
Definition interest (d rate dt : uint256) : uint256 :=
  Z.quot (d * rate * dt) (10000 * SECONDS_PER_YEAR).

(** A run of operations that each accrue one account at the given
    timestamp; an accrual that reverts leaves the pool as it was. *)
Definition accrue_run (times : list uint256) (user : address) (s : State)
    : State :=
  fold_left (fun s now => commit s (_accrue now user s)) times s.

End LendingPool.

(** ** BankVault.sol *)

Module BankVault.

Inductive status : Type := NOT_ENTERED | ENTERED.

(** [this] is [address(this)], the address the vault is deployed at. *)
Record State : Type := {
  this : address;
  _roles : role -> address -> bool;
  _status : status
}.

(** What a call of the vault can change: the guard of the vault, the token
    and the ether balances of the accounts. *)
Record World : Type := {
  vault : State;
  token : DepositToken.State;
  ether : gmap address Z
}.

Definition hasRole (s : State) (r : role) (account : address) : bool :=
  _roles s r account.

Definition etherOf (eth : gmap address Z) (who : address) : Z :=
  default 0 (eth !! who).

Definition set_status (st : status) (s : State) : State :=
  {| this := this s; _roles := _roles s; _status := st |}.

Definition constructor (self admin : address) : State :=
  {| this := self;
     _roles := fun r a =>
       (role_eqb r DEFAULT_ADMIN_ROLE || role_eqb r TREASURY_ROLE)
       && (a =? admin);
     _status := NOT_ENTERED |}.

Definition onlyRole (r : role) (m : Msg) (s : State) : result unit :=
  revert_if (negb (hasRole s r (msg_sender m)))
            (AccessControlUnauthorizedAccount (msg_sender m) r).

Definition onlyKYC (kyc : KYCRegistry.State) (m : Msg) (user : address)
    : result unit :=
  revert_if (negb (KYCRegistry.isKYCApproved (block_timestamp m) kyc user))
            (NotKYCApproved user).

Definition nonReentrant (body : World -> result World) (w : World)
    : result World :=
  revert_if (match _status (vault w) with ENTERED => true | NOT_ENTERED => false end)
            ReentrancyGuardReentrantCall ;;;
  let* w1 := body {| vault := set_status ENTERED (vault w);
                     token := token w; ether := ether w |} in
  Ok {| vault := set_status NOT_ENTERED (vault w1);
        token := token w1; ether := ether w1 |}.

(** Moving [amount] wei between two accounts. *)
Definition move_ether (from to : address) (amount : uint256)
    (eth : gmap address Z) : gmap address Z :=
  let eth1 := <[ from := etherOf eth from - amount ]> eth in
  <[ to := etherOf eth1 to + amount ]> eth1.

(** The value of a payable call reaches the callee before its body runs;
    the EVM refuses the call if the sender cannot pay it. *)
Definition receive_value (m : Msg) (w : World) : result World :=
  revert_if (etherOf (ether w) (msg_sender m) <? msg_value m)
            (OutOfFunds (msg_sender m)) ;;;
  Ok {| vault := vault w; token := token w;
        ether := move_ether (msg_sender m) (this (vault w)) (msg_value m)
                   (ether w) |}.

(** [payable(to).call{value: amount}("")]: the flag it returns and the
    balances it leaves. The call fails, changing nothing, when the vault
    holds less than [amount] or when the code of the recipient rejects the
    payment; [accepts to amount] is the outcome of that code, which this
    model does not look into any further. *)
Definition call_value (accepts : address -> uint256 -> bool) (to : address)
    (amount : uint256) (w : World) : bool * World :=
  if (etherOf (ether w) (this (vault w)) <? amount) || negb (accepts to amount)
  then (false, w)
  else (true, {| vault := vault w; token := token w;
                 ether := move_ether (this (vault w)) to amount (ether w) |}).

(** The vault calls the token as [address(this)]. *)
Definition asVault (m : Msg) (w : World) : Msg :=
  {| msg_sender := this (vault w); msg_value := 0;
     block_timestamp := block_timestamp m |}.

Definition with_token (t : DepositToken.State) (w : World) : World :=
  {| vault := vault w; token := t; ether := ether w |}.

Definition deposit (kyc : KYCRegistry.State) (m : Msg) (w : World)
    : result World :=
  let* w := receive_value m w in
  nonReentrant (fun w =>
    onlyKYC kyc m (msg_sender m) ;;;
    require (0 <? msg_value m) "Deposit must be > 0" ;;;
    let* t := DepositToken.mint kyc (asVault m w) (msg_sender m) (msg_value m)
                (token w) in
    Ok (with_token t w)) w.

Definition withdraw (kyc : KYCRegistry.State)
    (accepts : address -> uint256 -> bool) (m : Msg) (amount : uint256)
    (w : World) : result World :=
  nonReentrant (fun w =>
    onlyKYC kyc m (msg_sender m) ;;;
    require (0 <? amount) "Amount must be > 0" ;;;
    let* t := DepositToken.burn kyc (asVault m w) (msg_sender m) amount
                (token w) in
    let '(ok, w) := call_value accepts (msg_sender m) amount (with_token t w) in
    require ok "ETH transfer failed" ;;;
    Ok w) w.

Definition transferBKD (kyc : KYCRegistry.State) (m : Msg) (to : address)
    (amount : uint256) (w : World) : result World :=
  nonReentrant (fun w =>
    onlyKYC kyc m (msg_sender m) ;;;
    onlyKYC kyc m to ;;;
    require (0 <? amount) "Amount must be > 0" ;;;
    (* pull tokens then push to recipient *)
    let* t := DepositToken.transferFrom kyc (asVault m w) (msg_sender m)
                (this (vault w)) amount (token w) in
    let* t := DepositToken.transfer kyc (asVault m w) to amount t in
    Ok (with_token t w)) w.

Definition treasuryWithdrawETH (accepts : address -> uint256 -> bool)
    (m : Msg) (to : address) (amount : uint256) (w : World) : result World :=
  onlyRole TREASURY_ROLE m (vault w) ;;;
  let '(ok, w) := call_value accepts to amount w in
  require ok "ETH transfer failed" ;;;
  Ok w.

End BankVault.

(** ** InvoiceNFT.sol and FactoringMarket.sol *)

(** The roles the invoice contract declares; [INVOICE_ADMIN_ROLE] is the
    [DEFAULT_ADMIN_ROLE] of that contract. *)
Inductive invoice_role : Type := INVOICE_ADMIN_ROLE | BANK_ROLE.

Definition invoice_role_eqb (r1 r2 : invoice_role) : bool :=
  match r1, r2 with
  | INVOICE_ADMIN_ROLE, INVOICE_ADMIN_ROLE | BANK_ROLE, BANK_ROLE => true
  | _, _ => false
  end.

(** Why a call of the invoice contract or of the market reverted: with one
    of the reasons of the core contracts ([Base]), with an error of the
    market ([NotOwner], [NotActive]), with an error of the OpenZeppelin
    ERC721 base, or because the caller lacks a role of the invoice
    contract. *)
Inductive reason : Type :=
| Base (e : revert_reason)
| NotOwner
| NotActive
| ERC721InvalidOwner (owner : address)
| ERC721NonexistentToken (tokenId : uint256)
| ERC721IncorrectOwner (sender : address) (tokenId : uint256) (owner : address)
| ERC721InvalidSender (sender : address)
| ERC721InvalidReceiver (receiver : address)
| ERC721InsufficientApproval (operator : address) (tokenId : uint256)
| ERC721InvalidApprover (approver : address)
| ERC721InvalidOperator (operator : address)
| InvoiceUnauthorizedAccount (account : address) (neededRole : invoice_role).

Inductive outcome (A : Type) : Type :=
| Returns (a : A)
| Reverts (e : reason).

Arguments Returns {A} a.
Arguments Reverts {A} e.

Definition and_then {A B : Type} (r : outcome A) (k : A -> outcome B)
    : outcome B :=
  match r with
  | Returns a => k a
  | Reverts e => Reverts e
  end.

Notation "'let+' x := c 'in' k" := (and_then c (fun x => k))
  (at level 10, x name, c at level 100, k at level 200).
Notation "c ;;+ k" := (and_then c (fun _ => k))
  (at level 100, k at level 200, right associativity).

(** A call into one of the core contracts: its revert reason bubbles up. *)
Definition lift {A : Type} (r : result A) : outcome A :=
  match r with
  | Ok a => Returns a
  | Revert e => Reverts (Base e)
  end.

(** [if (cond) revert e;] *)
Definition reverts_if (cond : bool) (e : reason) : outcome unit :=
  if cond then Reverts e else Returns tt.

(** The state a transaction leaves behind. *)
Definition settle {S : Type} (before : S) (r : outcome S) : S :=
  match r with
  | Returns after => after
  | Reverts _ => before
  end.

Module InvoiceNFT.

Record Invoice : Type := {
  metadataURI : string;
  faceValue : uint256;
  dueDate : uint256;
  issuer : address;
  supplier : address
}.

Definition Invoice_zero : Invoice :=
  {| metadataURI := EmptyString; faceValue := 0; dueDate := 0; issuer := 0;
     supplier := 0 |}.

(** The storage of the contract: the roles of AccessControl, the four
    mappings of the ERC721 base, and the two variables of InvoiceNFT. *)
Record State : Type := {
  _roles : invoice_role -> address -> bool;
  _owners : gmap uint256 address;
  _balances : gmap address uint256;
  _tokenApprovals : gmap uint256 address;
  _operatorApprovals : gmap (address * address) bool;
  nextId : uint256;
  invoices : gmap uint256 Invoice
}.

Definition hasRole (s : State) (r : invoice_role) (account : address) : bool :=
  _roles s r account.

Definition invoiceOf (s : State) (id : uint256) : Invoice :=
  default Invoice_zero (invoices s !! id).

Definition constructor (admin : address) : State :=
  {| _roles := fun r a => a =? admin;
     _owners := ∅;
     _balances := ∅;
     _tokenApprovals := ∅;
     _operatorApprovals := ∅;
     nextId := 1;
     invoices := ∅ |}.

Definition onlyRole (r : invoice_role) (m : Msg) (s : State) : outcome unit :=
  reverts_if (negb (hasRole s r (msg_sender m)))
             (InvoiceUnauthorizedAccount (msg_sender m) r).

(** Modelled from the spec: the ERC721 base of OpenZeppelin v5 that
    InvoiceNFT inherits without overriding its bookkeeping (the base is an
    imported package and not part of the sources): [_ownerOf],
    [_getApproved], [isApprovedForAll], [balanceOf], [ownerOf],
    [_isAuthorized], [_checkAuthorized], [_update], [_mint], [approve],
    [setApprovalForAll] and [transferFrom]. The balance counters are
    updated in [unchecked] blocks there. *)
Definition _ownerOf (s : State) (tokenId : uint256) : address :=
  default 0 (_owners s !! tokenId).

Definition _getApproved (s : State) (tokenId : uint256) : address :=
  default 0 (_tokenApprovals s !! tokenId).

Definition isApprovedForAll (s : State) (owner operator : address) : bool :=
  default false (_operatorApprovals s !! (owner, operator)).

Definition balanceOf (s : State) (owner : address) : outcome uint256 :=
  if owner =? 0 then Reverts (ERC721InvalidOwner 0)
  else Returns (default 0 (_balances s !! owner)).

Definition _requireOwned (s : State) (tokenId : uint256) : outcome address :=
  let owner := _ownerOf s tokenId in
  if owner =? 0 then Reverts (ERC721NonexistentToken tokenId)
  else Returns owner.

Definition ownerOf (s : State) (tokenId : uint256) : outcome address :=
  _requireOwned s tokenId.

Definition _isAuthorized (s : State) (owner spender : address)
    (tokenId : uint256) : bool :=
  negb (spender =? 0)
  && ((owner =? spender) || isApprovedForAll s owner spender
      || (_getApproved s tokenId =? spender)).

Definition _checkAuthorized (s : State) (owner spender : address)
    (tokenId : uint256) : outcome unit :=
  if _isAuthorized s owner spender tokenId then Returns tt
  else if owner =? 0 then Reverts (ERC721NonexistentToken tokenId)
  else Reverts (ERC721InsufficientApproval spender tokenId).

Definition set_owner (tokenId : uint256) (owner : address) (s : State) : State :=
  {| _roles := _roles s;
     _owners := <[ tokenId := owner ]> (_owners s);
     _balances := _balances s;
     _tokenApprovals := _tokenApprovals s;
     _operatorApprovals := _operatorApprovals s;
     nextId := nextId s;
     invoices := invoices s |}.

Definition set_balance (owner : address) (v : uint256) (s : State) : State :=
  {| _roles := _roles s;
     _owners := _owners s;
     _balances := <[ owner := v ]> (_balances s);
     _tokenApprovals := _tokenApprovals s;
     _operatorApprovals := _operatorApprovals s;
     nextId := nextId s;
     invoices := invoices s |}.

Definition set_approved (tokenId : uint256) (to : address) (s : State) : State :=
  {| _roles := _roles s;
     _owners := _owners s;
     _balances := _balances s;
     _tokenApprovals := <[ tokenId := to ]> (_tokenApprovals s);
     _operatorApprovals := _operatorApprovals s;
     nextId := nextId s;
     invoices := invoices s |}.

Definition set_operator (owner operator : address) (approved : bool)
    (s : State) : State :=
  {| _roles := _roles s;
     _owners := _owners s;
     _balances := _balances s;
     _tokenApprovals := _tokenApprovals s;
     _operatorApprovals := <[ (owner, operator) := approved ]>
                             (_operatorApprovals s);
     nextId := nextId s;
     invoices := invoices s |}.

Definition counter (s : State) (owner : address) : uint256 :=
  default 0 (_balances s !! owner).

(** [_update(to, tokenId, auth)] returns the previous owner. *)
Definition _update (to : address) (tokenId : uint256) (auth : address)
    (s : State) : outcome (address * State) :=
  let from := _ownerOf s tokenId in
  (if auth =? 0 then Returns tt else _checkAuthorized s from auth tokenId) ;;+
  let s1 :=
    if from =? 0 then s
    else
      let s0 := set_approved tokenId 0 s in
      set_balance from (wrap (counter s0 from - 1)) s0 in
  let s2 :=
    if to =? 0 then s1
    else set_balance to (wrap (counter s1 to + 1)) s1 in
  Returns (from, set_owner tokenId to s2).

Definition _mint (to : address) (tokenId : uint256) (s : State)
    : outcome State :=
  reverts_if (to =? 0) (ERC721InvalidReceiver 0) ;;+
  let+ r := _update to tokenId 0 s in
  reverts_if (negb (fst r =? 0)) (ERC721InvalidSender 0) ;;+
  Returns (snd r).

Definition transferFrom (m : Msg) (from to : address) (tokenId : uint256)
    (s : State) : outcome State :=
  reverts_if (to =? 0) (ERC721InvalidReceiver 0) ;;+
  let+ r := _update to tokenId (msg_sender m) s in
  reverts_if (negb (fst r =? from)) (ERC721IncorrectOwner from tokenId (fst r)) ;;+
  Returns (snd r).

Definition approve (m : Msg) (to : address) (tokenId : uint256) (s : State)
    : outcome State :=
  let auth := msg_sender m in
  let+ owner := _requireOwned s tokenId in
  reverts_if (negb (auth =? 0) && negb (owner =? auth)
              && negb (isApprovedForAll s owner auth))
             (ERC721InvalidApprover auth) ;;+
  Returns (set_approved tokenId to s).

Definition setApprovalForAll (m : Msg) (operator : address) (approved : bool)
    (s : State) : outcome State :=
  reverts_if (operator =? 0) (ERC721InvalidOperator operator) ;;+
  Returns (set_operator (msg_sender m) operator approved s).

(** [mintInvoice] returns the id of the new invoice. *)
Definition mintInvoice (m : Msg) (supplier_ issuer_ : address)
    (faceValue_ dueDate_ : uint256) (metadataURI_ : string) (s : State)
    : outcome (uint256 * State) :=
  onlyRole BANK_ROLE m s ;;+
  let id := nextId s in
  let+ next := lift (checked_add (nextId s) 1) in
  let s1 :=
    {| _roles := _roles s;
       _owners := _owners s;
       _balances := _balances s;
       _tokenApprovals := _tokenApprovals s;
       _operatorApprovals := _operatorApprovals s;
       nextId := next;
       invoices := <[ id := {| metadataURI := metadataURI_;
                               faceValue := faceValue_;
                               dueDate := dueDate_;
                               issuer := issuer_;
                               supplier := supplier_ |} ]> (invoices s) |} in
  let+ s2 := _mint supplier_ id s1 in
  Returns (id, s2).

Definition tokenURI (s : State) (tokenId : uint256) : outcome string :=
  lift (require (negb (_ownerOf s tokenId =? 0)) "Nonexistent token") ;;+
  Returns (metadataURI (invoiceOf s tokenId)).

End InvoiceNFT.

Module FactoringMarket.

Inductive status : Type := NOT_ENTERED | ENTERED.

Inductive role : Type := DEFAULT_ADMIN_ROLE | MARKET_ADMIN_ROLE.

Record Listing : Type := {
  seller : address;
  price : uint256;
  active : bool
}.

Definition Listing_zero : Listing :=
  {| seller := 0; price := 0; active := false |}.

(** [this] is [address(this)], the address the market is deployed at. *)
Record State : Type := {
  this : address;
  _roles : role -> address -> bool;
  _status : status;
  listings : gmap uint256 Listing
}.

(** What a call of the market can change: the market itself, the invoice
    contract and the token. *)
Record World : Type := {
  market : State;
  invoice : InvoiceNFT.State;
  token : DepositToken.State
}.

Definition listingOf (s : State) (invoiceId : uint256) : Listing :=
  default Listing_zero (listings s !! invoiceId).

Definition set_status (st : status) (s : State) : State :=
  {| this := this s; _roles := _roles s; _status := st;
     listings := listings s |}.

Definition set_listing (invoiceId : uint256) (l : Listing) (s : State) : State :=
  {| this := this s; _roles := _roles s; _status := _status s;
     listings := <[ invoiceId := l ]> (listings s) |}.

Definition constructor (self admin : address) : State :=
  {| this := self;
     _roles := fun r a => a =? admin;
     _status := NOT_ENTERED;
     listings := ∅ |}.

Definition onlyKYC (kyc : KYCRegistry.State) (m : Msg) (user : address)
    : outcome unit :=
  reverts_if (negb (KYCRegistry.isKYCApproved (block_timestamp m) kyc user))
             (Base (NotKYCApproved user)).

Definition nonReentrant (body : World -> outcome World) (w : World)
    : outcome World :=
  reverts_if (match _status (market w) with ENTERED => true | NOT_ENTERED => false end)
             (Base ReentrancyGuardReentrantCall) ;;+
  let+ w1 := body {| market := set_status ENTERED (market w);
                     invoice := invoice w; token := token w |} in
  Returns {| market := set_status NOT_ENTERED (market w1);
             invoice := invoice w1; token := token w1 |}.

(** The market calls the invoice contract and the token as
    [address(this)]. *)
Definition asMarket (m : Msg) (w : World) : Msg :=
  {| msg_sender := this (market w); msg_value := 0;
     block_timestamp := block_timestamp m |}.

(** [list(invoiceId, price)] *)
Definition list_ (kyc : KYCRegistry.State) (m : Msg)
    (invoiceId price_ : uint256) (w : World) : outcome World :=
  nonReentrant (fun w =>
    onlyKYC kyc m (msg_sender m) ;;+
    reverts_if (price_ =? 0) (Base AmountZero) ;;+
    let+ owner := InvoiceNFT.ownerOf (invoice w) invoiceId in
    reverts_if (negb (owner =? msg_sender m)) NotOwner ;;+
    (* Transfer NFT into escrow *)
    let+ nft := InvoiceNFT.transferFrom (asMarket m w) (msg_sender m)
                  (this (market w)) invoiceId (invoice w) in
    Returns {| market := set_listing invoiceId
                           {| seller := msg_sender m; price := price_;
                              active := true |} (market w);
               invoice := nft;
               token := token w |}) w.

Definition unlist (m : Msg) (invoiceId : uint256) (w : World) : outcome World :=
  nonReentrant (fun w =>
    let l := listingOf (market w) invoiceId in
    reverts_if (negb (active l)) NotActive ;;+
    reverts_if (negb (seller l =? msg_sender m)) NotOwner ;;+
    let mk := set_listing invoiceId
                {| seller := seller l; price := price l; active := false |}
                (market w) in
    let+ nft := InvoiceNFT.transferFrom (asMarket m w) (this (market w))
                  (msg_sender m) invoiceId (invoice w) in
    Returns {| market := mk; invoice := nft; token := token w |}) w.

(** The [transferFrom] of the token returns [true] whenever it returns, so
    the [require] around it never fails. *)
Definition buy (kyc : KYCRegistry.State) (m : Msg) (invoiceId : uint256)
    (w : World) : outcome World :=
  nonReentrant (fun w =>
    onlyKYC kyc m (msg_sender m) ;;+
    let l := listingOf (market w) invoiceId in
    reverts_if (negb (active l)) NotActive ;;+
    (* Pull BKD from buyer to seller *)
    let+ t := lift (DepositToken.transferFrom kyc (asMarket m w) (msg_sender m)
                      (seller l) (price l) (token w)) in
    lift (require true "BKD transfer failed") ;;+
    (* Transfer NFT to buyer *)
    let mk := set_listing invoiceId
                {| seller := seller l; price := price l; active := false |}
                (market w) in
    let+ nft := InvoiceNFT.transferFrom (asMarket m w) (this (market w))
                  (msg_sender m) invoiceId (invoice w) in
    Returns {| market := mk; invoice := nft; token := t |}) w.

End FactoringMarket.

(** ** backend/src/server.js: the canonical form of a KYC payload *)

Module Server.

(** A JavaScript string is a sequence of UTF-16 code units; [str] gives the
    code units of an ASCII literal. *)
Abbreviation jsstring := (list N) (only parsing).

Definition str (s : string) : jsstring :=
  map Ascii.N_of_ascii (list_ascii_of_string s).

(** The order of the default [Array.prototype.sort]: strings compare by
    their code units, a proper prefix before its extensions. *)
Fixpoint lt_units (a b : jsstring) : bool :=
  match a, b with
  | [], [] => false
  | [], _ :: _ => true
  | _ :: _, [] => false
  | x :: a', y :: b' =>
      if (x <? y)%N then true
      else if (y <? x)%N then false
      else lt_units a' b'
  end.

Fixpoint insert_key (k : jsstring) (sorted : list jsstring) : list jsstring :=
  match sorted with
  | [] => [k]
  | k' :: rest => if lt_units k' k then k' :: insert_key k rest else k :: sorted
  end.

(** [keys.sort()] *)
Definition sort (keys : list jsstring) : list jsstring :=
  fold_right insert_key [] keys.

(** [parts.join(sep)] *)
Fixpoint join (sep : jsstring) (parts : list jsstring) : jsstring :=
  match parts with
  | [] => []
  | p :: rest =>
      match rest with
      | [] => p
      | _ :: _ => p ++ sep ++ join sep rest
      end
  end.

(** [obj[k]]: the value of the first field named [k]. *)
Fixpoint get {A : Type} (k : jsstring) (fields : list (jsstring * A))
    : option A :=
  match fields with
  | [] => None
  | (k', v) :: rest => if bool_decide (k' = k) then Some v else get k rest
  end.

Section Stringify.

(** The numbers of JavaScript and the built-in [JSON.stringify] on a number
    and on a string are left open: the function below only passes their
    results on. *)
Variable number : Type.
Variable JSON_stringify_number : number -> jsstring.
Variable JSON_stringify_string : jsstring -> jsstring.

(** The values [JSON.parse] produces. The fields of an object are listed in
    the order in which [Object.keys] enumerates them. *)
#[local] Unset Elimination Schemes.

Inductive value : Type :=
| Null
| Bool (b : bool)
| Number (n : number)
| String (s : jsstring)
| Array (items : list value)
| Object (fields : list (jsstring * value)).

#[local] Set Elimination Schemes.

(** [stableStringify(obj)]. The text of each field is computed where the
    field is stored and looked up under its key, which is
    [stableStringify(obj[k])]; a key without a field would give the text of
    [undefined]. *)
Fixpoint stableStringify (obj : value) : jsstring :=
  match obj with
  | Null => str "null"
  | Bool true => str "true"
  | Bool false => str "false"
  | Number n => JSON_stringify_number n
  | String s => JSON_stringify_string s
  | Array items =>
      str "[" ++ join (str ",") (map stableStringify items) ++ str "]"
  | Object fields =>
      let keys := sort (map fst fields) in
      let texts :=
        map (fun kv => let '(k, v) := kv in (k, stableStringify v)) fields in
      str "{"
      ++ join (str ",")
           (map (fun k => JSON_stringify_string k ++ str ":"
                          ++ default (str "undefined") (get k texts)) keys)
      ++ str "}"
  end.

(** [buildKycMessage(canonicalPayload)]: a heading, a line break, the
    payload. *)
Definition buildKycMessage (canonicalPayload : jsstring) : jsstring :=
  str "BankChain KYC Request" ++ [10%N] ++ canonicalPayload.

End Stringify.

Arguments Null {number}.
Arguments Bool {number} b.
Arguments Number {number} n.
Arguments String {number} s.
Arguments Array {number} items.
Arguments Object {number} fields.
Arguments stableStringify {number} JSON_stringify_number JSON_stringify_string
  obj.

End Server.

(** * Vocabulary of the properties *)

Definition all_nonneg (m : gmap address Z) : Prop :=
  forall k v, m !! k = Some v -> 0 <= v.

(** No stored balance is negative, the balances add up to the total supply,
    and the total supply is a [uint256] value. *)
Record token_inv (s : DepositToken.State) : Prop := {
  inv_nonneg : all_nonneg (DepositToken._balances s);
  inv_sum : DepositToken.sumBalances s = DepositToken._totalSupply s;
  inv_supply : DepositToken._totalSupply s <= MAX_UINT256
}.

(** The values a call passes are [uint256] values. *)
Definition op_wf (o : DepositToken.op) : Prop :=
  match o with
  | DepositToken.Mint _ amount | DepositToken.Burn _ amount
  | DepositToken.Transfer _ amount | DepositToken.TransferFrom _ _ amount
  | DepositToken.Approve _ amount => 0 <= amount <= MAX_UINT256
  | _ => True
  end.

(** The mint, burn or transfer [o], sent in the context [m], credits or
    debits the account [a]. *)
Definition touches (m : Msg) (o : DepositToken.op) (a : address) : Prop :=
  match o with
  | DepositToken.Mint to _ => to = a
  | DepositToken.Burn from _ => from = a
  | DepositToken.Transfer to _ => msg_sender m = a \/ to = a
  | DepositToken.TransferFrom from to _ => from = a \/ to = a
  | _ => False
  end.

(** The facts a returning [_transfer] between two different accounts
    establishes. *)
Record transferred (kyc : KYCRegistry.State) (now : uint256) (from to : address)
    (value : uint256) (s s' : DepositToken.State) : Prop := {
  tr_from_nonzero : from <> 0;
  tr_to_nonzero : to <> 0;
  tr_from_allowed : DepositToken.blocked kyc now s from = false;
  tr_to_allowed : DepositToken.blocked kyc now s to = false;
  tr_covered : value <= DepositToken.balanceOf s from;
  tr_from : DepositToken.balanceOf s' from = DepositToken.balanceOf s from - value;
  tr_to : DepositToken.balanceOf s' to = DepositToken.balanceOf s to + value;
  tr_others : forall x, x <> from -> x <> to ->
                DepositToken.balanceOf s' x = DepositToken.balanceOf s x;
  tr_supply : DepositToken._totalSupply s' = DepositToken._totalSupply s;
  tr_flags : DepositToken.isSystemAddress s' = DepositToken.isSystemAddress s;
  tr_roles : DepositToken._roles s' = DepositToken._roles s;
  tr_allowances : DepositToken._allowances s' = DepositToken._allowances s;
  tr_inv : token_inv s'
}.

(** The facts a returning [mint] establishes. *)
Record minted (kyc : KYCRegistry.State) (m : Msg) (to : address)
    (amount : uint256) (s s' : DepositToken.State) : Prop := {
  mi_to_nonzero : to <> 0;
  mi_role : DepositToken.hasRole s MINTER_ROLE (msg_sender m) = true;
  mi_allowed : DepositToken.blocked kyc (block_timestamp m) s to = false;
  mi_to : DepositToken.balanceOf s' to = DepositToken.balanceOf s to + amount;
  mi_others : forall x, x <> to ->
                DepositToken.balanceOf s' x = DepositToken.balanceOf s x;
  mi_supply : DepositToken._totalSupply s' = DepositToken._totalSupply s + amount;
  mi_flags : DepositToken.isSystemAddress s' = DepositToken.isSystemAddress s;
  mi_roles : DepositToken._roles s' = DepositToken._roles s;
  mi_inv : token_inv s'
}.

(** The payout of [withdraw] fails: the vault holds too little ether, or the
    recipient rejects the payment. *)
Definition payout_fails (accepts : address -> uint256 -> bool) (to : address)
    (amount : uint256) (w : BankVault.World) : Prop :=
  BankVault.etherOf (BankVault.ether w) (BankVault.this (BankVault.vault w))
    < amount
  \/ accepts to amount = false.

(** The ether the vault holds beyond the token supply. *)
Definition backing_surplus (w : BankVault.World) : Z :=
  BankVault.etherOf (BankVault.ether w) (BankVault.this (BankVault.vault w))
  - DepositToken.totalSupply (BankVault.token w).

(** The calls of the vault that exchange or move tokens, and a run of them.
    Each call comes with the registry state, the behaviour of the ether
    recipients and the transaction context it executes in. *)
Inductive vault_call : Type :=
| VDeposit
| VWithdraw (amount : uint256)
| VTransferBKD (to : address) (amount : uint256).

Definition vault_exec (kyc : KYCRegistry.State)
    (accepts : address -> uint256 -> bool) (m : Msg) (c : vault_call)
    (w : BankVault.World) : result BankVault.World :=
  match c with
  | VDeposit => BankVault.deposit kyc m w
  | VWithdraw amount => BankVault.withdraw kyc accepts m amount w
  | VTransferBKD to amount => BankVault.transferBKD kyc m to amount w
  end.

Definition vault_step (w : BankVault.World)
    (c : KYCRegistry.State * (address -> uint256 -> bool) * Msg * vault_call)
    : BankVault.World :=
  let '(kyc, accepts, m, call) := c in commit w (vault_exec kyc accepts m call w).

Definition vault_run (w : BankVault.World)
    (cs : list (KYCRegistry.State * (address -> uint256 -> bool) * Msg * vault_call))
    : BankVault.World :=
  fold_left vault_step cs w.

(** The calls of the pool and a run of them; a reverted call leaves the pool
    and the token as they were. *)
Inductive pool_call : Type :=
| PDepositCollateral (amount : uint256)
| PWithdrawCollateral (amount : uint256)
| PBorrow (amount : uint256)
| PRepay (amount : uint256)
| PSetParams (_maxLTVBps _annualRateBps : uint256).

Definition pool_exec (kyc : KYCRegistry.State) (m : Msg) (c : pool_call)
    (st : LendingPool.State * DepositToken.State)
    : result (LendingPool.State * DepositToken.State) :=
  match c with
  | PDepositCollateral amount =>
      LendingPool.depositCollateral kyc m amount (snd st) (fst st)
  | PWithdrawCollateral amount =>
      LendingPool.withdrawCollateral kyc m amount (snd st) (fst st)
  | PBorrow amount => LendingPool.borrow kyc m amount (snd st) (fst st)
  | PRepay amount => LendingPool.repay kyc m amount (snd st) (fst st)
  | PSetParams ltv rate =>
      let* s := LendingPool.setParams m ltv rate (fst st) in Ok (s, snd st)
  end.

Definition pool_step (st : LendingPool.State * DepositToken.State)
    (c : KYCRegistry.State * Msg * pool_call)
    : LendingPool.State * DepositToken.State :=
  let '(kyc, m, call) := c in commit st (pool_exec kyc m call st).

Definition pool_run (st : LendingPool.State * DepositToken.State)
    (cs : list (KYCRegistry.State * Msg * pool_call))
    : LendingPool.State * DepositToken.State :=
  fold_left pool_step cs st.

(** The account a call of the pool leaves to its caller, given the account
    [a] the accrual at the start of the call produced: collateral moves by
    deposits and withdrawals, debt by loans and repayments, and a repayment
    never takes the debt below zero. *)
Definition account_after (c : pool_call) (now : uint256)
    (a : LendingPool.Account) : LendingPool.Account :=
  match c with
  | PDepositCollateral amount =>
      {| LendingPool.collateral := LendingPool.collateral a + amount;
         LendingPool.debt := LendingPool.debt a;
         LendingPool.lastAccrued := now |}
  | PWithdrawCollateral amount =>
      {| LendingPool.collateral := LendingPool.collateral a - amount;
         LendingPool.debt := LendingPool.debt a;
         LendingPool.lastAccrued := now |}
  | PBorrow amount =>
      {| LendingPool.collateral := LendingPool.collateral a;
         LendingPool.debt := LendingPool.debt a + amount;
         LendingPool.lastAccrued := now |}
  | PRepay amount =>
      {| LendingPool.collateral := LendingPool.collateral a;
         LendingPool.debt := LendingPool.debt a - Z.min amount (LendingPool.debt a);
         LendingPool.lastAccrued := now |}
  | PSetParams _ _ => a
  end.

(** The state an account operation of the pool returns: the accrued state
    [s1] with the caller's account replaced and the guard released. *)
Definition settled (user : address) (a' : LendingPool.Account)
    (s1 : LendingPool.State) : LendingPool.State :=
  LendingPool.set_status LendingPool.NOT_ENTERED
    (LendingPool.set_account user a'
       (LendingPool.set_status LendingPool.ENTERED s1)).

Definition call_amount (c : pool_call) : uint256 :=
  match c with
  | PDepositCollateral amount | PWithdrawCollateral amount
  | PBorrow amount | PRepay amount => amount
  | PSetParams _ _ => 0
  end.

Definition is_account_call (c : pool_call) : bool :=
  match c with PSetParams _ _ => false | _ => true end.

(** ** The market, the invoices and the token together *)

(** The calls that change the invoice contract, the market or the token,
    and a run of them. A reverted call leaves all three as they were. *)
Inductive market_call : Type :=
| MList (invoiceId price : uint256)
| MUnlist (invoiceId : uint256)
| MBuy (invoiceId : uint256)
| NTransferFrom (from to : address) (tokenId : uint256)
| NApprove (to : address) (tokenId : uint256)
| NSetApprovalForAll (operator : address) (approved : bool)
| NMintInvoice (supplier issuer : address) (faceValue dueDate : uint256)
    (metadataURI : string)
| TToken (o : DepositToken.op).

Definition with_invoice (nft : InvoiceNFT.State) (w : FactoringMarket.World)
    : FactoringMarket.World :=
  {| FactoringMarket.market := FactoringMarket.market w;
     FactoringMarket.invoice := nft;
     FactoringMarket.token := FactoringMarket.token w |}.

Definition market_exec (kyc : KYCRegistry.State) (m : Msg) (c : market_call)
    (w : FactoringMarket.World) : outcome FactoringMarket.World :=
  match c with
  | MList invoiceId price => FactoringMarket.list_ kyc m invoiceId price w
  | MUnlist invoiceId => FactoringMarket.unlist m invoiceId w
  | MBuy invoiceId => FactoringMarket.buy kyc m invoiceId w
  | NTransferFrom from to tokenId =>
      let+ nft := InvoiceNFT.transferFrom m from to tokenId
                    (FactoringMarket.invoice w) in
      Returns (with_invoice nft w)
  | NApprove to tokenId =>
      let+ nft := InvoiceNFT.approve m to tokenId (FactoringMarket.invoice w) in
      Returns (with_invoice nft w)
  | NSetApprovalForAll operator approved =>
      let+ nft := InvoiceNFT.setApprovalForAll m operator approved
                    (FactoringMarket.invoice w) in
      Returns (with_invoice nft w)
  | NMintInvoice supplier issuer faceValue dueDate metadataURI =>
      let+ r := InvoiceNFT.mintInvoice m supplier issuer faceValue dueDate
                  metadataURI (FactoringMarket.invoice w) in
      Returns (with_invoice (snd r) w)
  | TToken o =>
      let+ t := lift (DepositToken.exec kyc m o (FactoringMarket.token w)) in
      Returns {| FactoringMarket.market := FactoringMarket.market w;
                 FactoringMarket.invoice := FactoringMarket.invoice w;
                 FactoringMarket.token := t |}
  end.

Definition market_step (w : FactoringMarket.World)
    (c : KYCRegistry.State * Msg * market_call) : FactoringMarket.World :=
  let '(kyc, m, call) := c in settle w (market_exec kyc m call w).

Definition market_run (w : FactoringMarket.World)
    (cs : list (KYCRegistry.State * Msg * market_call))
    : FactoringMarket.World :=
  fold_left market_step cs w.

(** A transaction is sent by an account other than the zero address, and
    the market contract sends none of its own. *)
Definition sent_from_outside (self : address)
    (c : KYCRegistry.State * Msg * market_call) : Prop :=
  msg_sender (snd (fst c)) <> 0 /\ msg_sender (snd (fst c)) <> self.

(** The escrow of the market: between transactions the guard is free; the
    invoice of every active listing is owned by the market and was listed
    by a non-zero seller; nobody but the market can move an invoice the
    market owns (it has no operator, and such an invoice carries no
    approval); and the ids from [nextId] on are not in use. *)
Record escrow_inv (w : FactoringMarket.World) : Prop := {
  esc_self : FactoringMarket.this (FactoringMarket.market w) <> 0;
  esc_guard :
    FactoringMarket._status (FactoringMarket.market w)
      = FactoringMarket.NOT_ENTERED;
  esc_held : forall id,
    FactoringMarket.active
      (FactoringMarket.listingOf (FactoringMarket.market w) id) = true ->
    InvoiceNFT._ownerOf (FactoringMarket.invoice w) id
      = FactoringMarket.this (FactoringMarket.market w);
  esc_seller : forall id,
    FactoringMarket.active
      (FactoringMarket.listingOf (FactoringMarket.market w) id) = true ->
    FactoringMarket.seller
      (FactoringMarket.listingOf (FactoringMarket.market w) id) <> 0;
  esc_operators : forall owner operator,
    owner = 0 \/ owner = FactoringMarket.this (FactoringMarket.market w) ->
    InvoiceNFT.isApprovedForAll (FactoringMarket.invoice w) owner operator
      = false;
  esc_approvals : forall id,
    InvoiceNFT._ownerOf (FactoringMarket.invoice w) id = 0
    \/ InvoiceNFT._ownerOf (FactoringMarket.invoice w) id
       = FactoringMarket.this (FactoringMarket.market w) ->
    InvoiceNFT._getApproved (FactoringMarket.invoice w) id = 0;
  esc_fresh : forall id,
    InvoiceNFT.nextId (FactoringMarket.invoice w) <= id ->
    InvoiceNFT._ownerOf (FactoringMarket.invoice w) id = 0
}.

(** What a returning [_update(to, tokenId, auth)] of the invoice contract
    does: the token goes to [to], the approval of a token that had an owner
    is cleared, and nothing else of the ownership data changes. *)
Record moved (to : address) (tokenId : uint256) (s s' : InvoiceNFT.State)
    : Prop := {
  mv_owner : InvoiceNFT._ownerOf s' tokenId = to;
  mv_owners : forall id, id <> tokenId ->
    InvoiceNFT._ownerOf s' id = InvoiceNFT._ownerOf s id;
  mv_cleared : InvoiceNFT._ownerOf s tokenId <> 0 ->
    InvoiceNFT._getApproved s' tokenId = 0;
  mv_approvals : forall id,
    id <> tokenId \/ InvoiceNFT._ownerOf s tokenId = 0 ->
    InvoiceNFT._getApproved s' id = InvoiceNFT._getApproved s id;
  mv_operators :
    InvoiceNFT._operatorApprovals s' = InvoiceNFT._operatorApprovals s;
  mv_nextId : InvoiceNFT.nextId s' = InvoiceNFT.nextId s;
  mv_invoices : InvoiceNFT.invoices s' = InvoiceNFT.invoices s;
  mv_roles : InvoiceNFT._roles s' = InvoiceNFT._roles s
}.

(** A listing that has been sold or withdrawn. *)
Definition closed (l : FactoringMarket.Listing) : FactoringMarket.Listing :=
  {| FactoringMarket.seller := FactoringMarket.seller l;
     FactoringMarket.price := FactoringMarket.price l;
     FactoringMarket.active := false |}.

(** ** The canonical form of a payload *)

(** Two values hold the same data: they are equal up to the order in which
    the objects inside them list their fields. The fields of an object
    have distinct names. *)
#[local] Unset Elimination Schemes.

Inductive same_data {number : Type}
    : Server.value number -> Server.value number -> Prop :=
| same_null : same_data Server.Null Server.Null
| same_bool (b : bool) : same_data (Server.Bool b) (Server.Bool b)
| same_number (n : number) : same_data (Server.Number n) (Server.Number n)
| same_string (s : list N) : same_data (Server.String s) (Server.String s)
| same_array (items1 items2 : list (Server.value number)) :
    Forall2 same_data items1 items2 ->
    same_data (Server.Array items1) (Server.Array items2)
| same_object (fields1 fields2 : list (list N * Server.value number)) :
    NoDup (map fst fields1) ->
    NoDup (map fst fields2) ->
    (forall k, In k (map fst fields1) <-> In k (map fst fields2)) ->
    (forall k v1 v2,
       Server.get k fields1 = Some v1 -> Server.get k fields2 = Some v2 ->
       same_data v1 v2) ->
    same_data (Server.Object fields1) (Server.Object fields2).

#[local] Set Elimination Schemes.

(** ** Example states *)

(** A registry with an officer (account 1) and a request of account 2 pending. *)
Definition registry_pending : KYCRegistry.State :=
  commit (KYCRegistry.constructor 1)
    (KYCRegistry.requestKYC
       {| msg_sender := 2; msg_value := 0; block_timestamp := 50 |} 7
       (KYCRegistry.constructor 1)).

Definition officer_call : Msg :=
  {| msg_sender := 1; msg_value := 0; block_timestamp := 100 |}.

(** A registry in which the officer itself has published a request. *)
Definition registry_officer_request : KYCRegistry.State :=
  commit (KYCRegistry.constructor 1)
    (KYCRegistry.requestKYC
       {| msg_sender := 1; msg_value := 0; block_timestamp := 50 |} 7
       (KYCRegistry.constructor 1)).

(** A registry in which account 2 is approved at level 3 until time 500 and
    has published a fresh request. *)
Definition registry_verified : KYCRegistry.State :=
  commit registry_pending
    (let* s := KYCRegistry.approveFromRequest officer_call 2 3 500 registry_pending in
     KYCRegistry.requestKYC
       {| msg_sender := 2; msg_value := 0; block_timestamp := 60 |} 9 s).

(** A registry in which the officer has approved accounts 2 and 3 without
    expiry. *)
Definition registry_customers : KYCRegistry.State :=
  commit registry_pending
    (let* s := KYCRegistry.approveFromRequest officer_call 2 1 0 registry_pending in
     let* s := KYCRegistry.requestKYC
                 {| msg_sender := 3; msg_value := 0; block_timestamp := 70 |} 8 s in
     KYCRegistry.approveFromRequest officer_call 3 1 0 s).

Definition call_from (who : address) : Msg :=
  {| msg_sender := who; msg_value := 0; block_timestamp := 100 |}.

(** The admin makes account 10 a minter; 100 units are minted to account 2,
    which passes 30 on to account 3; 10 units of account 3 are burnt; then
    two calls that involve the unverified account 4 are refused. *)
Definition token_history : list (KYCRegistry.State * Msg * DepositToken.op) :=
  [ (registry_customers, call_from 1, DepositToken.GrantRole MINTER_ROLE 10);
    (registry_customers, call_from 10, DepositToken.Mint 2 100);
    (registry_customers, call_from 2, DepositToken.Transfer 3 30);
    (registry_customers, call_from 10, DepositToken.Burn 3 10);
    (registry_customers, call_from 4, DepositToken.Transfer 2 5);
    (registry_customers, call_from 10, DepositToken.Mint 4 50) ].

Definition token_after_history : DepositToken.State :=
  DepositToken.run (DepositToken.constructor 1) token_history.

(** The deployment wires the vault (account 20) and the pool (account 30) as
    system addresses and makes the vault a minter; account 2 lets the pool
    and the vault spend its tokens. *)
Definition token_wired : DepositToken.State :=
  DepositToken.run token_after_history
    [ (registry_customers, call_from 1, DepositToken.SetSystemAddress 20 true);
      (registry_customers, call_from 1, DepositToken.SetSystemAddress 30 true);
      (registry_customers, call_from 1, DepositToken.GrantRole MINTER_ROLE 20);
      (registry_customers, call_from 2, DepositToken.Approve 30 1000);
      (registry_customers, call_from 2, DepositToken.Approve 20 1000) ].

Definition pool_deployed : LendingPool.State := LendingPool.constructor 30 1.

(** Account 2 pledges 50 units. *)
Definition pool_with_collateral : LendingPool.State * DepositToken.State :=
  commit (pool_deployed, token_wired)
    (LendingPool.depositCollateral registry_customers (call_from 2) 50
       token_wired pool_deployed).

(** Account 2 then borrows 20 units against them, at time 100. *)
Definition pool_with_debt : LendingPool.State * DepositToken.State :=
  commit pool_with_collateral
    (LendingPool.borrow registry_customers (call_from 2) 20
       (snd pool_with_collateral) (fst pool_with_collateral)).

(** It then takes 10 units of the collateral back, which the ceiling just
    allows. *)
Definition pool_after_withdrawal : LendingPool.State * DepositToken.State :=
  commit pool_with_debt
    (LendingPool.withdrawCollateral registry_customers (call_from 2) 10
       (snd pool_with_debt) (fst pool_with_debt)).

Definition call_at (who : address) (now : uint256) : Msg :=
  {| msg_sender := who; msg_value := 0; block_timestamp := now |}.

Definition one_year_later : uint256 := 100 + LendingPool.SECONDS_PER_YEAR.

(** The vault before any deposit; account 2 owns 1000 wei. *)
Definition vault_deployed : BankVault.World :=
  {| BankVault.vault := BankVault.constructor 20 1;
     BankVault.token := token_wired;
     BankVault.ether := {[ 2 := 1000 ]} |}.

Definition deposit_call : Msg :=
  {| msg_sender := 2; msg_value := 100; block_timestamp := 100 |}.

Definition vault_after_deposit : BankVault.World :=
  commit vault_deployed
    (BankVault.deposit registry_customers deposit_call vault_deployed).

(** Account 2 then passes 30 units on to account 3 through the vault. *)
Definition vault_after_transfer : BankVault.World :=
  commit vault_after_deposit
    (BankVault.transferBKD registry_customers (call_from 2) 3 30
       vault_after_deposit).

(** Recipients that accept every payment, and recipients that reject. *)
Definition accept_all (to : address) (amount : uint256) : bool := true.
Definition reject_all (to : address) (amount : uint256) : bool := false.

(** The market (account 40) and the invoice contract as deployed by
    account 1, next to the token of the examples above. *)
Definition market_deployed : FactoringMarket.World :=
  {| FactoringMarket.market := FactoringMarket.constructor 40 1;
     FactoringMarket.invoice := InvoiceNFT.constructor 1;
     FactoringMarket.token := token_wired |}.

(** The bank mints invoice 1 for the supplier, account 3, who lets the
    market move it. *)
Definition market_approved : FactoringMarket.World :=
  market_run market_deployed
    [ (registry_customers, call_from 1,
       NMintInvoice 3 5 100 1000 "ipfs://invoice-1");
      (registry_customers, call_from 3, NApprove 40 1) ].

(** The supplier lists the invoice for 60 units, and account 2 lets the
    market spend its tokens. *)
Definition market_listed : FactoringMarket.World :=
  market_run market_approved
    [ (registry_customers, call_from 3, MList 1 60);
      (registry_customers, call_from 2, TToken (DepositToken.Approve 40 1000)) ].

(** Account 2 then buys the invoice. *)
Definition market_sold : FactoringMarket.World :=
  market_run market_listed [ (registry_customers, call_from 2, MBuy 1) ].

(** A request payload as the client sends it and as the server rebuilds
    it, with the fields in another order; numbers are rendered as one
    digit and strings between quotation marks, which is all the examples
    need of [JSON.stringify]. *)
Definition digit (n : N) : list N := [(48 + n)%N].

Definition quoted (s : list N) : list N := 34%N :: s ++ [34%N].

Definition payload_sent : Server.value N :=
  Server.Object
    [ (Server.str "wallet", Server.String (Server.str "0xabc"));
      (Server.str "nonce", Server.Number 7%N);
      (Server.str "docs",
       Server.Array
         [ Server.Object [ (Server.str "ref", Server.String (Server.str "a"));
                           (Server.str "kind", Server.Null) ] ]) ].

Definition payload_rebuilt : Server.value N :=
  Server.Object
    [ (Server.str "docs",
       Server.Array
         [ Server.Object [ (Server.str "kind", Server.Null);
                           (Server.str "ref", Server.String (Server.str "a")) ] ]);
      (Server.str "wallet", Server.String (Server.str "0xabc"));
      (Server.str "nonce", Server.Number 7%N) ].

(** * Properties *)

(** ** Reasoning about calls that return *)

Lemma bind_Ok {A B : Type} (r : result A) (k : A -> result B) (b : B) :
  bind r k = Ok b -> exists a, r = Ok a /\ k a = Ok b.
Proof. destruct r as [a|e]; simpl; [eauto | discriminate]. Qed.

Lemma require_Ok (c : bool) (msg : string) (u : unit) :
  require c msg = Ok u -> c = true.
Proof. destruct c; [reflexivity | discriminate]. Qed.

Lemma revert_if_Ok (c : bool) (e : revert_reason) (u : unit) :
  revert_if c e = Ok u -> c = false.
Proof. destruct c; [discriminate | reflexivity]. Qed.

(** Splits a hypothesis [c1 ;;; c2 ;;; ... = Ok s] into the facts that each
    guard passed and each intermediate call returned. *)
Ltac inv_ok H :=
  let a := fresh "r" in
  let H1 := fresh "Hstep" in
  let H2 := fresh "Hrest" in
  cbv zeta in H;
  lazymatch type of H with
  | bind _ _ = Ok _ =>
      apply bind_Ok in H; destruct H as (a & H1 & H2);
      try (apply require_Ok in H1);
      try (apply revert_if_Ok in H1);
      inv_ok H2
  | Ok _ = Ok _ => injection H as H
  | _ => idtac
  end.

(** ** KYCRegistry *)

Section KYCRegistryFacts.
Import KYCRegistry.

Lemma onlyComplianceApproved_Ok (m : Msg) (s : State) :
  hasRole s COMPLIANCE_ROLE (msg_sender m) = true ->
  isKYCApproved (block_timestamp m) s (msg_sender m) = true ->
  onlyComplianceApproved m s = Ok tt.
Proof.
  intros Hrole Hkyc. unfold onlyComplianceApproved.
  rewrite Hrole, Hkyc. reflexivity.
Qed.

Lemma kycOf_insert_eq (s : State) (user : address) (k : KYCInfo) r p :
  kycOf {| _roles := r; _kyc := <[ user := k ]> (_kyc s);
           pendingKycHash := p |} user = k.
Proof. unfold kycOf; simpl. rewrite lookup_insert_eq. reflexivity. Qed.

Lemma isKYCApproved_not_approved (now : uint256) (s : State) (user : address) :
  approved (kycOf s user) = false -> isKYCApproved now s user = false.
Proof. intros H. unfold isKYCApproved. rewrite H. reflexivity. Qed.

End KYCRegistryFacts.

(** C7. [approveFromRequest] returns only if a non-zero commitment is pending
    for the account; the state it returns holds the record
    [(true, level, expiresAt)] for the account and no pending commitment.
    After that no second call for the same account returns, whoever makes it
    and whenever, so the registry stays as the first call left it. The
    access check runs before the pending check, so the error of the second
    call depends on its caller: "Not compliance" without the compliance
    role, "Admin must be KYC-approved" with the role but without a valid
    approval at that time, and the message for a missing pending request
    for an officer who passes the access check. An officer who holds the
    compliance role and is KYC-approved gets that same revert when nothing is
    pending, and a returning call when something is. *)
Theorem approveFromRequest_consumes_pending
    (m : Msg) (user : address) (lvl exp : Z) (s : KYCRegistry.State) :
  (forall s1,
     KYCRegistry.approveFromRequest m user lvl exp s = Ok s1 ->
     KYCRegistry.pendingOf s user <> 0 /\
     KYCRegistry.kycOf s1 user
       = {| KYCRegistry.approved := true; KYCRegistry.level := lvl;
            KYCRegistry.expiresAt := exp |} /\
     KYCRegistry.pendingOf s1 user = 0 /\
     forall (m' : Msg) (lvl' exp' : Z),
       (forall s2, KYCRegistry.approveFromRequest m' user lvl' exp' s1 <> Ok s2) /\
       commit s1 (KYCRegistry.approveFromRequest m' user lvl' exp' s1) = s1 /\
       (KYCRegistry.hasRole s1 COMPLIANCE_ROLE (msg_sender m') = true ->
        KYCRegistry.isKYCApproved (block_timestamp m') s1 (msg_sender m') = true ->
        KYCRegistry.approveFromRequest m' user lvl' exp' s1
          = Revert (Error "No on-chain pending request")) /\
       (KYCRegistry.hasRole s1 COMPLIANCE_ROLE (msg_sender m') = false ->
        KYCRegistry.approveFromRequest m' user lvl' exp' s1
          = Revert (Error "Not compliance")) /\
       (KYCRegistry.hasRole s1 COMPLIANCE_ROLE (msg_sender m') = true ->
        KYCRegistry.isKYCApproved (block_timestamp m') s1 (msg_sender m') = false ->
        KYCRegistry.approveFromRequest m' user lvl' exp' s1
          = Revert (Error "Admin must be KYC-approved"))) /\
  (KYCRegistry.hasRole s COMPLIANCE_ROLE (msg_sender m) = true ->
   KYCRegistry.isKYCApproved (block_timestamp m) s (msg_sender m) = true ->
   (KYCRegistry.pendingOf s user = 0 ->
    KYCRegistry.approveFromRequest m user lvl exp s
      = Revert (Error "No on-chain pending request")) /\
   (KYCRegistry.pendingOf s user <> 0 ->
    exists s1, KYCRegistry.approveFromRequest m user lvl exp s = Ok s1)).
Proof.
  split.
  - intros s1 H. unfold KYCRegistry.approveFromRequest in H.
    inv_ok H. apply negb_true_iff, Z.eqb_neq in Hstep0.
    split; [exact Hstep0|]. subst s1.
    split; [apply kycOf_insert_eq|].
    match goal with |- KYCRegistry.pendingOf ?x user = 0 /\ _ => set (s1 := x) end.
    assert (Hcleared : KYCRegistry.pendingOf s1 user = 0).
    { unfold KYCRegistry.pendingOf; simpl. rewrite lookup_insert_eq. reflexivity. }
    split; [exact Hcleared|].
    intros m' lvl' exp'.
    assert (Hfail : forall s2,
      KYCRegistry.approveFromRequest m' user lvl' exp' s1 <> Ok s2).
    { intros s2 H. unfold KYCRegistry.approveFromRequest in H.
      inv_ok H. rewrite Hcleared in Hstep2. discriminate. }
    split; [exact Hfail|]. split; [|split; [|split]].
    + destruct (KYCRegistry.approveFromRequest m' user lvl' exp' s1) as [s2|e] eqn:E;
        [exfalso; exact (Hfail s2 eq_refl) | reflexivity].
    + intros Hrole' Hkyc'. unfold KYCRegistry.approveFromRequest.
      rewrite (onlyComplianceApproved_Ok _ _ Hrole' Hkyc'), Hcleared. reflexivity.
    + intros Hrole'. unfold KYCRegistry.approveFromRequest,
        KYCRegistry.onlyComplianceApproved.
      rewrite Hrole'. reflexivity.
    + intros Hrole' Hkyc'. unfold KYCRegistry.approveFromRequest,
        KYCRegistry.onlyComplianceApproved.
      rewrite Hrole', Hkyc'. reflexivity.
  - intros Hrole Hkyc.
    pose proof (onlyComplianceApproved_Ok m s Hrole Hkyc) as Hmod.
    unfold KYCRegistry.approveFromRequest. rewrite Hmod. split.
    + intros Hp. rewrite Hp. reflexivity.
    + intros Hp. simpl.
      destruct (Z.eqb_spec (KYCRegistry.pendingOf s user) 0) as [E|_];
        [contradiction|].
      simpl. eauto.
Qed.

Lemma approveFromRequest_consumes_pending_witness :
  exists s1,
    KYCRegistry.approveFromRequest officer_call 2 1 0 registry_pending = Ok s1 /\
    KYCRegistry.isKYCApproved 1000000 s1 2 = true /\
    KYCRegistry.approveFromRequest officer_call 2 1 0 s1
      = Revert (Error "No on-chain pending request").
Proof.
  destruct (approveFromRequest_consumes_pending officer_call 2 1 0 registry_pending)
    as [Hfirst Hreturns].
  destruct Hreturns as [_ Hreturns]; [reflexivity | reflexivity |].
  destruct Hreturns as [s1 Hok]; [vm_compute; discriminate|].
  destruct (Hfirst s1 Hok) as (_ & Hrec & _ & Hsecond).
  exists s1. split; [exact Hok|]. split.
  - unfold KYCRegistry.isKYCApproved. rewrite Hrec. reflexivity.
  - destruct (Hsecond officer_call 1 0) as (_ & _ & Hagain & _).
    apply Hagain.
    + injection Hok as <-. reflexivity.
    + injection Hok as <-. reflexivity.
Defined.

(** The claim with the error of the second call fixed to the message for a
    missing pending request fails: the officer, account 1, publishes a
    request of its own and approves it at time 100 with the expiry 50. The
    approval returns and consumes the request; the same call made again is
    stopped by the access check, the officer's own record having expired,
    and reverts with the message of that check. *)
Lemma second_approval_stops_at_access_check :
  exists s1,
    KYCRegistry.pendingOf registry_officer_request 1 <> 0 /\
    KYCRegistry.approveFromRequest officer_call 1 1 50 registry_officer_request
      = Ok s1 /\
    KYCRegistry.pendingOf s1 1 = 0 /\
    KYCRegistry.hasRole s1 COMPLIANCE_ROLE 1 = true /\
    KYCRegistry.approveFromRequest officer_call 1 1 50 s1
      = Revert (Error "Admin must be KYC-approved") /\
    KYCRegistry.approveFromRequest officer_call 1 1 50 s1
      <> Revert (Error "No on-chain pending request").
Proof.
  eexists. split; [vm_compute; discriminate|].
  split; [vm_compute; reflexivity|].
  split; [vm_compute; reflexivity|].
  split; [vm_compute; reflexivity|].
  split; [vm_compute; reflexivity | vm_compute; discriminate].
Qed.

(** C8. A [revokeKYC] made by an officer who holds the compliance role and is
    KYC-approved returns; afterwards the account's [approved] flag is false
    and [isKYCApproved] is false for it at every time, while the stored level
    and expiry of the account, every pending commitment, the records of all
    other accounts and the roles are what they were. *)
Theorem revokeKYC_clears_approved_only
    (m : Msg) (user : address) (s : KYCRegistry.State) :
  KYCRegistry.hasRole s COMPLIANCE_ROLE (msg_sender m) = true ->
  KYCRegistry.isKYCApproved (block_timestamp m) s (msg_sender m) = true ->
  exists s1,
    KYCRegistry.revokeKYC m user s = Ok s1 /\
    KYCRegistry.approved (KYCRegistry.kycOf s1 user) = false /\
    (forall now, KYCRegistry.isKYCApproved now s1 user = false) /\
    KYCRegistry.level (KYCRegistry.kycOf s1 user)
      = KYCRegistry.level (KYCRegistry.kycOf s user) /\
    KYCRegistry.expiresAt (KYCRegistry.kycOf s1 user)
      = KYCRegistry.expiresAt (KYCRegistry.kycOf s user) /\
    KYCRegistry.pendingKycHash s1 = KYCRegistry.pendingKycHash s /\
    (forall other, other <> user ->
       KYCRegistry._kyc s1 !! other = KYCRegistry._kyc s !! other) /\
    KYCRegistry._roles s1 = KYCRegistry._roles s.
Proof.
  intros Hrole Hkyc. unfold KYCRegistry.revokeKYC.
  rewrite (onlyComplianceApproved_Ok m s Hrole Hkyc). simpl.
  eexists. split; [reflexivity|].
  rewrite !kycOf_insert_eq. simpl.
  repeat split.
  - intros now. apply isKYCApproved_not_approved.
    rewrite kycOf_insert_eq. reflexivity.
  - intros other Hne. simpl. apply lookup_insert_ne. congruence.
Qed.

Lemma revokeKYC_clears_approved_only_witness :
  KYCRegistry.isKYCApproved 100 registry_verified 2 = true /\
  exists s1,
    KYCRegistry.revokeKYC officer_call 2 registry_verified = Ok s1 /\
    KYCRegistry.isKYCApproved 100 s1 2 = false /\
    KYCRegistry.level (KYCRegistry.kycOf s1 2) = 3 /\
    KYCRegistry.expiresAt (KYCRegistry.kycOf s1 2) = 500 /\
    KYCRegistry.pendingOf s1 2 = 9.
Proof.
  split; [reflexivity|].
  destruct (revokeKYC_clears_approved_only officer_call 2 registry_verified)
    as (s1 & Hok & _ & Hnot & Hlvl & Hexp & Hpend & _); [reflexivity | reflexivity |].
  exists s1. split; [exact Hok|]. split; [apply Hnot|].
  split; [rewrite Hlvl; reflexivity|].
  split; [rewrite Hexp; reflexivity|].
  unfold KYCRegistry.pendingOf. rewrite Hpend. reflexivity.
Defined.

(** ** DepositToken: sums over the balance map *)

Section BalanceSums.

Lemma msum_empty : msum ∅ = 0.
Proof. apply map_fold_empty. Qed.

Lemma msum_insert_fresh (m : gmap address Z) (k : address) (v : Z) :
  m !! k = None -> msum (<[ k := v ]> m) = v + msum m.
Proof.
  intros Hk. unfold msum. apply map_fold_insert_L; [|exact Hk].
  intros; lia.
Qed.

Lemma msum_delete (m : gmap address Z) (k : address) (v : Z) :
  m !! k = Some v -> msum m = v + msum (delete k m).
Proof.
  intros Hk. unfold msum.
  apply (map_fold_delete_L (fun (_ : address) (v acc : Z) => v + acc));
    [|exact Hk].
  intros; lia.
Qed.

Lemma msum_insert (m : gmap address Z) (k : address) (v : Z) :
  msum (<[ k := v ]> m) = msum m - default 0 (m !! k) + v.
Proof.
  destruct (m !! k) as [old|] eqn:Hk; simpl.
  - rewrite <- insert_delete_eq.
    rewrite msum_insert_fresh by apply lookup_delete_eq.
    rewrite (msum_delete m k old Hk). lia.
  - rewrite msum_insert_fresh by exact Hk. lia.
Qed.

Lemma all_nonneg_delete (m : gmap address Z) (k : address) :
  all_nonneg m -> all_nonneg (delete k m).
Proof.
  intros Hm j v Hj. apply lookup_delete_Some in Hj as [_ Hj]. eauto.
Qed.

Lemma all_nonneg_insert (m : gmap address Z) (k : address) (v : Z) :
  0 <= v -> all_nonneg m -> all_nonneg (<[ k := v ]> m).
Proof.
  intros Hv Hm j w Hj. apply lookup_insert_Some in Hj as [[_ <-]|[_ Hj]]; eauto.
Qed.

Lemma msum_nonneg (m : gmap address Z) : all_nonneg m -> 0 <= msum m.
Proof.
  induction m as [|k v m Hk IH] using map_ind; intros Hm.
  - rewrite msum_empty. lia.
  - rewrite msum_insert_fresh by exact Hk.
    assert (0 <= v) by (apply (Hm k); apply lookup_insert_eq).
    assert (0 <= msum m); [|lia].
    apply IH. intros j w Hj. apply (Hm j).
    rewrite lookup_insert_ne; [exact Hj | congruence].
Qed.

Lemma default_nonneg (m : gmap address Z) (k : address) :
  all_nonneg m -> 0 <= default 0 (m !! k).
Proof.
  intros Hm. destruct (m !! k) as [v|] eqn:Hk; simpl; [eauto | lia].
Qed.

(** One balance is at most the sum; two different ones together are. *)
Lemma msum_ge (m : gmap address Z) (k : address) :
  all_nonneg m -> default 0 (m !! k) <= msum m.
Proof.
  intros Hm. destruct (m !! k) as [v|] eqn:Hk; simpl.
  - rewrite (msum_delete m k v Hk).
    pose proof (msum_nonneg _ (all_nonneg_delete m k Hm)). lia.
  - apply msum_nonneg, Hm.
Qed.

Lemma msum_ge2 (m : gmap address Z) (k1 k2 : address) :
  all_nonneg m -> k1 <> k2 ->
  default 0 (m !! k1) + default 0 (m !! k2) <= msum m.
Proof.
  intros Hm Hne. destruct (m !! k1) as [v|] eqn:Hk; simpl.
  - rewrite (msum_delete m k1 v Hk).
    pose proof (msum_ge (delete k1 m) k2 (all_nonneg_delete m k1 Hm)) as H.
    rewrite lookup_delete_ne in H by exact Hne. lia.
  - pose proof (msum_ge m k2 Hm). lia.
Qed.

End BalanceSums.

Lemma wrap_small (a : Z) : 0 <= a <= MAX_UINT256 -> wrap a = a.
Proof.
  unfold wrap, MAX_UINT256. intros H. apply Z.mod_small. lia.
Qed.

Lemma checked_add_Ok (a b c : uint256) :
  checked_add a b = Ok c -> c = a + b /\ a + b <= MAX_UINT256.
Proof.
  unfold checked_add. intros Heq. destruct (Z.leb_spec (a + b) MAX_UINT256) as [Hle|Hgt];
    [injection Heq as <-; auto | discriminate].
Qed.

Lemma checked_sub_Ok (a b c : uint256) :
  checked_sub a b = Ok c -> c = a - b /\ b <= a.
Proof.
  unfold checked_sub. intros Heq. destruct (Z.leb_spec b a) as [Hle|Hgt];
    [injection Heq as <-; auto | discriminate].
Qed.

Lemma checked_mul_Ok (a b c : uint256) :
  checked_mul a b = Ok c -> c = a * b /\ a * b <= MAX_UINT256.
Proof.
  unfold checked_mul. intros Heq. destruct (Z.leb_spec (a * b) MAX_UINT256) as [Hle|Hgt];
    [injection Heq as <-; auto | discriminate].
Qed.

Lemma checked_div_Ok (a b c : uint256) :
  checked_div a b = Ok c -> c = Z.quot a b /\ b <> 0.
Proof.
  unfold checked_div. intros Heq. destruct (Z.eqb_spec b 0) as [Hz|Hnz];
    [discriminate | injection Heq as <-; auto].
Qed.

(** ** DepositToken: the conservation invariant *)

Section TokenInvariant.
Import DepositToken.

Lemma token_inv_same_ledger (s s' : State) :
  _balances s' = _balances s -> _totalSupply s' = _totalSupply s ->
  token_inv s -> token_inv s'.
Proof.
  intros Hb Ht [H1 H2 H3]. split; unfold sumBalances in *; rewrite ?Hb, ?Ht; auto.
Qed.

Lemma token_inv_constructor (admin : address) : token_inv (constructor admin).
Proof.
  split; simpl.
  - intros k v Hk. rewrite lookup_empty in Hk. discriminate.
  - apply msum_empty.
  - unfold MAX_UINT256. lia.
Qed.

Lemma token_inv_balance_le (s : State) (a : address) :
  token_inv s -> 0 <= balanceOf s a <= _totalSupply s.
Proof.
  intros [H1 H2 H3]. unfold balanceOf. split.
  - apply default_nonneg, H1.
  - rewrite <- H2. apply msum_ge, H1.
Qed.

Lemma ERC20_update_inv (from to : address) (value : uint256) (s s' : State) :
  0 <= value ->
  token_inv s -> ERC20_update from to value s = Ok s' -> token_inv s'.
Proof.
  intros Hv Hinv H. pose proof Hinv as [Hnn Hsum Hsup].
  unfold ERC20_update in H.
  destruct (Z.eqb_spec from 0) as [Hf|Hf].
  - (* mint *)
    apply bind_Ok in H as (s1 & H1 & H).
    apply bind_Ok in H1 as (ts & Hts & H1). injection H1 as <-.
    apply checked_add_Ok in Hts as [-> Hle].
    destruct (Z.eqb_spec to 0) as [Ht|Ht]; injection H as <-; simpl.
    + replace (_totalSupply s + value - value) with (_totalSupply s) by lia.
      pose proof (msum_nonneg _ Hnn). unfold sumBalances in Hsum.
      rewrite wrap_small by lia.
      split; simpl; auto.
    + pose proof (token_inv_balance_le s to Hinv) as Hto.
      unfold balanceOf in *; simpl.
      rewrite wrap_small by lia.
      split; simpl.
      * apply all_nonneg_insert; [lia | exact Hnn].
      * unfold sumBalances in *; simpl.
        rewrite msum_insert. lia.
      * exact Hle.
  - destruct (Z.ltb_spec (balanceOf s from) value) as [Hlt|Hge];
      [discriminate|]. simpl in H.
    pose proof (token_inv_balance_le s from Hinv) as Hfrom.
    destruct (Z.eqb_spec to 0) as [Ht|Ht]; injection H as <-; simpl.
    + (* burn *)
      rewrite wrap_small by lia.
      split; simpl.
      * apply all_nonneg_insert; [lia | exact Hnn].
      * unfold sumBalances in *; simpl.
        rewrite msum_insert. unfold balanceOf in *. lia.
      * lia.
    + (* transfer *)
      unfold balanceOf in *; simpl.
      assert (Hsmall :
        0 <= default 0 (<[ from := default 0 (_balances s !! from) - value ]>
                          (_balances s) !! to) + value <= MAX_UINT256).
      { destruct (Z.eq_dec from to) as [->|Hne].
        - rewrite lookup_insert_eq; simpl. lia.
        - rewrite lookup_insert_ne by exact Hne.
          pose proof (msum_ge2 _ from to Hnn Hne) as H2.
          pose proof (default_nonneg _ to Hnn).
          unfold sumBalances in Hsum. lia. }
      rewrite wrap_small by exact Hsmall.
      split; simpl.
      * apply all_nonneg_insert; [lia|].
        apply all_nonneg_insert; [lia | exact Hnn].
      * unfold sumBalances in *; simpl.
        rewrite !msum_insert. lia.
      * exact Hsup.
Qed.

Lemma _update_inv kyc now (from to : address) (value : uint256) (s s' : State) :
  0 <= value ->
  token_inv s -> _update kyc now from to value s = Ok s' -> token_inv s'.
Proof.
  intros Hv Hinv H. unfold _update in H.
  destruct (from =? 0); [|destruct (to =? 0)]; inv_ok H;
    eapply ERC20_update_inv; eauto.
Qed.

Lemma _spendAllowance_ledger (owner spender : address) (value : uint256)
    (s s' : State) :
  _spendAllowance owner spender value s = Ok s' ->
  _balances s' = _balances s /\ _totalSupply s' = _totalSupply s /\
  isSystemAddress s' = isSystemAddress s /\ _roles s' = _roles s.
Proof.
  unfold _spendAllowance, _approve. intros H.
  destruct (allowance s owner spender <? MAX_UINT256).
  - destruct (allowance s owner spender <? value); [discriminate|].
    inv_ok H. subst s'. simpl. auto.
  - injection H as <-. auto.
Qed.

Lemma exec_inv kyc (m : Msg) (o : op) (s s' : State) :
  op_wf o -> token_inv s -> exec kyc m o s = Ok s' -> token_inv s'.
Proof.
  intros Hwf Hinv H. destruct o; simpl in *.
  - unfold mint, _mint in H. inv_ok H. eapply _update_inv; eauto; lia.
  - unfold burn, _burn in H. inv_ok H. eapply _update_inv; eauto; lia.
  - unfold transfer, _transfer in H. inv_ok H. eapply _update_inv; eauto; lia.
  - unfold transferFrom, _transfer in H. inv_ok H.
    apply _spendAllowance_ledger in Hstep as (Hb & Ht & _).
    eapply _update_inv; [| |eassumption]; [lia|].
    apply (token_inv_same_ledger s); assumption.
  - unfold approve, _approve in H. inv_ok H. subst s'.
    apply (token_inv_same_ledger s); [reflexivity | reflexivity | exact Hinv].
  - unfold setSystemAddress in H. inv_ok H. subst s'.
    apply (token_inv_same_ledger s); [reflexivity | reflexivity | exact Hinv].
  - unfold grantRole in H. inv_ok H. subst s'.
    apply (token_inv_same_ledger s); [reflexivity | reflexivity | exact Hinv].
  - unfold revokeRole in H. inv_ok H. subst s'.
    apply (token_inv_same_ledger s); [reflexivity | reflexivity | exact Hinv].
Qed.

Lemma step_inv (s : State) (c : KYCRegistry.State * Msg * op) :
  op_wf (snd c) -> token_inv s -> token_inv (step s c).
Proof.
  destruct c as [[kyc m] o]; simpl. intros Hwf Hinv.
  destruct (exec kyc m o s) as [s'|e] eqn:E; simpl; [|exact Hinv].
  eapply exec_inv; eauto.
Qed.

Lemma run_inv (cs : list (KYCRegistry.State * Msg * op)) (s : State) :
  Forall (fun c => op_wf (snd c)) cs -> token_inv s -> token_inv (run s cs).
Proof.
  revert s. induction cs as [|c cs IH]; intros s Hwf Hinv; simpl; [exact Hinv|].
  inversion Hwf; subst. apply IH; [assumption|]. apply step_inv; assumption.
Qed.

End TokenInvariant.

(** C2. Start from the token as its constructor leaves it and make any
    finite sequence of calls (mints, burns, transfers, and the approvals,
    system-address and role updates that enable them), each in its own
    registry state and transaction context and with [uint256] amounts. After
    every call of the sequence, whether it returned or reverted, the stored
    balances add up to the total supply and no account has a negative
    balance. *)
Theorem ledger_conservation
    (admin : address) (cs : list (KYCRegistry.State * Msg * DepositToken.op))
    (n : nat) :
  Forall (fun c => op_wf (snd c)) cs ->
  let s := DepositToken.run (DepositToken.constructor admin) (take n cs) in
  DepositToken.sumBalances s = DepositToken.totalSupply s /\
  forall a, 0 <= DepositToken.balanceOf s a.
Proof.
  intros Hwf s.
  assert (Hinv : token_inv s).
  { apply run_inv; [|apply token_inv_constructor].
    apply Forall_take, Hwf. }
  split; [apply Hinv|].
  intros a. apply (token_inv_balance_le s a Hinv).
Qed.

Lemma ledger_conservation_witness :
  DepositToken.balanceOf token_after_history 2 = 70 /\
  DepositToken.balanceOf token_after_history 3 = 20 /\
  DepositToken.balanceOf token_after_history 4 = 0 /\
  DepositToken.totalSupply token_after_history = 90 /\
  DepositToken.sumBalances token_after_history
    = DepositToken.totalSupply token_after_history.
Proof.
  repeat (split; [reflexivity|]).
  refine (proj1 (ledger_conservation 1 token_history 6 _)).
  unfold token_history.
  repeat (apply Forall_cons; split); try apply Forall_nil;
    simpl; unfold MAX_UINT256; lia.
Defined.

(** ** DepositToken: the compliance gate *)

Section ComplianceGate.
Import DepositToken.

Lemma blocked_true kyc now (s : State) (a : address) :
  isSystem s a = false -> KYCRegistry.isKYCApproved now kyc a = false ->
  blocked kyc now s a = true.
Proof. intros H1 H2. unfold blocked. rewrite H1, H2. reflexivity. Qed.

Lemma onlyRole_Ok (r : role) (m : Msg) (s : State) :
  hasRole s r (msg_sender m) = true -> onlyRole r m s = Ok tt.
Proof. intros H. unfold onlyRole. rewrite H. reflexivity. Qed.

Lemma _update_mint_blocked kyc now (to : address) (value : uint256) (s : State) :
  blocked kyc now s to = true ->
  _update kyc now 0 to value s = Revert (NotKYCApproved to).
Proof. intros Hb. unfold _update. simpl. rewrite Hb. reflexivity. Qed.

Lemma _update_burn_blocked kyc now (from : address) (value : uint256) (s : State) :
  from <> 0 -> blocked kyc now s from = true ->
  _update kyc now from 0 value s = Revert (NotKYCApproved from).
Proof.
  intros Hf Hb. unfold _update.
  destruct (Z.eqb_spec from 0) as [|_]; [contradiction|].
  simpl. rewrite Hb. reflexivity.
Qed.

Lemma _update_transfer_from_blocked kyc now (from to : address)
    (value : uint256) (s : State) :
  from <> 0 -> to <> 0 -> blocked kyc now s from = true ->
  _update kyc now from to value s = Revert (NotKYCApproved from).
Proof.
  intros Hf Ht Hb. unfold _update.
  destruct (Z.eqb_spec from 0) as [|_]; [contradiction|].
  destruct (Z.eqb_spec to 0) as [|_]; [contradiction|].
  rewrite Hb. reflexivity.
Qed.

Lemma _update_transfer_to_blocked kyc now (from to : address)
    (value : uint256) (s : State) :
  from <> 0 -> to <> 0 -> blocked kyc now s to = true ->
  _update kyc now from to value s
    = Revert (NotKYCApproved (if blocked kyc now s from then from else to)).
Proof.
  intros Hf Ht Hb. unfold _update.
  destruct (Z.eqb_spec from 0) as [|_]; [contradiction|].
  destruct (Z.eqb_spec to 0) as [|_]; [contradiction|].
  destruct (blocked kyc now s from); simpl; [reflexivity|].
  rewrite Hb. reflexivity.
Qed.

(** Whatever the zero-address and role checks in front of it decide, a
    transfer between parties of which one is blocked does not return. *)
Lemma _transfer_blocked kyc now (from to : address) (value : uint256)
    (s : State) :
  blocked kyc now s from = true \/ blocked kyc now s to = true ->
  exists e, _transfer kyc now from to value s = Revert e.
Proof.
  intros Hb. unfold _transfer.
  destruct (Z.eqb_spec from 0) as [|Hf]; [simpl; eauto|].
  destruct (Z.eqb_spec to 0) as [|Ht]; [simpl; eauto|]. simpl.
  destruct (blocked kyc now s from) eqn:E.
  - rewrite _update_transfer_from_blocked by assumption. eauto.
  - destruct Hb as [Hb|Hb]; [discriminate|].
    rewrite _update_transfer_to_blocked by assumption. eauto.
Qed.

Lemma blocked_same_flags kyc now (s s' : State) (a : address) :
  isSystemAddress s' = isSystemAddress s ->
  blocked kyc now s' a = blocked kyc now s a.
Proof. intros H. unfold blocked, isSystem. rewrite H. reflexivity. Qed.

Lemma exec_touching_blocked kyc (m : Msg) (o : op) (s : State) (a : address) :
  blocked kyc (block_timestamp m) s a = true ->
  touches m o a ->
  exists e, exec kyc m o s = Revert e.
Proof.
  intros Hb Ht. destruct o; simpl in Ht; try contradiction; simpl.
  - subst to. unfold mint, _mint.
    destruct (onlyRole MINTER_ROLE m s); [|simpl; eauto].
    destruct (a =? 0); simpl; [eauto|].
    rewrite _update_mint_blocked by exact Hb. eauto.
  - subst from. unfold burn, _burn.
    destruct (onlyRole MINTER_ROLE m s); [|simpl; eauto].
    destruct (Z.eqb_spec a 0) as [|Ha]; simpl; [eauto|].
    rewrite _update_burn_blocked by assumption. eauto.
  - unfold transfer. apply _transfer_blocked.
    destruct Ht as [<-|<-]; auto.
  - unfold transferFrom.
    destruct (_spendAllowance from (msg_sender m) amount s) as [s1|e] eqn:E;
      [|simpl; eauto]. simpl.
    apply _spendAllowance_ledger in E as (_ & _ & Hsys & _).
    apply _transfer_blocked.
    rewrite !(blocked_same_flags _ _ s s1) by exact Hsys.
    destruct Ht as [<-|<-]; auto.
Qed.

End ComplianceGate.

(** C4. Let [a] be an account that is neither a system address nor
    KYC-approved. Every mint, burn, transfer or delegated transfer that would
    credit or debit [a] reverts and leaves the token unchanged. The error is
    [NotKYCApproved(a)] for a mint to [a] or a burn from [a] made by a minter
    ([a] not the zero address), and for a transfer that [a] sends to a
    non-zero recipient. For a transfer to [a] the debited party is checked
    first: the error names the sender if the sender is itself neither a
    system address nor approved, and names [a] otherwise. *)
Theorem compliance_gate
    (kyc : KYCRegistry.State) (m : Msg) (s : DepositToken.State) (a : address) :
  DepositToken.isSystem s a = false ->
  KYCRegistry.isKYCApproved (block_timestamp m) kyc a = false ->
  (forall o, touches m o a ->
     (exists e, DepositToken.exec kyc m o s = Revert e) /\
     commit s (DepositToken.exec kyc m o s) = s) /\
  (forall amount,
     a <> 0 -> DepositToken.hasRole s MINTER_ROLE (msg_sender m) = true ->
     DepositToken.mint kyc m a amount s = Revert (NotKYCApproved a) /\
     DepositToken.burn kyc m a amount s = Revert (NotKYCApproved a)) /\
  (forall to amount,
     a <> 0 -> msg_sender m = a -> to <> 0 ->
     DepositToken.transfer kyc m to amount s = Revert (NotKYCApproved a)) /\
  (forall amount,
     a <> 0 -> msg_sender m <> 0 ->
     DepositToken.transfer kyc m a amount s
       = Revert (NotKYCApproved
                   (if DepositToken.blocked kyc (block_timestamp m) s (msg_sender m)
                    then msg_sender m else a))).
Proof.
  intros Hsys Hkyc.
  pose proof (blocked_true kyc _ s a Hsys Hkyc) as Hb.
  split; [|split; [|split]].
  - intros o Ht.
    destruct (exec_touching_blocked kyc m o s a Hb Ht) as [e He].
    split; [eauto|]. rewrite He. reflexivity.
  - intros amount Ha Hrole.
    unfold DepositToken.mint, DepositToken.burn, DepositToken._mint,
      DepositToken._burn.
    rewrite (onlyRole_Ok _ _ _ Hrole). simpl.
    destruct (Z.eqb_spec a 0) as [|_]; [contradiction|]. simpl.
    rewrite _update_mint_blocked by exact Hb.
    rewrite _update_burn_blocked by assumption. auto.
  - intros to amount Ha Hsender Hto.
    unfold DepositToken.transfer, DepositToken._transfer. rewrite Hsender.
    destruct (Z.eqb_spec a 0) as [|_]; [contradiction|].
    destruct (Z.eqb_spec to 0) as [|_]; [contradiction|]. simpl.
    apply _update_transfer_from_blocked; assumption.
  - intros amount Ha Hsender.
    unfold DepositToken.transfer, DepositToken._transfer.
    destruct (Z.eqb_spec (msg_sender m) 0) as [|_]; [contradiction|].
    destruct (Z.eqb_spec a 0) as [|_]; [contradiction|]. simpl.
    apply _update_transfer_to_blocked; assumption.
Qed.

Lemma compliance_gate_witness :
  DepositToken.mint registry_customers (call_from 10) 4 50 token_after_history
    = Revert (NotKYCApproved 4) /\
  DepositToken.burn registry_customers (call_from 10) 4 50 token_after_history
    = Revert (NotKYCApproved 4) /\
  DepositToken.transfer registry_customers (call_from 4) 2 5 token_after_history
    = Revert (NotKYCApproved 4) /\
  DepositToken.transfer registry_customers (call_from 2) 4 5 token_after_history
    = Revert (NotKYCApproved 4).
Proof.
  destruct (compliance_gate registry_customers (call_from 10) token_after_history 4)
    as (_ & Hmint & _); [reflexivity | reflexivity |].
  destruct (compliance_gate registry_customers (call_from 4) token_after_history 4)
    as (_ & _ & Hout & _); [reflexivity | reflexivity |].
  destruct (compliance_gate registry_customers (call_from 2) token_after_history 4)
    as (_ & _ & _ & Hin); [reflexivity | reflexivity |].
  split; [apply (Hmint 50); [lia | reflexivity]|].
  split; [apply (Hmint 50); [lia | reflexivity]|].
  split; [apply (Hout 2 5); [lia | reflexivity | lia]|].
  apply (Hin 5); simpl; lia.
Defined.

(** The claim with the error fixed to [NotKYCApproved(a)] fails: when
    account 3, itself unverified, transfers to the unverified account 2, the
    transfer credits account 2 and the error names account 3. *)
Lemma compliance_gate_names_debited_party_first :
  let kyc := KYCRegistry.constructor 1 in
  let s := DepositToken.constructor 1 in
  let m := call_from 3 in
  DepositToken.isSystem s 2 = false /\
  KYCRegistry.isKYCApproved (block_timestamp m) kyc 2 = false /\
  touches m (DepositToken.Transfer 2 5) 2 /\
  DepositToken.exec kyc m (DepositToken.Transfer 2 5) s
    = Revert (NotKYCApproved 3) /\
  DepositToken.exec kyc m (DepositToken.Transfer 2 5) s
    <> Revert (NotKYCApproved 2).
Proof.
  simpl. repeat split; [right; reflexivity | discriminate].
Qed.

(** ** LendingPool: accrual *)

Section Accrual.
Import LendingPool.

Lemma accountOf_set_account_eq (user : address) (a : Account) (s : State) :
  accountOf (set_account user a s) user = a.
Proof. unfold accountOf; simpl. rewrite lookup_insert_eq. reflexivity. Qed.

Lemma accountOf_set_account_ne (user other : address) (a : Account) (s : State) :
  other <> user -> accountOf (set_account user a s) other = accountOf s other.
Proof.
  intros Hne. unfold accountOf; simpl.
  rewrite lookup_insert_ne by congruence. reflexivity.
Qed.

Lemma year_denominator : 10000 * SECONDS_PER_YEAR = 315360000000.
Proof. reflexivity. Qed.

Lemma interest_div (d rate dt : Z) :
  0 <= d * rate * dt -> interest d rate dt = d * rate * dt / 315360000000.
Proof.
  intros H. unfold interest. rewrite year_denominator.
  apply Z.quot_div_nonneg; lia.
Qed.

Lemma interest_nonneg (d rate dt : Z) :
  0 <= d -> 0 <= rate -> 0 <= dt -> 0 <= interest d rate dt.
Proof.
  intros Hd Hr Ht. rewrite interest_div by nia.
  apply Z.div_pos; nia.
Qed.

Lemma interest_zero_debt (rate dt : Z) : interest 0 rate dt = 0.
Proof. reflexivity. Qed.

(** The truncated interest is positive exactly when the product reaches
    the denominator. *)
Lemma interest_pos_iff (d rate dt : Z) :
  0 <= d * rate * dt ->
  (0 < interest d rate dt <-> 10000 * SECONDS_PER_YEAR <= d * rate * dt).
Proof.
  intros H. rewrite interest_div by exact H. rewrite year_denominator.
  pose proof (Z.div_mod (d * rate * dt) 315360000000 ltac:(lia)).
  pose proof (Z.mod_pos_bound (d * rate * dt) 315360000000 ltac:(lia)).
  lia.
Qed.

(** What a returning [_accrue] did: only the account of [user] changed,
    the interest for the elapsed time was added to its debt, and its
    [lastAccrued] is the current time. *)
Lemma _accrue_Ok (now : uint256) (user : address) (s s' : State) :
  _accrue now user s = Ok s' ->
  let a := accountOf s user in
  let a' := accountOf s' user in
  collateral a' = collateral a /\
  debt a' = debt a + interest (debt a) (annualRateBps s) (now - lastAccrued a) /\
  lastAccrued a' = now /\
  (debt a <> 0 -> lastAccrued a <= now) /\
  (forall other, other <> user -> accountOf s' other = accountOf s other) /\
  this s' = this s /\ _roles s' = _roles s /\ _status s' = _status s /\
  maxLTVBps s' = maxLTVBps s /\ annualRateBps s' = annualRateBps s.
Proof.
  intros H a a'. subst a'. unfold _accrue in H. fold a in H.
  destruct (Z.eqb_spec (debt a) 0) as [Hz|Hnz].
  - injection H as <-. rewrite accountOf_set_account_eq. simpl.
    rewrite Hz, interest_zero_debt.
    repeat split; try lia; try contradiction.
    intros other Hne. apply accountOf_set_account_ne, Hne.
  - apply bind_Ok in H as (dt & Hdt & H).
    apply checked_sub_Ok in Hdt as [-> Hle].
    destruct (Z.eqb_spec (now - lastAccrued a) 0) as [Hz|Hpos].
    + injection H as <-. fold a. rewrite Hz.
      unfold interest. rewrite Z.mul_0_r.
      change (Z.quot 0 (10000 * SECONDS_PER_YEAR)) with 0.
      repeat split; try lia.
    + inv_ok H. subst s'.
      apply checked_mul_Ok in Hstep as [-> _].
      apply checked_mul_Ok in Hstep0 as [-> _].
      apply checked_div_Ok in Hstep1 as [-> _].
      apply checked_add_Ok in Hstep2 as [-> _].
      rewrite accountOf_set_account_eq. simpl.
      repeat split; try lia.
      intros other Hne. apply accountOf_set_account_ne, Hne.
Qed.

(** When [_accrue] returns: the timestamp is not before [lastAccrued] and
    neither the product nor the new debt overflows. *)
Lemma _accrue_returns (now : uint256) (user : address) (s : State) :
  let a := accountOf s user in
  lastAccrued a <= now ->
  0 <= debt a -> 0 <= annualRateBps s ->
  debt a * annualRateBps s * (now - lastAccrued a) <= MAX_UINT256 ->
  debt a + interest (debt a) (annualRateBps s) (now - lastAccrued a)
    <= MAX_UINT256 ->
  exists s', _accrue now user s = Ok s'.
Proof.
  intros a Hle Hd Hr Hmul Hadd. unfold _accrue. fold a.
  destruct (debt a =? 0); [eauto|].
  unfold checked_sub. destruct (Z.leb_spec (lastAccrued a) now); [|lia]. simpl.
  destruct (now - lastAccrued a =? 0) eqn:Edt; [eauto|].
  apply Z.eqb_neq in Edt.
  unfold checked_mul.
  destruct (Z.leb_spec (debt a * annualRateBps s) MAX_UINT256) as [_|Hbig];
    [|nia]. simpl.
  destruct (Z.leb_spec (debt a * annualRateBps s * (now - lastAccrued a))
              MAX_UINT256) as [_|Hbig]; [|lia]. simpl.
  unfold interest in Hadd. unfold checked_add.
  destruct (Z.leb_spec
              (debt a + Z.quot (debt a * annualRateBps s * (now - lastAccrued a))
                          (10000 * SECONDS_PER_YEAR)) MAX_UINT256) as [_|Hbig];
    [|lia]. simpl. eauto.
Qed.

Lemma _accrue_set_status (now : uint256) (user : address) (st : status)
    (s : State) :
  _accrue now user (set_status st s)
    = let* s1 := _accrue now user s in Ok (set_status st s1).
Proof.
  unfold _accrue. change (accountOf (set_status st s) user) with (accountOf s user).
  change (annualRateBps (set_status st s)) with (annualRateBps s).
  destruct (debt (accountOf s user) =? 0); [reflexivity|].
  destruct (checked_sub now (lastAccrued (accountOf s user))) as [dt|]; simpl;
    [|reflexivity].
  destruct (dt =? 0); [reflexivity|].
  destruct (checked_mul (debt (accountOf s user)) (annualRateBps s)) as [x|];
    simpl; [|reflexivity].
  destruct (checked_mul x dt) as [y|]; simpl; [|reflexivity].
  destruct (checked_add (debt (accountOf s user))
              (Z.quot y (10000 * SECONDS_PER_YEAR))); reflexivity.
Qed.

Lemma _accrue_debt_monotone (now : uint256) (user : address) (s : State) :
  0 <= debt (accountOf s user) -> 0 <= annualRateBps s ->
  debt (accountOf s user) <= debt (accountOf (commit s (_accrue now user s)) user)
  /\ annualRateBps (commit s (_accrue now user s)) = annualRateBps s.
Proof.
  intros Hd Hr. destruct (_accrue now user s) as [s'|e] eqn:E; simpl; [|lia].
  apply _accrue_Ok in E as (_ & Hdebt & _ & Hle & _ & _ & _ & _ & _ & Hrate).
  split; [|exact Hrate]. rewrite Hdebt.
  destruct (Z.eq_dec (debt (accountOf s user)) 0) as [Hz|Hnz].
  - rewrite Hz, interest_zero_debt. lia.
  - pose proof (interest_nonneg (debt (accountOf s user)) (annualRateBps s)
                  (now - lastAccrued (accountOf s user))).
    specialize (Hle Hnz). lia.
Qed.

Lemma accrue_run_debt_monotone (times : list uint256) (user : address)
    (s : State) :
  0 <= debt (accountOf s user) -> 0 <= annualRateBps s ->
  debt (accountOf s user) <= debt (accountOf (accrue_run times user s) user).
Proof.
  revert s. induction times as [|now rest IH]; intros s Hd Hr; simpl; [lia|].
  destruct (_accrue_debt_monotone now user s Hd Hr) as [Hstep Hrate].
  etransitivity; [exact Hstep|]. apply IH; [lia | rewrite Hrate; exact Hr].
Qed.

End Accrual.

(** C3. For an account with a positive debt, no sequence of accruals, at
    whatever timestamps, decreases the debt (an accrual that reverts changes
    nothing). An accrual after a positive elapsed time [dt] that does not
    overflow returns and adds the truncated interest
    [debt * annualRate * dt / (10000 * secondsPerYear)] to the debt; the debt
    grows strictly exactly when [debt * annualRate * dt] reaches
    [10000 * secondsPerYear], and stays the same otherwise. *)
Theorem accrue_debt_monotone_and_strict_iff
    (user : address) (s : LendingPool.State) :
  let a := LendingPool.accountOf s user in
  let rate := LendingPool.annualRateBps s in
  0 < LendingPool.debt a -> 0 <= rate ->
  (forall times,
     LendingPool.debt a
       <= LendingPool.debt
            (LendingPool.accountOf (LendingPool.accrue_run times user s) user)) /\
  (forall now,
     let dt := now - LendingPool.lastAccrued a in
     0 < dt ->
     LendingPool.debt a * rate * dt <= MAX_UINT256 ->
     LendingPool.debt a + LendingPool.interest (LendingPool.debt a) rate dt
       <= MAX_UINT256 ->
     exists s',
       LendingPool._accrue now user s = Ok s' /\
       LendingPool.debt (LendingPool.accountOf s' user)
         = LendingPool.debt a + LendingPool.interest (LendingPool.debt a) rate dt /\
       (LendingPool.debt a < LendingPool.debt (LendingPool.accountOf s' user)
        <-> 10000 * LendingPool.SECONDS_PER_YEAR <= LendingPool.debt a * rate * dt)).
Proof.
  intros a rate Hd Hr. subst a rate. split.
  - intros times. apply accrue_run_debt_monotone; [lia | exact Hr].
  - intros now dt Hdt Hmul Hadd. subst dt.
    destruct (_accrue_returns now user s) as [s' Hs']; try assumption; try lia.
    exists s'. split; [exact Hs'|].
    apply _accrue_Ok in Hs' as (_ & Hdebt & _).
    split; [exact Hdebt|]. rewrite Hdebt.
    rewrite <- interest_pos_iff; [lia|].
    apply Z.mul_nonneg_nonneg; [apply Z.mul_nonneg_nonneg|]; lia.
Qed.

Lemma accrue_debt_monotone_and_strict_iff_witness :
  exists s',
    LendingPool._accrue one_year_later 2 (fst pool_with_debt) = Ok s' /\
    LendingPool.debt (LendingPool.accountOf s' 2) = 21 /\
    LendingPool.debt (LendingPool.accountOf (fst pool_with_debt) 2)
      < LendingPool.debt (LendingPool.accountOf s' 2).
Proof.
  destruct (accrue_debt_monotone_and_strict_iff 2 (fst pool_with_debt))
    as [_ H]; [vm_compute; reflexivity | vm_compute; discriminate |].
  destruct (H one_year_later) as (s' & Hok & Hdebt & Hstrict);
    [vm_compute; reflexivity | vm_compute; discriminate
    | vm_compute; discriminate |].
  exists s'. split; [exact Hok|].
  split; [rewrite Hdebt; vm_compute; reflexivity|].
  apply Hstrict. vm_compute. discriminate.
Defined.

(** The strict part of the claim fails: account 2 holds 50 units of
    collateral and owes 20 units, last accrued at time 100, at 800 basis
    points a year. One day later [20 * 800 * 86400] is below
    [10000 * 365 days], the truncated interest is 0, and the accrual returns
    with the debt still at 20. *)
Lemma accrue_after_a_day_adds_nothing :
  let s := fst pool_with_debt in
  let now := 100 + 86400 in
  LendingPool.accountOf s 2
    = {| LendingPool.collateral := 50; LendingPool.debt := 20;
         LendingPool.lastAccrued := 100 |} /\
  LendingPool.annualRateBps s = 800 /\
  0 < LendingPool.debt (LendingPool.accountOf s 2) /\
  0 < now - LendingPool.lastAccrued (LendingPool.accountOf s 2) /\
  exists s',
    LendingPool._accrue now 2 s = Ok s' /\
    LendingPool.debt (LendingPool.accountOf s' 2) = 20 /\
    ~ (LendingPool.debt (LendingPool.accountOf s 2)
       < LendingPool.debt (LendingPool.accountOf s' 2)).
Proof.
  split; [vm_compute; reflexivity|]. split; [vm_compute; reflexivity|].
  split; [vm_compute; reflexivity|]. split; [vm_compute; reflexivity|].
  eexists. split; [vm_compute; reflexivity|].
  split; [vm_compute; reflexivity | vm_compute; discriminate].
Qed.

(** ** LendingPool: risk parameters *)

Section RiskParameters.
Import LendingPool.

Lemma onlyRole_pool_Ok (r : role) (m : Msg) (s : State) :
  hasRole s r (msg_sender m) = true -> onlyRole r m s = Ok tt.
Proof. intros H. unfold onlyRole. rewrite H. reflexivity. Qed.

Lemma setParams_Ok (m : Msg) (ltv rate : uint256) (s : State) :
  hasRole s RISK_ROLE (msg_sender m) = true -> ltv <= 9000 -> rate <= 5000 ->
  setParams m ltv rate s
    = Ok {| this := this s; _roles := _roles s; _status := _status s;
            maxLTVBps := ltv; annualRateBps := rate; accounts := accounts s |}.
Proof.
  intros Hrole Hltv Hrate. unfold setParams.
  rewrite (onlyRole_pool_Ok _ _ _ Hrole). simpl.
  destruct (Z.leb_spec ltv 9000); [|lia].
  destruct (Z.leb_spec rate 5000); [|lia]. reflexivity.
Qed.

End RiskParameters.

(** C10. [setParams], called by a risk officer with values in range, returns
    and stores the new parameters without touching any account. For an
    account with a positive debt whose [lastAccrued] is not after the change,
    the next accrual, at a later time [now], charges the new rate on the
    whole time since [lastAccrued], the part before the change included:
    the debt becomes
    [debt + debt * newRate * (now - lastAccrued) / (10000 * secondsPerYear)]. *)
Theorem setParams_new_rate_covers_whole_period
    (m : Msg) (ltv rate : uint256) (user : address) (now : uint256)
    (s : LendingPool.State) :
  let a := LendingPool.accountOf s user in
  let dt := now - LendingPool.lastAccrued a in
  LendingPool.hasRole s RISK_ROLE (msg_sender m) = true ->
  ltv <= 9000 -> 0 <= rate <= 5000 ->
  0 < LendingPool.debt a ->
  LendingPool.lastAccrued a <= block_timestamp m ->
  block_timestamp m <= now -> 0 < dt ->
  LendingPool.debt a * rate * dt <= MAX_UINT256 ->
  LendingPool.debt a + LendingPool.interest (LendingPool.debt a) rate dt
    <= MAX_UINT256 ->
  exists s1,
    LendingPool.setParams m ltv rate s = Ok s1 /\
    LendingPool.accounts s1 = LendingPool.accounts s /\
    LendingPool.annualRateBps s1 = rate /\
    LendingPool.maxLTVBps s1 = ltv /\
    exists s2,
      LendingPool._accrue now user s1 = Ok s2 /\
      LendingPool.debt (LendingPool.accountOf s2 user)
        = LendingPool.debt a + LendingPool.interest (LendingPool.debt a) rate dt /\
      LendingPool.lastAccrued (LendingPool.accountOf s2 user) = now.
Proof.
  intros a dt Hrole Hltv Hrate Hd Hlast Hnow Hdt Hmul Hadd. subst a dt.
  rewrite (setParams_Ok m ltv rate s Hrole Hltv) by lia.
  eexists. split; [reflexivity|]. simpl.
  repeat (split; [reflexivity|]).
  match goal with |- exists s2, LendingPool._accrue _ _ ?x = _ /\ _ => set (s1 := x) end.
  assert (Ha : LendingPool.accountOf s1 user = LendingPool.accountOf s user)
    by reflexivity.
  destruct (_accrue_returns now user s1) as [s2 Hs2];
    rewrite ?Ha; simpl; try lia.
  exists s2. split; [exact Hs2|].
  apply _accrue_Ok in Hs2 as (_ & Hdebt & Hnow' & _).
  rewrite Ha in Hdebt. simpl in Hdebt. split; [exact Hdebt | exact Hnow'].
Qed.

Lemma setParams_new_rate_covers_whole_period_witness :
  exists s1 s2,
    LendingPool.setParams (call_at 1 (100 + 15768000)) 5000 5000
      (fst pool_with_debt) = Ok s1 /\
    LendingPool._accrue one_year_later 2 s1 = Ok s2 /\
    LendingPool.debt (LendingPool.accountOf s2 2) = 30.
Proof.
  destruct (setParams_new_rate_covers_whole_period
              (call_at 1 (100 + 15768000)) 5000 5000 2 one_year_later
              (fst pool_with_debt))
    as (s1 & Hset & _ & _ & _ & s2 & Hacc & Hdebt & _).
  - vm_compute; reflexivity.
  - vm_compute; discriminate.
  - split; vm_compute; discriminate.
  - vm_compute; reflexivity.
  - vm_compute; discriminate.
  - vm_compute; discriminate.
  - vm_compute; reflexivity.
  - vm_compute; discriminate.
  - vm_compute; discriminate.
  - exists s1, s2. split; [exact Hset|]. split; [exact Hacc|].
    rewrite Hdebt. vm_compute. reflexivity.
Defined.

(** ** LendingPool: the loan-to-value ceiling *)

Section LoanToValue.
Import LendingPool.

Lemma nonReentrant_Ok {T : Type} (body : State -> result (State * T))
    (s : State) (r : State * T) :
  nonReentrant body s = Ok r ->
  _status s = NOT_ENTERED /\
  exists r0, body (set_status ENTERED s) = Ok r0 /\
             r = (set_status NOT_ENTERED (fst r0), snd r0).
Proof.
  unfold nonReentrant. intros H.
  destruct (_status s); [|discriminate]. simpl in H.
  apply bind_Ok in H as (r0 & Hbody & H). injection H as <-. eauto.
Qed.

Lemma _accrue_maxLTVBps (now : uint256) (user : address) (st : status)
    (s s1 : State) :
  _accrue now user (set_status st s) = Ok s1 -> maxLTVBps s1 = maxLTVBps s.
Proof.
  intros H. apply _accrue_Ok in H as (_ & _ & _ & _ & _ & _ & _ & _ & H & _).
  exact H.
Qed.

End LoanToValue.

(** C1. When [borrow] or [withdrawCollateral] returns, the caller's account
    in the state it leaves satisfies
    [debt <= collateral * maxLTVBps / 10000], with the division truncating
    and [maxLTVBps] the parameter in force, which the call did not change. *)
Theorem ltv_holds_after_borrow_and_withdrawCollateral
    (kyc : KYCRegistry.State) (m : Msg) (amount : uint256)
    (t t' : DepositToken.State) (s s' : LendingPool.State) :
  LendingPool.borrow kyc m amount t s = Ok (s', t') \/
  LendingPool.withdrawCollateral kyc m amount t s = Ok (s', t') ->
  let a := LendingPool.accountOf s' (msg_sender m) in
  LendingPool.debt a
    <= Z.quot (LendingPool.collateral a * LendingPool.maxLTVBps s') 10000 /\
  LendingPool.maxLTVBps s' = LendingPool.maxLTVBps s.
Proof.
  intros [H|H] a; subst a.
  - unfold LendingPool.borrow in H.
    apply nonReentrant_Ok in H as (_ & r0 & H & Hr).
    injection Hr as Hs Ht. subst s' t'.
    change (LendingPool.accountOf (LendingPool.set_status LendingPool.NOT_ENTERED r0.1))
      with (LendingPool.accountOf r0.1).
    change (LendingPool.maxLTVBps (LendingPool.set_status LendingPool.NOT_ENTERED r0.1))
      with (LendingPool.maxLTVBps r0.1).
    inv_ok H. subst r0. cbn [fst].
    rewrite accountOf_set_account_eq. cbn [LendingPool.debt LendingPool.collateral].
    change (LendingPool.maxLTVBps (LendingPool.set_account ?u ?a r2))
      with (LendingPool.maxLTVBps r2).
    apply checked_mul_Ok in Hstep2 as [-> _].
    apply checked_div_Ok in Hstep3 as [-> _].
    apply checked_add_Ok in Hstep4 as [-> _].
    apply checked_add_Ok in Hstep6 as [-> _].
    apply Z.ltb_ge in Hstep5.
    split; [exact Hstep5|]. eapply _accrue_maxLTVBps; eassumption.
  - unfold LendingPool.withdrawCollateral in H.
    apply nonReentrant_Ok in H as (_ & r0 & H & Hr).
    injection Hr as Hs Ht. subst s' t'.
    change (LendingPool.accountOf (LendingPool.set_status LendingPool.NOT_ENTERED r0.1))
      with (LendingPool.accountOf r0.1).
    change (LendingPool.maxLTVBps (LendingPool.set_status LendingPool.NOT_ENTERED r0.1))
      with (LendingPool.maxLTVBps r0.1).
    inv_ok H. subst r0. cbn [fst].
    rewrite accountOf_set_account_eq. cbn [LendingPool.debt LendingPool.collateral].
    change (LendingPool.maxLTVBps (LendingPool.set_account ?u ?a r2))
      with (LendingPool.maxLTVBps r2).
    apply checked_sub_Ok in Hstep3 as [-> _].
    apply checked_mul_Ok in Hstep4 as [-> _].
    apply checked_div_Ok in Hstep5 as [-> _].
    apply Z.ltb_ge in Hstep6.
    split; [exact Hstep6|]. eapply _accrue_maxLTVBps; eassumption.
Qed.

Lemma ltv_holds_after_borrow_and_withdrawCollateral_witness :
  let a := LendingPool.accountOf (fst pool_with_debt) 2 in
  let a' := LendingPool.accountOf (fst pool_after_withdrawal) 2 in
  (LendingPool.collateral a = 50 /\ LendingPool.debt a = 20 /\
   LendingPool.debt a
     <= Z.quot (LendingPool.collateral a
                * LendingPool.maxLTVBps (fst pool_with_debt)) 10000) /\
  (LendingPool.collateral a' = 40 /\ LendingPool.debt a' = 20 /\
   LendingPool.debt a'
     <= Z.quot (LendingPool.collateral a'
                * LendingPool.maxLTVBps (fst pool_after_withdrawal)) 10000).
Proof.
  split.
  - split; [vm_compute; reflexivity|]. split; [vm_compute; reflexivity|].
    refine (proj1 (ltv_holds_after_borrow_and_withdrawCollateral
              registry_customers (call_from 2) 20
              (snd pool_with_collateral) (snd pool_with_debt)
              (fst pool_with_collateral) (fst pool_with_debt) _)).
    left. vm_compute. reflexivity.
  - split; [vm_compute; reflexivity|]. split; [vm_compute; reflexivity|].
    refine (proj1 (ltv_holds_after_borrow_and_withdrawCollateral
              registry_customers (call_from 2) 10
              (snd pool_with_debt) (snd pool_after_withdrawal)
              (fst pool_with_debt) (fst pool_after_withdrawal) _)).
    right. vm_compute. reflexivity.
Defined.

(** ** DepositToken: what a transfer, a mint and a burn do to the balances *)

Section TokenEffects.
Import DepositToken.

Lemma balanceOf_set_balance_eq (a : address) (v : uint256) (s : State) :
  balanceOf (set_balance a v s) a = v.
Proof. unfold balanceOf; simpl. rewrite lookup_insert_eq. reflexivity. Qed.

Lemma balanceOf_set_balance_ne (a b : address) (v : uint256) (s : State) :
  b <> a -> balanceOf (set_balance a v s) b = balanceOf s b.
Proof.
  intros Hne. unfold balanceOf; simpl.
  rewrite lookup_insert_ne by congruence. reflexivity.
Qed.

Lemma blocked_false kyc now (s : State) (a : address) :
  KYCRegistry.isKYCApproved now kyc a = true -> blocked kyc now s a = false.
Proof. intros H. unfold blocked. rewrite H. apply andb_false_r. Qed.

Lemma _transfer_Ok kyc now (from to : address) (value : uint256) (s s' : State) :
  0 <= value -> token_inv s -> from <> to ->
  _transfer kyc now from to value s = Ok s' ->
  transferred kyc now from to value s s'.
Proof.
  intros Hv Hinv Hne H.
  assert (Hinv' : token_inv s').
  { unfold _transfer in H. inv_ok H. eapply _update_inv; eassumption. }
  unfold _transfer, _update in H.
  destruct (Z.eqb_spec from 0) as [|Hf]; [discriminate|].
  destruct (Z.eqb_spec to 0) as [|Ht]; [discriminate|].
  simpl in H.
  destruct (blocked kyc now s from) eqn:Ebf; [discriminate|].
  destruct (blocked kyc now s to) eqn:Ebt; [discriminate|].
  simpl in H. unfold ERC20_update in H.
  destruct (Z.eqb_spec from 0) as [|_]; [contradiction|].
  destruct (Z.ltb_spec (balanceOf s from) value) as [|Hcov]; [discriminate|].
  simpl in H.
  destruct (Z.eqb_spec to 0) as [|_]; [contradiction|].
  injection H as <-.
  pose proof (token_inv_balance_le s from Hinv) as Hbf.
  pose proof (token_inv_balance_le s to Hinv) as Hbt.
  assert (Hsum : balanceOf s from + balanceOf s to <= MAX_UINT256).
  { destruct Hinv as [Hnn Hs Hsup]. unfold balanceOf, sumBalances in *.
    pose proof (msum_ge2 _ from to Hnn Hne). lia. }
  rewrite (balanceOf_set_balance_ne from to) in Hinv' |- * by congruence.
  rewrite wrap_small in Hinv' |- * by lia.
  split; try assumption; try reflexivity.
  - rewrite balanceOf_set_balance_ne by congruence.
    apply balanceOf_set_balance_eq.
  - apply balanceOf_set_balance_eq.
  - intros x Hx1 Hx2. rewrite !balanceOf_set_balance_ne by congruence.
    reflexivity.
Qed.

Lemma _transfer_returns kyc now (from to : address) (value : uint256)
    (s : State) :
  from <> 0 -> to <> 0 ->
  blocked kyc now s from = false -> blocked kyc now s to = false ->
  value <= balanceOf s from ->
  exists s', _transfer kyc now from to value s = Ok s'.
Proof.
  intros Hf Ht Hbf Hbt Hcov. unfold _transfer, _update.
  destruct (Z.eqb_spec from 0) as [|_]; [contradiction|].
  destruct (Z.eqb_spec to 0) as [|_]; [contradiction|].
  simpl. rewrite Hbf, Hbt. simpl. unfold ERC20_update.
  destruct (Z.eqb_spec from 0) as [|_]; [contradiction|].
  destruct (Z.ltb_spec (balanceOf s from) value) as [|_]; [lia|].
  simpl. destruct (Z.eqb_spec to 0) as [|_]; [contradiction|]. eauto.
Qed.

Lemma transferFrom_Ok kyc (m : Msg) (from to : address) (value : uint256)
    (s s' : State) :
  0 <= value -> token_inv s -> from <> to ->
  transferFrom kyc m from to value s = Ok s' ->
  exists s0,
    _balances s0 = _balances s /\ _totalSupply s0 = _totalSupply s /\
    isSystemAddress s0 = isSystemAddress s /\ _roles s0 = _roles s /\
    transferred kyc (block_timestamp m) from to value s0 s'.
Proof.
  intros Hv Hinv Hne H. unfold transferFrom in H.
  apply bind_Ok in H as (s0 & Hspend & H).
  apply _spendAllowance_ledger in Hspend as (Hb & Hts & Hsys & Hr).
  exists s0. repeat (split; [assumption|]).
  apply _transfer_Ok; try assumption.
  apply (token_inv_same_ledger s); assumption.
Qed.

Lemma balanceOf_same_ledger (s s' : State) (a : address) :
  _balances s' = _balances s -> balanceOf s' a = balanceOf s a.
Proof. intros H. unfold balanceOf. rewrite H. reflexivity. Qed.

Lemma mint_Ok kyc (m : Msg) (to : address) (amount : uint256) (s s' : State) :
  0 <= amount -> token_inv s ->
  mint kyc m to amount s = Ok s' -> minted kyc m to amount s s'.
Proof.
  intros Hv Hinv H.
  assert (Hinv' : token_inv s').
  { unfold mint, _mint in H. inv_ok H. eapply _update_inv; eassumption. }
  unfold mint, onlyRole, _mint, _update in H.
  destruct (hasRole s MINTER_ROLE (msg_sender m)) eqn:Hrole; [|discriminate].
  simpl in H.
  destruct (Z.eqb_spec to 0) as [|Ht]; [discriminate|]. simpl in H.
  destruct (blocked kyc (block_timestamp m) s to) eqn:Eb; [discriminate|].
  simpl in H. unfold ERC20_update in H. simpl in H.
  apply bind_Ok in H as (s1 & H1 & H).
  apply bind_Ok in H1 as (ts & Hts & H1). injection H1 as <-.
  apply checked_add_Ok in Hts as [-> Hle].
  destruct (Z.eqb_spec to 0) as [|_]; [contradiction|].
  injection H as <-.
  pose proof (token_inv_balance_le s to Hinv) as Hbt.
  change (balanceOf (set_totalSupply (_totalSupply s + amount) s) to)
    with (balanceOf s to) in Hinv' |- *.
  rewrite wrap_small in Hinv' |- * by lia.
  split; try assumption; try reflexivity.
  - apply balanceOf_set_balance_eq.
  - intros x Hx. rewrite balanceOf_set_balance_ne by congruence. reflexivity.
Qed.

Lemma burn_returns kyc (m : Msg) (from : address) (amount : uint256)
    (s : State) :
  0 <= amount -> token_inv s ->
  from <> 0 -> hasRole s MINTER_ROLE (msg_sender m) = true ->
  blocked kyc (block_timestamp m) s from = false ->
  amount <= balanceOf s from ->
  exists s',
    burn kyc m from amount s = Ok s' /\
    balanceOf s' from = balanceOf s from - amount /\
    (forall x, x <> from -> balanceOf s' x = balanceOf s x) /\
    _totalSupply s' = _totalSupply s - amount /\
    isSystemAddress s' = isSystemAddress s /\ _roles s' = _roles s.
Proof.
  intros Hv Hinv Hf Hrole Hb Hcov.
  unfold burn, onlyRole, _burn, _update. rewrite Hrole. simpl.
  destruct (Z.eqb_spec from 0) as [|_]; [contradiction|]. simpl.
  rewrite Hb. simpl. unfold ERC20_update.
  destruct (Z.eqb_spec from 0) as [|_]; [contradiction|].
  destruct (Z.ltb_spec (balanceOf s from) amount) as [|_]; [lia|]. simpl.
  pose proof (token_inv_balance_le s from Hinv) as Hbf.
  destruct Hinv as [_ _ Hsup].
  rewrite wrap_small by lia.
  eexists. split; [reflexivity|]. simpl.
  split; [apply (balanceOf_set_balance_eq from _ s)|].
  split; [|auto].
  intros x Hx. apply (balanceOf_set_balance_ne from x _ s). exact Hx.
Qed.

End TokenEffects.

(** ** LendingPool: repayment *)

Section Repayment.
Import LendingPool.

Lemma onlyKYC_Ok kyc (m : Msg) (user : address) :
  KYCRegistry.isKYCApproved (block_timestamp m) kyc user = true ->
  onlyKYC kyc m user = Ok tt.
Proof. intros H. unfold onlyKYC. rewrite H. reflexivity. Qed.

Lemma asPool_same_this (m : Msg) (s s' : State) :
  this s' = this s -> asPool m s' = asPool m s.
Proof. intros H. unfold asPool. rewrite H. reflexivity. Qed.

End Repayment.


(** Checking the invariant of a concrete token state by evaluation. *)
Lemma token_inv_decide (s : DepositToken.State) :
  bool_decide (map_Forall (fun (_ : address) (v : Z) => 0 <= v)
                 (DepositToken._balances s)) = true ->
  (DepositToken.sumBalances s =? DepositToken._totalSupply s) = true ->
  (DepositToken._totalSupply s <=? MAX_UINT256) = true ->
  token_inv s.
Proof.
  intros Hnn Hsum Hsup. split.
  - apply bool_decide_eq_true_1 in Hnn. intros k v Hk. exact (Hnn k v Hk).
  - apply Z.eqb_eq, Hsum.
  - apply Z.leb_le, Hsup.
Qed.


(** ** BankVault *)

Section Vault.
Import BankVault.

Lemma vault_nonReentrant_Ok (body : World -> result World) (w w' : World) :
  nonReentrant body w = Ok w' ->
  _status (vault w) = NOT_ENTERED /\
  exists w1,
    body {| vault := set_status ENTERED (vault w); token := token w;
            ether := ether w |} = Ok w1 /\
    w' = {| vault := set_status NOT_ENTERED (vault w1); token := token w1;
            ether := ether w1 |}.
Proof.
  unfold nonReentrant. intros H.
  destruct (_status (vault w)); [|discriminate]. simpl in H.
  apply bind_Ok in H as (w1 & Hbody & H). injection H as <-. eauto.
Qed.

Lemma vault_onlyKYC_Ok kyc (m : Msg) (user : address) :
  KYCRegistry.isKYCApproved (block_timestamp m) kyc user = true ->
  onlyKYC kyc m user = Ok tt.
Proof. intros H. unfold onlyKYC. rewrite H. reflexivity. Qed.

Lemma etherOf_move_ether (from to x : address) (amount : uint256)
    (eth : gmap address Z) :
  etherOf (move_ether from to amount eth) x
  = etherOf eth x - (if x =? from then amount else 0)
                  + (if x =? to then amount else 0).
Proof.
  unfold move_ether, etherOf.
  destruct (Z.eqb_spec x to) as [->|Hto].
  - rewrite lookup_insert_eq. simpl.
    destruct (Z.eqb_spec to from) as [->|Hfrom].
    + rewrite lookup_insert_eq. simpl. lia.
    + rewrite lookup_insert_ne by congruence. lia.
  - rewrite lookup_insert_ne by congruence.
    destruct (Z.eqb_spec x from) as [->|Hfrom].
    + rewrite lookup_insert_eq. simpl. lia.
    + rewrite lookup_insert_ne by congruence. lia.
Qed.

Lemma call_value_fails (accepts : address -> uint256 -> bool) (to : address)
    (amount : uint256) (w : World) :
  payout_fails accepts to amount w ->
  call_value accepts to amount w = (false, w).
Proof.
  intros [Hshort|Hrej]; unfold call_value.
  - destruct (Z.ltb_spec (etherOf (ether w) (this (vault w))) amount); [|lia].
    reflexivity.
  - rewrite Hrej. rewrite orb_true_r. reflexivity.
Qed.

End Vault.

(** C6. Let a KYC-approved caller withdraw a positive amount while the
    payout cannot succeed (the vault is short of ether or the recipient
    rejects the payment). Then [withdraw] reverts and the state after the
    transaction is the state before it: the token, with its balances and
    total supply, the vault and the ether balances. If the burn itself goes
    through, the error is the message of the failed ether transfer. *)
Theorem withdraw_reverts_when_payout_fails
    (kyc : KYCRegistry.State) (accepts : address -> uint256 -> bool)
    (m : Msg) (amount : uint256) (w : BankVault.World) :
  BankVault._status (BankVault.vault w) = BankVault.NOT_ENTERED ->
  KYCRegistry.isKYCApproved (block_timestamp m) kyc (msg_sender m) = true ->
  0 < amount ->
  payout_fails accepts (msg_sender m) amount w ->
  (exists e, BankVault.withdraw kyc accepts m amount w = Revert e) /\
  commit w (BankVault.withdraw kyc accepts m amount w) = w /\
  (forall t1,
     DepositToken.burn kyc (BankVault.asVault m w) (msg_sender m) amount
       (BankVault.token w) = Ok t1 ->
     BankVault.withdraw kyc accepts m amount w
       = Revert (Error "ETH transfer failed")).
Proof.
  intros Hst Hkyc Hamt Hfail.
  assert (Hshape :
    BankVault.withdraw kyc accepts m amount w
    = match DepositToken.burn kyc (BankVault.asVault m w) (msg_sender m) amount
              (BankVault.token w) with
      | Ok _ => Revert (Error "ETH transfer failed")
      | Revert e => Revert e
      end).
  { unfold BankVault.withdraw, BankVault.nonReentrant.
    rewrite Hst. cbn [revert_if bind].
    rewrite (vault_onlyKYC_Ok kyc m _ Hkyc). cbn [bind].
    destruct (Z.ltb_spec 0 amount) as [_|]; [|lia]. cbn [require bind].
    change (BankVault.asVault m
              {| BankVault.vault :=
                   BankVault.set_status BankVault.ENTERED (BankVault.vault w);
                 BankVault.token := BankVault.token w;
                 BankVault.ether := BankVault.ether w |})
      with (BankVault.asVault m w).
    cbn [BankVault.token].
    destruct (DepositToken.burn kyc (BankVault.asVault m w) (msg_sender m)
                amount (BankVault.token w)) as [t1|e]; [|reflexivity].
    cbn [bind]. rewrite call_value_fails; [reflexivity|].
    exact Hfail. }
  split; [|split].
  - rewrite Hshape. destruct (DepositToken.burn _ _ _ _ _); eauto.
  - rewrite Hshape. destruct (DepositToken.burn _ _ _ _ _); reflexivity.
  - intros t1 Hburn. rewrite Hshape, Hburn. reflexivity.
Qed.

Lemma withdraw_reverts_when_payout_fails_witness :
  DepositToken.balanceOf (BankVault.token vault_after_deposit) 2 = 170 /\
  BankVault.withdraw registry_customers reject_all (call_from 2) 100
    vault_after_deposit = Revert (Error "ETH transfer failed") /\
  commit vault_after_deposit
    (BankVault.withdraw registry_customers reject_all (call_from 2) 100
       vault_after_deposit) = vault_after_deposit.
Proof.
  split; [vm_compute; reflexivity|].
  destruct (withdraw_reverts_when_payout_fails registry_customers reject_all
              (call_from 2) 100 vault_after_deposit)
    as (_ & Hsame & Herr).
  - vm_compute; reflexivity.
  - vm_compute; reflexivity.
  - vm_compute; reflexivity.
  - right. reflexivity.
  - split; [|exact Hsame].
    apply (Herr (commit (BankVault.token vault_after_deposit)
                   (DepositToken.burn registry_customers
                      (BankVault.asVault (call_from 2) vault_after_deposit)
                      2 100 (BankVault.token vault_after_deposit)))).
    vm_compute; reflexivity.
Defined.

(** C9. Let a deposit of [X] wei return, and let the same caller, still
    KYC-approved and accepting the payout, withdraw [X] right after it, with
    nothing changed in between. Then the withdrawal returns, and the ether
    balance and the token balance of the caller (and of every other
    account), the total supply and the vault are what they were before the
    deposit. *)
Theorem deposit_then_withdraw_restores
    (kyc : KYCRegistry.State) (accepts : address -> uint256 -> bool)
    (m m' : Msg) (w w1 : BankVault.World) :
  msg_sender m' = msg_sender m ->
  token_inv (BankVault.token w) ->
  0 <= BankVault.etherOf (BankVault.ether w) (BankVault.this (BankVault.vault w)) ->
  BankVault.deposit kyc m w = Ok w1 ->
  KYCRegistry.isKYCApproved (block_timestamp m') kyc (msg_sender m) = true ->
  accepts (msg_sender m) (msg_value m) = true ->
  exists w2,
    BankVault.withdraw kyc accepts m' (msg_value m) w1 = Ok w2 /\
    BankVault.etherOf (BankVault.ether w2) (msg_sender m)
      = BankVault.etherOf (BankVault.ether w) (msg_sender m) /\
    DepositToken.balanceOf (BankVault.token w2) (msg_sender m)
      = DepositToken.balanceOf (BankVault.token w) (msg_sender m) /\
    DepositToken.totalSupply (BankVault.token w2)
      = DepositToken.totalSupply (BankVault.token w) /\
    (forall x, BankVault.etherOf (BankVault.ether w2) x
               = BankVault.etherOf (BankVault.ether w) x) /\
    (forall x, DepositToken.balanceOf (BankVault.token w2) x
               = DepositToken.balanceOf (BankVault.token w) x) /\
    BankVault.vault w2 = BankVault.vault w.
Proof.
  intros Hsender Hinv Hvault Hdep Hkyc' Hacc.
  (* the deposit *)
  unfold BankVault.deposit in Hdep.
  apply bind_Ok in Hdep as (w0 & Hrecv & Hdep).
  unfold BankVault.receive_value in Hrecv.
  apply bind_Ok in Hrecv as (u & Hfunds & Hrecv).
  apply revert_if_Ok in Hfunds. apply Z.ltb_ge in Hfunds.
  injection Hrecv as <-.
  apply vault_nonReentrant_Ok in Hdep as (Hst & wb & Hbody & ->).
  cbn [BankVault.vault BankVault.token BankVault.ether] in Hst, Hbody.
  inv_ok Hbody. subst wb.
  apply Z.ltb_lt in Hstep0.
  cbn [BankVault.token] in Hstep1.
  apply mint_Ok in Hstep1 as [Hc0 Hrole Hallowed Hto Hoth Hsup Hflags Hroles Hinv1];
    [|lia|exact Hinv].
  change (msg_sender (BankVault.asVault m _)) with (BankVault.this (BankVault.vault w))
    in Hrole.
  pose proof (token_inv_balance_le _ (msg_sender m) Hinv) as Hbal.
  (* the withdrawal *)
  unfold BankVault.withdraw, BankVault.nonReentrant.
  cbn [BankVault.vault BankVault.token BankVault.ether BankVault.with_token
       BankVault.set_status BankVault._status revert_if bind].
  rewrite Hsender.
  rewrite (vault_onlyKYC_Ok kyc m' _ Hkyc'). cbn [bind].
  destruct (Z.ltb_spec 0 (msg_value m)) as [_|]; [|lia]. cbn [require bind].
  match goal with
  | |- context [DepositToken.burn kyc ?mv ?c ?v ?tk] =>
      destruct (burn_returns kyc mv c v tk)
        as (t2 & Hburn & Hfrom2 & Hoth2 & Hsup2 & _); try assumption; try lia
  end.
  { change (DepositToken.hasRole r1 MINTER_ROLE (BankVault.this (BankVault.vault w))
            = true).
    unfold DepositToken.hasRole in *. rewrite Hroles. exact Hrole. }
  { apply blocked_false. exact Hkyc'. }
  rewrite Hburn. cbn [bind].
  unfold BankVault.call_value.
  cbn [BankVault.vault BankVault.token BankVault.ether BankVault.with_token].
  change (BankVault.this
            (BankVault.set_status BankVault.ENTERED
               (BankVault.set_status BankVault.NOT_ENTERED
                  (BankVault.set_status BankVault.ENTERED (BankVault.vault w)))))
    with (BankVault.this (BankVault.vault w)).
  rewrite Hacc. cbn [negb]. rewrite orb_false_r.
  pose proof (etherOf_move_ether (msg_sender m) (BankVault.this (BankVault.vault w))
                (BankVault.this (BankVault.vault w)) (msg_value m)
                (BankVault.ether w)) as Hv.
  rewrite Z.eqb_refl in Hv.
  destruct (Z.ltb_spec
              (BankVault.etherOf
                 (BankVault.move_ether (msg_sender m)
                    (BankVault.this (BankVault.vault w)) (msg_value m)
                    (BankVault.ether w)) (BankVault.this (BankVault.vault w)))
              (msg_value m)) as [Hshort|_].
  { exfalso.
    destruct (Z.eqb_spec (BankVault.this (BankVault.vault w)) (msg_sender m))
      as [E|_]; [rewrite E in *|]; lia. }
  cbn [require bind].
  eexists. split; [reflexivity|].
  cbn [BankVault.vault BankVault.token BankVault.ether].
  assert (Hether : forall x,
    BankVault.etherOf
      (BankVault.move_ether (BankVault.this (BankVault.vault w)) (msg_sender m)
         (msg_value m)
         (BankVault.move_ether (msg_sender m) (BankVault.this (BankVault.vault w))
            (msg_value m) (BankVault.ether w))) x
    = BankVault.etherOf (BankVault.ether w) x).
  { intros x. rewrite !etherOf_move_ether.
    destruct (x =? msg_sender m), (x =? BankVault.this (BankVault.vault w)); lia. }
  assert (Hbalances : forall x,
    DepositToken.balanceOf t2 x = DepositToken.balanceOf (BankVault.token w) x).
  { intros x. destruct (Z.eq_dec x (msg_sender m)) as [->|Hx].
    - rewrite Hfrom2, Hto. lia.
    - rewrite Hoth2, Hoth by exact Hx. reflexivity. }
  split; [apply Hether|]. split; [apply Hbalances|].
  split; [unfold DepositToken.totalSupply; lia|].
  split; [exact Hether|]. split; [exact Hbalances|].
  destruct (BankVault.vault w) as [self roles st]. simpl in Hst. subst st.
  reflexivity.
Qed.

Lemma deposit_then_withdraw_restores_witness :
  BankVault.etherOf (BankVault.ether vault_after_deposit) 2 = 900 /\
  DepositToken.balanceOf (BankVault.token vault_after_deposit) 2 = 170 /\
  exists w2,
    BankVault.withdraw registry_customers accept_all (call_at 2 200) 100
      vault_after_deposit = Ok w2 /\
    BankVault.etherOf (BankVault.ether w2) 2 = 1000 /\
    DepositToken.balanceOf (BankVault.token w2) 2 = 70 /\
    DepositToken.totalSupply (BankVault.token w2) = 90.
Proof.
  split; [vm_compute; reflexivity|]. split; [vm_compute; reflexivity|].
  destruct (deposit_then_withdraw_restores registry_customers accept_all
              deposit_call (call_at 2 200) vault_deployed vault_after_deposit)
    as (w2 & Hok & Heth & Hbal & Hsup & _).
  - reflexivity.
  - apply token_inv_decide; vm_compute; reflexivity.
  - vm_compute; discriminate.
  - vm_compute; reflexivity.
  - vm_compute; reflexivity.
  - reflexivity.
  - change (msg_sender deposit_call) with 2 in Heth, Hbal.
    exists w2. split; [exact Hok|].
    rewrite Heth, Hbal, Hsup. repeat split; vm_compute; reflexivity.
Defined.

(** * Further properties of the contracts *)

(** ** KYCRegistry: bootstrap, requests and expiry *)

Section RegistryLifecycle.
Import KYCRegistry.

Lemma onlyComplianceApproved_not_approved (m : Msg) (s : State) :
  hasRole s COMPLIANCE_ROLE (msg_sender m) = true ->
  isKYCApproved (block_timestamp m) s (msg_sender m) = false ->
  onlyComplianceApproved m s = Revert (Error "Admin must be KYC-approved").
Proof.
  intros Hrole Hkyc. unfold onlyComplianceApproved. rewrite Hrole, Hkyc.
  reflexivity.
Qed.

Lemma isKYCApproved_same_records (now : uint256) (s s' : State) (u : address) :
  _kyc s' = _kyc s -> isKYCApproved now s' u = isKYCApproved now s u.
Proof. intros H. unfold isKYCApproved, kycOf. rewrite H. reflexivity. Qed.

Lemma isKYCApproved_record (now : uint256) (s : State) (u : address)
    (lvl exp : Z) :
  kycOf s u = {| approved := true; level := lvl; expiresAt := exp |} ->
  isKYCApproved now s u = (exp =? 0) || (now <=? exp).
Proof.
  intros H. unfold isKYCApproved. rewrite H. simpl.
  destruct (exp =? 0); reflexivity.
Qed.

Lemma approveFromRequest_Ok (m : Msg) (user : address) (lvl exp : Z)
    (s s1 : State) :
  approveFromRequest m user lvl exp s = Ok s1 ->
  pendingOf s user <> 0 /\
  kycOf s1 user = {| approved := true; level := lvl; expiresAt := exp |} /\
  pendingOf s1 user = 0 /\
  _roles s1 = _roles s.
Proof.
  intros H. unfold approveFromRequest in H. inv_ok H. subst s1.
  apply negb_true_iff, Z.eqb_neq in Hstep0.
  split; [exact Hstep0|]. split; [apply kycOf_insert_eq|].
  split; [|reflexivity].
  unfold pendingOf; simpl. rewrite lookup_insert_eq. reflexivity.
Qed.

Lemma approveFromRequest_returns (m : Msg) (user : address) (lvl exp : Z)
    (s : State) :
  hasRole s COMPLIANCE_ROLE (msg_sender m) = true ->
  isKYCApproved (block_timestamp m) s (msg_sender m) = true ->
  pendingOf s user <> 0 ->
  exists s1, approveFromRequest m user lvl exp s = Ok s1.
Proof.
  intros Hrole Hkyc Hp. unfold approveFromRequest.
  rewrite (onlyComplianceApproved_Ok m s Hrole Hkyc). simpl.
  destruct (Z.eqb_spec (pendingOf s user) 0) as [|_]; [contradiction|].
  simpl. eauto.
Qed.

End RegistryLifecycle.

(** X1. Right after construction the admin, and nobody else, is KYC-approved,
    at every time; so the first request a user publishes can be approved by
    the admin at once, and the user is approved from then on when no expiry
    is given. *)
Theorem constructor_bootstraps_admin
    (admin user : address) (h lvl : Z) (m_req m_adm : Msg) :
  (forall now u,
     KYCRegistry.isKYCApproved now (KYCRegistry.constructor admin) u
       = (u =? admin)) /\
  (msg_sender m_req = user -> msg_sender m_adm = admin -> h <> 0 ->
   exists s1 s2,
     KYCRegistry.requestKYC m_req h (KYCRegistry.constructor admin) = Ok s1 /\
     KYCRegistry.approveFromRequest m_adm user lvl 0 s1 = Ok s2 /\
     forall now, KYCRegistry.isKYCApproved now s2 user = true).
Proof.
  assert (Hboot : forall now u,
    KYCRegistry.isKYCApproved now (KYCRegistry.constructor admin) u
      = (u =? admin)).
  { intros now u. unfold KYCRegistry.isKYCApproved, KYCRegistry.kycOf. simpl.
    destruct (Z.eqb_spec u admin) as [->|Hne].
    - rewrite lookup_singleton_eq. reflexivity.
    - rewrite lookup_singleton_ne by congruence. reflexivity. }
  split; [exact Hboot|].
  intros Hreq Hadm Hh.
  unfold KYCRegistry.requestKYC.
  destruct (Z.eqb_spec h 0) as [|_]; [contradiction|]. simpl.
  eexists. match goal with |- exists s2, Ok ?x = Ok _ /\ _ => set (s1 := x) end.
  destruct (approveFromRequest_returns m_adm user lvl 0 s1) as [s2 Hs2].
  - unfold KYCRegistry.hasRole. simpl. rewrite Hadm, Z.eqb_refl. reflexivity.
  - rewrite (isKYCApproved_same_records _ (KYCRegistry.constructor admin) s1)
      by reflexivity.
    rewrite Hboot, Hadm. apply Z.eqb_refl.
  - unfold KYCRegistry.pendingOf. simpl. rewrite Hreq, lookup_insert_eq.
    exact Hh.
  - exists s2. split; [reflexivity|]. split; [exact Hs2|].
    destruct (approveFromRequest_Ok _ _ _ _ _ _ Hs2) as (_ & Hrec & _).
    intros now. rewrite (isKYCApproved_record now s2 user lvl 0 Hrec).
    reflexivity.
Qed.

Lemma constructor_bootstraps_admin_witness :
  KYCRegistry.isKYCApproved 5 (KYCRegistry.constructor 1) 1 = true /\
  KYCRegistry.isKYCApproved 5 (KYCRegistry.constructor 1) 2 = false /\
  exists s1 s2,
    KYCRegistry.requestKYC (call_from 2) 7 (KYCRegistry.constructor 1) = Ok s1 /\
    KYCRegistry.approveFromRequest officer_call 2 1 0 s1 = Ok s2 /\
    KYCRegistry.isKYCApproved 99999 s2 2 = true.
Proof.
  destruct (constructor_bootstraps_admin 1 2 7 1 (call_from 2) officer_call)
    as [Hboot Hflow].
  split; [rewrite Hboot; reflexivity|]. split; [rewrite Hboot; reflexivity|].
  destruct Hflow as (s1 & s2 & H1 & H2 & H3);
    [reflexivity | reflexivity | discriminate |].
  exists s1, s2. split; [exact H1|]. split; [exact H2 | apply H3].
Defined.

(** X2. [requestKYC] refuses the zero hash. Any other hash becomes the
    pending commitment of the sender, replacing the one before it (the last
    request wins); the commitments of other accounts and every KYC record,
    the sender's own included, stay as they are. *)
Theorem requestKYC_last_write_wins (m : Msg) (h : bytes32) (s : KYCRegistry.State) :
  (h = 0 -> KYCRegistry.requestKYC m h s = Revert (Error "kycHash=0")) /\
  (h <> 0 ->
   exists s1,
     KYCRegistry.requestKYC m h s = Ok s1 /\
     KYCRegistry.pendingOf s1 (msg_sender m) = h /\
     (forall u, u <> msg_sender m ->
        KYCRegistry.pendingOf s1 u = KYCRegistry.pendingOf s u) /\
     (forall now u,
        KYCRegistry.isKYCApproved now s1 u = KYCRegistry.isKYCApproved now s u) /\
     KYCRegistry._kyc s1 = KYCRegistry._kyc s /\
     forall h', h' <> 0 ->
       exists s2,
         KYCRegistry.requestKYC m h' s1 = Ok s2 /\
         KYCRegistry.pendingOf s2 (msg_sender m) = h').
Proof.
  split.
  - intros ->. reflexivity.
  - intros Hh. unfold KYCRegistry.requestKYC at 1.
    destruct (Z.eqb_spec h 0) as [|_]; [contradiction|]. simpl.
    eexists. split; [reflexivity|].
    split; [unfold KYCRegistry.pendingOf; simpl; rewrite lookup_insert_eq;
            reflexivity|].
    split.
    { intros u Hu. unfold KYCRegistry.pendingOf; simpl.
      rewrite lookup_insert_ne by congruence. reflexivity. }
    split; [intros now u; apply isKYCApproved_same_records; reflexivity|].
    split; [reflexivity|].
    intros h' Hh'. unfold KYCRegistry.requestKYC.
    destruct (Z.eqb_spec h' 0) as [|_]; [contradiction|]. simpl.
    eexists. split; [reflexivity|].
    unfold KYCRegistry.pendingOf; simpl. rewrite lookup_insert_eq. reflexivity.
Qed.

Lemma requestKYC_last_write_wins_witness :
  KYCRegistry.pendingOf registry_verified 2 = 9 /\
  KYCRegistry.isKYCApproved 100 registry_verified 2 = true /\
  exists s1,
    KYCRegistry.requestKYC (call_from 2) 11 registry_verified = Ok s1 /\
    KYCRegistry.pendingOf s1 2 = 11 /\
    KYCRegistry.isKYCApproved 100 s1 2 = true.
Proof.
  split; [reflexivity|]. split; [reflexivity|].
  destruct (requestKYC_last_write_wins (call_from 2) 11 registry_verified)
    as [_ H].
  destruct H as (s1 & Hok & Hp & _ & Hsame & _); [discriminate|].
  exists s1. split; [exact Hok|]. split; [exact Hp|].
  rewrite Hsame. reflexivity.
Defined.

(** X3. An approval with expiry [exp] makes the account approved at the
    times [now <= exp], and at all times when [exp] is 0; the expiry is not
    compared with the time of the approval, so an approval whose expiry has
    already passed stores an approved record that is not approved at any
    later reading. In any registry state, an account approved at some time
    is approved at every earlier time. *)
Theorem approval_valid_until_expiry
    (m : Msg) (user : address) (lvl exp : Z) (s s1 : KYCRegistry.State) :
  KYCRegistry.approveFromRequest m user lvl exp s = Ok s1 ->
  (forall now,
     KYCRegistry.isKYCApproved now s1 user = (exp =? 0) || (now <=? exp)) /\
  (exp <> 0 -> exp < block_timestamp m ->
   forall now, block_timestamp m <= now ->
     KYCRegistry.isKYCApproved now s1 user = false) /\
  (forall (s' : KYCRegistry.State) u now now',
     now <= now' ->
     KYCRegistry.isKYCApproved now' s' u = true ->
     KYCRegistry.isKYCApproved now s' u = true).
Proof.
  intros H.
  destruct (approveFromRequest_Ok _ _ _ _ _ _ H) as (_ & Hrec & _).
  split; [intros now; apply (isKYCApproved_record now s1 user lvl exp Hrec)|].
  split.
  - intros Hexp Hpast now Hnow.
    rewrite (isKYCApproved_record now s1 user lvl exp Hrec).
    destruct (Z.eqb_spec exp 0) as [|_]; [contradiction|].
    destruct (Z.leb_spec now exp); [lia | reflexivity].
  - intros s' u now now' Hle. unfold KYCRegistry.isKYCApproved.
    destruct (negb (KYCRegistry.approved (KYCRegistry.kycOf s' u)));
      [discriminate|].
    destruct (KYCRegistry.expiresAt (KYCRegistry.kycOf s' u) =? 0);
      [reflexivity|].
    intros H'. apply Z.leb_le in H'. apply Z.leb_le. lia.
Qed.

Lemma approval_valid_until_expiry_witness :
  KYCRegistry.isKYCApproved 500 registry_verified 2 = true /\
  KYCRegistry.isKYCApproved 501 registry_verified 2 = false /\
  exists s1,
    KYCRegistry.approveFromRequest officer_call 2 3 500 registry_pending = Ok s1 /\
    KYCRegistry.isKYCApproved 500 s1 2 = true /\
    KYCRegistry.isKYCApproved 501 s1 2 = false.
Proof.
  split; [reflexivity|]. split; [reflexivity|].
  eexists. split; [reflexivity|].
  match goal with
  | |- KYCRegistry.isKYCApproved _ ?x _ = _ /\ _ =>
      destruct (approval_valid_until_expiry officer_call 2 3 500
                  registry_pending x eq_refl) as (Hf & _)
  end.
  split; rewrite Hf; reflexivity.
Defined.

(** X4. The access check reads the officer's own record: once an officer's
    record has been revoked, the officer's own approvals and revocations are
    refused with the message that the admin must be KYC-approved, although
    the compliance role is still held. An officer can do this to itself. *)
Theorem revoked_officer_is_locked_out
    (m : Msg) (officer : address) (s s1 : KYCRegistry.State) :
  KYCRegistry.hasRole s COMPLIANCE_ROLE officer = true ->
  KYCRegistry.revokeKYC m officer s = Ok s1 ->
  forall (m' : Msg) (user : address) (lvl exp : Z),
    msg_sender m' = officer ->
    KYCRegistry.approveFromRequest m' user lvl exp s1
      = Revert (Error "Admin must be KYC-approved") /\
    KYCRegistry.approveKYC m' user s1
      = Revert (Error "Admin must be KYC-approved") /\
    KYCRegistry.revokeKYC m' user s1
      = Revert (Error "Admin must be KYC-approved").
Proof.
  intros Hrole Hrev m' user lvl exp Hsender.
  assert (Hmod : KYCRegistry.onlyComplianceApproved m' s1
                 = Revert (Error "Admin must be KYC-approved")).
  { unfold KYCRegistry.revokeKYC in Hrev. inv_ok Hrev. subst s1.
    apply onlyComplianceApproved_not_approved; rewrite Hsender.
    - exact Hrole.
    - apply isKYCApproved_not_approved. unfold KYCRegistry.kycOf. simpl.
      rewrite lookup_insert_eq. reflexivity. }
  unfold KYCRegistry.approveFromRequest, KYCRegistry.approveKYC,
    KYCRegistry.revokeKYC.
  rewrite Hmod. auto.
Qed.

Lemma revoked_officer_is_locked_out_witness :
  exists s1,
    KYCRegistry.revokeKYC officer_call 1 registry_pending = Ok s1 /\
    KYCRegistry.approveFromRequest officer_call 2 1 0 s1
      = Revert (Error "Admin must be KYC-approved").
Proof.
  eexists. split; [reflexivity|].
  match goal with
  | |- KYCRegistry.approveFromRequest _ _ _ _ ?x = _ =>
      apply (revoked_officer_is_locked_out officer_call 1 registry_pending x
               eq_refl eq_refl officer_call 2 1 0 eq_refl)
  end.
Defined.

(** X5. An approval consumes the request it was based on, and a revocation
    does not bring it back: after an account was approved and then revoked,
    it is not approved at any time, and no approval for it returns until the
    account publishes a new request. *)
Theorem revoked_account_needs_new_request
    (m m' : Msg) (user : address) (lvl exp : Z) (s s1 s2 : KYCRegistry.State) :
  KYCRegistry.approveFromRequest m user lvl exp s = Ok s1 ->
  KYCRegistry.revokeKYC m' user s1 = Ok s2 ->
  (forall now, KYCRegistry.isKYCApproved now s2 user = false) /\
  KYCRegistry.pendingOf s2 user = 0 /\
  (forall m'' lvl' exp' s3,
     KYCRegistry.approveFromRequest m'' user lvl' exp' s2 <> Ok s3) /\
  (forall m'' s3, KYCRegistry.approveKYC m'' user s2 <> Ok s3).
Proof.
  intros Happ Hrev.
  destruct (approveFromRequest_Ok _ _ _ _ _ _ Happ) as (_ & _ & Hpend & _).
  unfold KYCRegistry.revokeKYC in Hrev. inv_ok Hrev. subst s2.
  assert (Hpend2 : forall r k,
    KYCRegistry.pendingOf
      {| KYCRegistry._roles := r; KYCRegistry._kyc := k;
         KYCRegistry.pendingKycHash := KYCRegistry.pendingKycHash s1 |} user = 0)
    by (intros; exact Hpend).
  split.
  { intros now. apply isKYCApproved_not_approved. unfold KYCRegistry.kycOf.
    simpl. rewrite lookup_insert_eq. reflexivity. }
  split; [apply Hpend2|].
  split.
  - intros m'' lvl' exp' s3 H. unfold KYCRegistry.approveFromRequest in H.
    inv_ok H. rewrite Hpend2 in Hstep1. discriminate.
  - intros m'' s3 H. unfold KYCRegistry.approveKYC in H.
    inv_ok H. rewrite Hpend2 in Hstep1. discriminate.
Qed.

Lemma revoked_account_needs_new_request_witness :
  exists s1 s2,
    KYCRegistry.approveFromRequest officer_call 2 1 0 registry_pending = Ok s1 /\
    KYCRegistry.revokeKYC officer_call 2 s1 = Ok s2 /\
    KYCRegistry.isKYCApproved 100 s2 2 = false /\
    KYCRegistry.approveFromRequest officer_call 2 1 0 s2
      = Revert (Error "No on-chain pending request").
Proof.
  eexists. eexists. split; [reflexivity|]. split; [reflexivity|].
  match goal with
  | |- KYCRegistry.isKYCApproved _ ?x2 _ = _ /\ _ =>
      destruct (revoked_account_needs_new_request officer_call officer_call
                  2 1 0 registry_pending _ x2 eq_refl eq_refl) as (Hno & _)
  end.
  split; [apply Hno | reflexivity].
Defined.

(** ** DepositToken: system addresses *)

(** X6. Only the token admin can mark system addresses; anybody else gets
    the access-control error. A call by the admin returns; it changes the
    flag of [who] only, and no balance, no allowance, no role and not the
    total supply. Afterwards [who] is stopped by the KYC gate of [_update]
    exactly when it is disabled and the registry does not approve it. So
    once a non-zero [who] is enabled, every transfer to it returns that is
    sent by a non-zero account other than [who] which itself passes the gate
    and holds the amount, whatever the registry says about [who]. *)
Theorem setSystemAddress_opens_the_gate
    (m : Msg) (who : address) (enabled : bool) (s : DepositToken.State) :
  (DepositToken.hasRole s DEFAULT_ADMIN_ROLE (msg_sender m) = false ->
   DepositToken.setSystemAddress m who enabled s
     = Revert (AccessControlUnauthorizedAccount (msg_sender m) DEFAULT_ADMIN_ROLE)) /\
  (DepositToken.hasRole s DEFAULT_ADMIN_ROLE (msg_sender m) = true ->
   exists s1,
     DepositToken.setSystemAddress m who enabled s = Ok s1 /\
     DepositToken.isSystem s1 who = enabled /\
     (forall u, u <> who -> DepositToken.isSystem s1 u = DepositToken.isSystem s u) /\
     (forall u, DepositToken.balanceOf s1 u = DepositToken.balanceOf s u) /\
     DepositToken.totalSupply s1 = DepositToken.totalSupply s /\
     (forall owner spender,
        DepositToken.allowance s1 owner spender
          = DepositToken.allowance s owner spender) /\
     (forall r account,
        DepositToken.hasRole s1 r account = DepositToken.hasRole s r account) /\
     (forall kyc now,
        DepositToken.blocked kyc now s1 who
          = negb enabled && negb (KYCRegistry.isKYCApproved now kyc who)) /\
     (enabled = true ->
      forall kyc (m' : Msg) (amount : uint256),
        msg_sender m' <> 0 -> who <> 0 ->
        DepositToken.blocked kyc (block_timestamp m') s (msg_sender m') = false ->
        msg_sender m' <> who ->
        amount <= DepositToken.balanceOf s (msg_sender m') ->
        exists s2, DepositToken.transfer kyc m' who amount s1 = Ok s2)).
Proof.
  split.
  - intros H. unfold DepositToken.setSystemAddress, DepositToken.onlyRole.
    rewrite H. reflexivity.
  - intros H. unfold DepositToken.setSystemAddress, DepositToken.onlyRole.
    rewrite H. simpl. eexists. split; [reflexivity|].
    assert (Hflag : forall r b a ts,
      DepositToken.isSystem
        {| DepositToken._roles := r; DepositToken._balances := b;
           DepositToken._allowances := a; DepositToken._totalSupply := ts;
           DepositToken.isSystemAddress :=
             <[ who := enabled ]> (DepositToken.isSystemAddress s) |} who
      = enabled).
    { intros. unfold DepositToken.isSystem; simpl. rewrite lookup_insert_eq.
      reflexivity. }
    assert (Hother : forall r b a ts u, u <> who ->
      DepositToken.isSystem
        {| DepositToken._roles := r; DepositToken._balances := b;
           DepositToken._allowances := a; DepositToken._totalSupply := ts;
           DepositToken.isSystemAddress :=
             <[ who := enabled ]> (DepositToken.isSystemAddress s) |} u
      = DepositToken.isSystem s u).
    { intros. unfold DepositToken.isSystem; simpl.
      rewrite lookup_insert_ne by congruence. reflexivity. }
    split; [apply Hflag|]. split; [intros u Hu; apply Hother, Hu|].
    split; [reflexivity|]. split; [reflexivity|].
    split; [reflexivity|]. split; [reflexivity|].
    split; [intros kyc now; unfold DepositToken.blocked; rewrite Hflag;
            reflexivity|].
    intros -> kyc m' amount Hs Hw Hb Hne Hcov.
    apply _transfer_returns; try assumption.
    + unfold DepositToken.blocked in *. rewrite Hother by exact Hne. exact Hb.
    + unfold DepositToken.blocked. rewrite Hflag. reflexivity.
Qed.

Lemma setSystemAddress_opens_the_gate_witness :
  DepositToken.blocked registry_customers 100 token_after_history 30 = true /\
  exists s1,
    DepositToken.setSystemAddress (call_from 1) 30 true token_after_history
      = Ok s1 /\
    DepositToken.blocked registry_customers 100 s1 30 = false /\
    exists s2,
      DepositToken.transfer registry_customers (call_from 2) 30 50 s1 = Ok s2.
Proof.
  split; [vm_compute; reflexivity|].
  destruct (setSystemAddress_opens_the_gate (call_from 1) 30 true
              token_after_history) as [_ H].
  destruct H as (s1 & Hok & _ & _ & _ & _ & _ & _ & Hgate & Hsend);
    [vm_compute; reflexivity|].
  exists s1. split; [exact Hok|].
  split; [rewrite Hgate; reflexivity|].
  apply (Hsend eq_refl registry_customers (call_from 2) 50).
  - discriminate.
  - discriminate.
  - vm_compute; reflexivity.
  - discriminate.
  - vm_compute; discriminate.
Defined.

(** ** BankVault: deposits, withdrawals and the ether that backs the token *)

Section VaultOperations.
Import BankVault.

Lemma _transfer_supply kyc now (from to : address) (value : uint256)
    (s s' : DepositToken.State) :
  DepositToken._transfer kyc now from to value s = Ok s' ->
  DepositToken._totalSupply s' = DepositToken._totalSupply s.
Proof.
  unfold DepositToken._transfer, DepositToken._update. intros H.
  destruct (Z.eqb_spec from 0) as [|Hf]; [discriminate|].
  destruct (Z.eqb_spec to 0) as [|Ht]; [discriminate|].
  simpl in H.
  destruct (DepositToken.blocked kyc now s from); [discriminate|].
  destruct (DepositToken.blocked kyc now s to); [discriminate|].
  simpl in H. unfold DepositToken.ERC20_update in H.
  destruct (Z.eqb_spec from 0) as [|_]; [contradiction|].
  destruct (DepositToken.balanceOf s from <? value); [discriminate|].
  simpl in H.
  destruct (Z.eqb_spec to 0) as [|_]; [contradiction|].
  injection H as <-. reflexivity.
Qed.

Lemma transferFrom_supply kyc (m : Msg) (from to : address) (value : uint256)
    (s s' : DepositToken.State) :
  DepositToken.transferFrom kyc m from to value s = Ok s' ->
  DepositToken._totalSupply s' = DepositToken._totalSupply s.
Proof.
  unfold DepositToken.transferFrom. intros H.
  apply bind_Ok in H as (s0 & Hspend & H).
  apply _spendAllowance_ledger in Hspend as (_ & Hts & _).
  apply _transfer_supply in H. congruence.
Qed.

(** What a returning [deposit] went through. *)
Lemma deposit_Ok kyc (m : Msg) (w w1 : World) :
  deposit kyc m w = Ok w1 ->
  _status (vault w) = NOT_ENTERED /\
  KYCRegistry.isKYCApproved (block_timestamp m) kyc (msg_sender m) = true /\
  0 < msg_value m /\
  msg_value m <= etherOf (ether w) (msg_sender m) /\
  exists t1,
    DepositToken.mint kyc (asVault m w) (msg_sender m) (msg_value m) (token w)
      = Ok t1 /\
    token w1 = t1 /\
    ether w1 = move_ether (msg_sender m) (this (vault w)) (msg_value m) (ether w) /\
    this (vault w1) = this (vault w) /\
    _roles (vault w1) = _roles (vault w) /\
    _status (vault w1) = NOT_ENTERED.
Proof.
  intros Hdep. unfold deposit in Hdep.
  apply bind_Ok in Hdep as (w0 & Hrecv & Hdep).
  unfold receive_value in Hrecv.
  apply bind_Ok in Hrecv as (u & Hfunds & Hrecv).
  apply revert_if_Ok in Hfunds. apply Z.ltb_ge in Hfunds.
  injection Hrecv as <-.
  apply vault_nonReentrant_Ok in Hdep as (Hst & wb & Hbody & ->).
  cbn [vault token ether] in Hst, Hbody.
  inv_ok Hbody. subst wb.
  apply Z.ltb_lt in Hstep0. apply negb_false_iff in Hstep.
  cbn [token] in Hstep1.
  repeat (split; [assumption|]).
  exists r1. split; [exact Hstep1|]. repeat split.
Qed.

(** What a returning [withdraw] went through. *)
Lemma withdraw_Ok kyc (accepts : address -> uint256 -> bool) (m : Msg)
    (amount : uint256) (w w1 : World) :
  withdraw kyc accepts m amount w = Ok w1 ->
  _status (vault w) = NOT_ENTERED /\
  KYCRegistry.isKYCApproved (block_timestamp m) kyc (msg_sender m) = true /\
  0 < amount /\
  amount <= etherOf (ether w) (this (vault w)) /\
  accepts (msg_sender m) amount = true /\
  exists t1,
    DepositToken.burn kyc (asVault m w) (msg_sender m) amount (token w) = Ok t1 /\
    token w1 = t1 /\
    ether w1 = move_ether (this (vault w)) (msg_sender m) amount (ether w) /\
    this (vault w1) = this (vault w) /\
    _roles (vault w1) = _roles (vault w) /\
    _status (vault w1) = NOT_ENTERED.
Proof.
  intros H. unfold withdraw in H.
  apply vault_nonReentrant_Ok in H as (Hst & wb & Hbody & ->).
  apply bind_Ok in Hbody as (u & Hkyc & Hbody).
  apply revert_if_Ok, negb_false_iff in Hkyc.
  apply bind_Ok in Hbody as (u' & Hamt & Hbody).
  apply require_Ok, Z.ltb_lt in Hamt.
  apply bind_Ok in Hbody as (t1 & Hburn & Hbody).
  cbn [token] in Hburn.
  unfold call_value in Hbody.
  cbn [vault token ether with_token] in Hbody.
  change (this (set_status ENTERED (vault w))) with (this (vault w)) in Hbody.
  destruct (Z.ltb_spec (etherOf (ether w) (this (vault w))) amount) as [|Hcov];
    [discriminate|].
  destruct (accepts (msg_sender m) amount) eqn:Hacc; [|discriminate].
  simpl in Hbody. injection Hbody as <-.
  repeat (split; [assumption|]). split; [reflexivity|].
  exists t1. split; [exact Hburn|]. repeat split.
Qed.

Lemma burn_Ok kyc (m : Msg) (from : address) (amount : uint256)
    (s s' : DepositToken.State) :
  0 <= amount -> token_inv s ->
  DepositToken.burn kyc m from amount s = Ok s' ->
  amount <= DepositToken.balanceOf s from /\
  DepositToken.balanceOf s' from = DepositToken.balanceOf s from - amount /\
  (forall x, x <> from -> DepositToken.balanceOf s' x = DepositToken.balanceOf s x) /\
  DepositToken._totalSupply s' = DepositToken._totalSupply s - amount.
Proof.
  intros Hv Hinv H.
  assert (Hconds :
    from <> 0 /\ DepositToken.hasRole s MINTER_ROLE (msg_sender m) = true /\
    DepositToken.blocked kyc (block_timestamp m) s from = false /\
    amount <= DepositToken.balanceOf s from).
  { unfold DepositToken.burn, DepositToken.onlyRole, DepositToken._burn,
      DepositToken._update in H.
    destruct (DepositToken.hasRole s MINTER_ROLE (msg_sender m)); [|discriminate].
    simpl in H.
    destruct (Z.eqb_spec from 0) as [|Hf]; [discriminate|]. simpl in H.
    destruct (DepositToken.blocked kyc (block_timestamp m) s from);
      [discriminate|].
    simpl in H. unfold DepositToken.ERC20_update in H.
    destruct (Z.eqb_spec from 0) as [|_]; [contradiction|].
    destruct (Z.ltb_spec (DepositToken.balanceOf s from) amount);
      [discriminate|]. auto. }
  destruct Hconds as (Hf & Hrole & Hb & Hcov).
  destruct (burn_returns kyc m from amount s Hv Hinv Hf Hrole Hb Hcov)
    as (s2 & Hs2 & H1 & H2 & H3 & _).
  rewrite H in Hs2. injection Hs2 as <-. auto.
Qed.

End VaultOperations.

(** X7. A returning [deposit] is a one-to-one exchange: the value sent is
    positive, it leaves the ether balance of the caller and reaches the
    vault, and the same number of token units is minted to the caller, so
    the total supply grows by it; no other balance changes. *)
Theorem deposit_mints_one_to_one
    (kyc : KYCRegistry.State) (m : Msg) (w w1 : BankVault.World) :
  token_inv (BankVault.token w) ->
  msg_sender m <> BankVault.this (BankVault.vault w) ->
  BankVault.deposit kyc m w = Ok w1 ->
  let v := msg_value m in
  let caller := msg_sender m in
  let vault_addr := BankVault.this (BankVault.vault w) in
  0 < v /\
  DepositToken.balanceOf (BankVault.token w1) caller
    = DepositToken.balanceOf (BankVault.token w) caller + v /\
  DepositToken.totalSupply (BankVault.token w1)
    = DepositToken.totalSupply (BankVault.token w) + v /\
  BankVault.etherOf (BankVault.ether w1) caller
    = BankVault.etherOf (BankVault.ether w) caller - v /\
  BankVault.etherOf (BankVault.ether w1) vault_addr
    = BankVault.etherOf (BankVault.ether w) vault_addr + v /\
  (forall x, x <> caller ->
     DepositToken.balanceOf (BankVault.token w1) x
       = DepositToken.balanceOf (BankVault.token w) x) /\
  (forall x, x <> caller -> x <> vault_addr ->
     BankVault.etherOf (BankVault.ether w1) x
       = BankVault.etherOf (BankVault.ether w) x).
Proof.
  intros Hinv Hne Hdep v caller vault_addr. subst v caller vault_addr.
  apply deposit_Ok in Hdep
    as (_ & _ & Hpos & _ & t1 & Hmint & Ht & He & _).
  apply mint_Ok in Hmint as [_ _ _ Hto Hoth Hsup _ _ _]; [|lia|exact Hinv].
  rewrite Ht, He. unfold DepositToken.totalSupply.
  split; [exact Hpos|]. split; [exact Hto|]. split; [exact Hsup|].
  rewrite !etherOf_move_ether.
  split.
  { rewrite Z.eqb_refl.
    destruct (Z.eqb_spec (msg_sender m) (BankVault.this (BankVault.vault w)));
      [contradiction | lia]. }
  split.
  { rewrite Z.eqb_refl.
    destruct (Z.eqb_spec (BankVault.this (BankVault.vault w)) (msg_sender m));
      [congruence | lia]. }
  split; [exact Hoth|].
  intros x Hx1 Hx2. rewrite etherOf_move_ether.
  destruct (Z.eqb_spec x (msg_sender m)); [contradiction|].
  destruct (Z.eqb_spec x (BankVault.this (BankVault.vault w))); [contradiction|].
  lia.
Qed.

Lemma deposit_mints_one_to_one_witness :
  DepositToken.balanceOf (BankVault.token vault_after_deposit) 2
    = DepositToken.balanceOf (BankVault.token vault_deployed) 2 + 100 /\
  BankVault.etherOf (BankVault.ether vault_after_deposit) 20
    = BankVault.etherOf (BankVault.ether vault_deployed) 20 + 100.
Proof.
  destruct (deposit_mints_one_to_one registry_customers deposit_call
              vault_deployed vault_after_deposit)
    as (_ & Hbal & _ & _ & Hvault & _).
  - apply token_inv_decide; vm_compute; reflexivity.
  - vm_compute; discriminate.
  - vm_compute; reflexivity.
  - split; [exact Hbal | exact Hvault].
Defined.

(** X8. A returning [withdraw] is the reverse exchange: the caller held at
    least [amount] token units and the vault at least [amount] wei; the
    units are burnt, so the total supply drops by [amount], and the same
    number of wei goes from the vault to the caller. *)
Theorem withdraw_burns_and_pays
    (kyc : KYCRegistry.State) (accepts : address -> uint256 -> bool)
    (m : Msg) (amount : uint256) (w w1 : BankVault.World) :
  token_inv (BankVault.token w) ->
  msg_sender m <> BankVault.this (BankVault.vault w) ->
  BankVault.withdraw kyc accepts m amount w = Ok w1 ->
  let caller := msg_sender m in
  let vault_addr := BankVault.this (BankVault.vault w) in
  0 < amount /\
  amount <= DepositToken.balanceOf (BankVault.token w) caller /\
  amount <= BankVault.etherOf (BankVault.ether w) vault_addr /\
  DepositToken.balanceOf (BankVault.token w1) caller
    = DepositToken.balanceOf (BankVault.token w) caller - amount /\
  DepositToken.totalSupply (BankVault.token w1)
    = DepositToken.totalSupply (BankVault.token w) - amount /\
  BankVault.etherOf (BankVault.ether w1) caller
    = BankVault.etherOf (BankVault.ether w) caller + amount /\
  BankVault.etherOf (BankVault.ether w1) vault_addr
    = BankVault.etherOf (BankVault.ether w) vault_addr - amount.
Proof.
  intros Hinv Hne H caller vault_addr. subst caller vault_addr.
  apply withdraw_Ok in H
    as (_ & _ & Hpos & Hcov & _ & t1 & Hburn & Ht & He & _).
  apply burn_Ok in Hburn as (Hbal & Hfrom & _ & Hsup); [|lia|exact Hinv].
  rewrite Ht, He. unfold DepositToken.totalSupply.
  rewrite !etherOf_move_ether, !Z.eqb_refl.
  repeat (split; [assumption|]).
  destruct (Z.eqb_spec (msg_sender m) (BankVault.this (BankVault.vault w)));
    [contradiction|].
  destruct (Z.eqb_spec (BankVault.this (BankVault.vault w)) (msg_sender m));
    [congruence|].
  split; lia.
Qed.

Lemma withdraw_burns_and_pays_witness :
  exists w1,
    BankVault.withdraw registry_customers accept_all (call_from 2) 60
      vault_after_deposit = Ok w1 /\
    DepositToken.balanceOf (BankVault.token w1) 2 = 110 /\
    BankVault.etherOf (BankVault.ether w1) 2 = 960.
Proof.
  eexists. split; [vm_compute; reflexivity|].
  match goal with
  | |- DepositToken.balanceOf (BankVault.token ?x) _ = _ /\ _ =>
      destruct (withdraw_burns_and_pays registry_customers accept_all
                  (call_from 2) 60 vault_after_deposit x)
        as (_ & _ & _ & Hbal & _ & Heth & _)
  end.
  - apply token_inv_decide; vm_compute; reflexivity.
  - vm_compute; discriminate.
  - vm_compute; reflexivity.
  - change (msg_sender (call_from 2)) with 2 in Hbal, Heth.
    rewrite Hbal, Heth. split; vm_compute; reflexivity.
Defined.

Section VaultTransfers.
Import BankVault.

Lemma _transfer_inv kyc now (from to : address) (value : uint256)
    (s s' : DepositToken.State) :
  0 <= value -> token_inv s ->
  DepositToken._transfer kyc now from to value s = Ok s' -> token_inv s'.
Proof.
  intros Hv Hinv H. unfold DepositToken._transfer in H. inv_ok H.
  eapply _update_inv; eassumption.
Qed.

Lemma transferFrom_inv kyc (m : Msg) (from to : address) (value : uint256)
    (s s' : DepositToken.State) :
  0 <= value -> token_inv s ->
  DepositToken.transferFrom kyc m from to value s = Ok s' -> token_inv s'.
Proof.
  intros Hv Hinv H. unfold DepositToken.transferFrom in H.
  apply bind_Ok in H as (s0 & Hspend & H).
  apply _spendAllowance_ledger in Hspend as (Hb & Hts & _).
  eapply _transfer_inv; [exact Hv| |exact H].
  apply (token_inv_same_ledger s); assumption.
Qed.

Lemma burn_inv kyc (m : Msg) (from : address) (amount : uint256)
    (s s' : DepositToken.State) :
  0 <= amount -> token_inv s ->
  DepositToken.burn kyc m from amount s = Ok s' -> token_inv s'.
Proof.
  intros Hv Hinv H. unfold DepositToken.burn, DepositToken._burn in H.
  inv_ok H. eapply _update_inv; eassumption.
Qed.

(** What a returning [transferBKD] went through. *)
Lemma transferBKD_Ok kyc (m : Msg) (to : address) (amount : uint256)
    (w w1 : World) :
  transferBKD kyc m to amount w = Ok w1 ->
  _status (vault w) = NOT_ENTERED /\
  KYCRegistry.isKYCApproved (block_timestamp m) kyc (msg_sender m) = true /\
  KYCRegistry.isKYCApproved (block_timestamp m) kyc to = true /\
  0 < amount /\
  exists t1,
    DepositToken.transferFrom kyc (asVault m w) (msg_sender m) (this (vault w))
      amount (token w) = Ok t1 /\
    DepositToken.transfer kyc (asVault m w) to amount t1 = Ok (token w1) /\
    ether w1 = ether w /\
    this (vault w1) = this (vault w) /\
    _roles (vault w1) = _roles (vault w) /\
    _status (vault w1) = NOT_ENTERED.
Proof.
  intros H. unfold transferBKD in H.
  apply vault_nonReentrant_Ok in H as (Hst & wb & Hbody & ->).
  inv_ok Hbody. subst wb.
  apply negb_false_iff in Hstep. apply negb_false_iff in Hstep0.
  apply Z.ltb_lt in Hstep1.
  repeat (split; [assumption|]).
  exists r2. split; [exact Hstep2|]. split; [exact Hstep3|]. repeat split.
Qed.

Lemma vault_exec_keeps_surplus kyc (accepts : address -> uint256 -> bool)
    (m : Msg) (c : vault_call) (w w1 : World) :
  token_inv (token w) ->
  msg_sender m <> this (vault w) ->
  vault_exec kyc accepts m c w = Ok w1 ->
  backing_surplus w1 = backing_surplus w /\
  token_inv (token w1) /\
  this (vault w1) = this (vault w).
Proof.
  intros Hinv Hne H. unfold backing_surplus, DepositToken.totalSupply.
  destruct c as [|amount|to amount]; simpl in H.
  - apply deposit_Ok in H
      as (_ & _ & Hpos & _ & t1 & Hmint & Ht & He & Hthis & _).
    apply mint_Ok in Hmint as [_ _ _ _ _ Hsup _ _ Hinv1]; [|lia|exact Hinv].
    rewrite Ht, He, Hthis, Hsup, etherOf_move_ether, Z.eqb_refl.
    destruct (Z.eqb_spec (this (vault w)) (msg_sender m)); [congruence|].
    split; [lia|]. split; [exact Hinv1 | reflexivity].
  - apply withdraw_Ok in H
      as (_ & _ & Hpos & _ & _ & t1 & Hburn & Ht & He & Hthis & _).
    assert (Hnn : 0 <= amount) by lia.
    pose proof (burn_inv _ _ _ _ _ _ Hnn Hinv Hburn) as Hinv1.
    apply burn_Ok in Hburn as (_ & _ & _ & Hsup); [|lia|exact Hinv].
    rewrite Ht, He, Hthis, Hsup, etherOf_move_ether, Z.eqb_refl.
    destruct (Z.eqb_spec (this (vault w)) (msg_sender m)); [congruence|].
    split; [lia|]. split; [exact Hinv1 | reflexivity].
  - apply transferBKD_Ok in H
      as (_ & _ & _ & Hpos & t1 & Hpull & Hpush & He & Hthis & _).
    assert (Hnn : 0 <= amount) by lia.
    pose proof (transferFrom_inv _ _ _ _ _ _ _ Hnn Hinv Hpull) as Hinv1.
    pose proof (transferFrom_supply _ _ _ _ _ _ _ Hpull) as Hs1.
    unfold DepositToken.transfer in Hpush.
    pose proof (_transfer_inv _ _ _ _ _ _ _ Hnn Hinv1 Hpush) as Hinv2.
    apply _transfer_supply in Hpush.
    rewrite He, Hthis, Hpush, Hs1.
    split; [reflexivity|]. split; [exact Hinv2 | reflexivity].
Qed.

End VaultTransfers.

(** X9. [transferBKD] pulls the amount into the vault and pushes it on, and
    between three different accounts what remains is a plain transfer. On a
    token whose ledger is consistent, for a sender and a recipient that
    differ from each other and from the vault: when the call returns, the
    sender holds [amount] less and the recipient [amount] more, the balance
    of the vault and of everybody else, the total supply and all ether
    balances are unchanged; sender and recipient are both KYC-approved and
    the amount is positive. A direct [transfer] from the sender to the
    recipient would have returned as well, with the same balances. *)
Theorem transferBKD_is_a_plain_transfer
    (kyc : KYCRegistry.State) (m : Msg) (to : address) (amount : uint256)
    (w w1 : BankVault.World) :
  token_inv (BankVault.token w) ->
  msg_sender m <> BankVault.this (BankVault.vault w) ->
  to <> BankVault.this (BankVault.vault w) ->
  msg_sender m <> to ->
  BankVault.transferBKD kyc m to amount w = Ok w1 ->
  let t := BankVault.token w in
  let t1 := BankVault.token w1 in
  0 < amount /\
  KYCRegistry.isKYCApproved (block_timestamp m) kyc (msg_sender m) = true /\
  KYCRegistry.isKYCApproved (block_timestamp m) kyc to = true /\
  DepositToken.balanceOf t1 (msg_sender m)
    = DepositToken.balanceOf t (msg_sender m) - amount /\
  DepositToken.balanceOf t1 to = DepositToken.balanceOf t to + amount /\
  (forall x, x <> msg_sender m -> x <> to ->
     DepositToken.balanceOf t1 x = DepositToken.balanceOf t x) /\
  DepositToken.totalSupply t1 = DepositToken.totalSupply t /\
  BankVault.ether w1 = BankVault.ether w /\
  exists t',
    DepositToken.transfer kyc m to amount t = Ok t' /\
    forall x, DepositToken.balanceOf t' x = DepositToken.balanceOf t1 x.
Proof.
  intros Hinv Hsv Htv Hst H t t1. subst t t1.
  apply transferBKD_Ok in H
    as (_ & Hk1 & Hk2 & Hpos & t1 & Hpull & Hpush & He & _).
  apply transferFrom_Ok in Hpull as (t0 & Hb0 & Hts0 & Hsys0 & _ & Hpulled);
    [|lia|exact Hinv|exact Hsv].
  change (block_timestamp (BankVault.asVault m w)) with (block_timestamp m)
    in Hpulled.
  destruct Hpulled as [Hs0 Hv0 Hbs Hbv Hcov Hfrom Hto Hoth Hsup Hflags _ _ Hinv1].
  unfold DepositToken.transfer in Hpush.
  change (block_timestamp (BankVault.asVault m w)) with (block_timestamp m)
    in Hpush.
  change (msg_sender (BankVault.asVault m w))
    with (BankVault.this (BankVault.vault w)) in Hpush.
  apply _transfer_Ok in Hpush
    as [_ Hto0 _ Hbt _ Hfrom2 Hto2 Hoth2 Hsup2 _ _ _ _];
    [|lia|exact Hinv1|congruence].
  rewrite (balanceOf_same_ledger _ t0) in Hfrom, Hto by exact Hb0.
  assert (Hsender :
    DepositToken.balanceOf (BankVault.token w1) (msg_sender m)
    = DepositToken.balanceOf (BankVault.token w) (msg_sender m) - amount).
  { rewrite Hoth2 by congruence. exact Hfrom. }
  assert (Hrecipient :
    DepositToken.balanceOf (BankVault.token w1) to
    = DepositToken.balanceOf (BankVault.token w) to + amount).
  { rewrite Hto2, Hoth by congruence.
    apply f_equal2; [|reflexivity]. apply balanceOf_same_ledger, Hb0. }
  assert (Hrest : forall x, x <> msg_sender m -> x <> to ->
    DepositToken.balanceOf (BankVault.token w1) x
    = DepositToken.balanceOf (BankVault.token w) x).
  { intros x Hx1 Hx2.
    destruct (Z.eq_dec x (BankVault.this (BankVault.vault w))) as [->|Hx3].
    - rewrite Hfrom2, Hto. lia.
    - rewrite Hoth2, Hoth by congruence. apply balanceOf_same_ledger, Hb0. }
  repeat (split; [assumption|]).
  split; [unfold DepositToken.totalSupply; congruence|].
  split; [exact He|].
  destruct (_transfer_returns kyc (block_timestamp m) (msg_sender m) to amount
              (BankVault.token w)) as [t' Ht']; try assumption.
  { rewrite <- (blocked_same_flags _ _ (BankVault.token w) t0) by exact Hsys0.
    exact Hbs. }
  { rewrite <- (blocked_same_flags _ _ (BankVault.token w) t0) by exact Hsys0.
    rewrite <- (blocked_same_flags _ _ t0 t1) by exact Hflags.
    exact Hbt. }
  { rewrite <- (balanceOf_same_ledger (BankVault.token w) t0) by exact Hb0.
    exact Hcov. }
  exists t'. split; [exact Ht'|].
  apply _transfer_Ok in Ht' as [_ _ _ _ _ Hf' Ht'' Ho' _ _ _ _ _];
    [|lia|exact Hinv|exact Hst].
  intros x.
  destruct (Z.eq_dec x (msg_sender m)) as [->|Hx1]; [congruence|].
  destruct (Z.eq_dec x to) as [->|Hx2]; [congruence|].
  rewrite Ho', Hrest by assumption. reflexivity.
Qed.

Lemma transferBKD_is_a_plain_transfer_witness :
  DepositToken.balanceOf (BankVault.token vault_after_transfer) 2
    = DepositToken.balanceOf (BankVault.token vault_after_deposit) 2 - 30 /\
  DepositToken.balanceOf (BankVault.token vault_after_transfer) 3
    = DepositToken.balanceOf (BankVault.token vault_after_deposit) 3 + 30 /\
  DepositToken.balanceOf (BankVault.token vault_after_transfer) 20
    = DepositToken.balanceOf (BankVault.token vault_after_deposit) 20.
Proof.
  destruct (transferBKD_is_a_plain_transfer registry_customers (call_from 2)
              3 30 vault_after_deposit vault_after_transfer)
    as (_ & _ & _ & Hs & Hr & Ho & _).
  - apply token_inv_decide; vm_compute; reflexivity.
  - vm_compute; discriminate.
  - vm_compute; discriminate.
  - vm_compute; discriminate.
  - vm_compute; reflexivity.
  - split; [exact Hs|]. split; [exact Hr|]. apply Ho; discriminate.
Defined.

(** X10. Deposits, withdrawals and vault transfers keep the ether of the
    vault in step with the token supply: whatever sequence of such calls is
    made by accounts other than the vault, returning or reverting, the
    difference between the ether the vault holds and the total supply stays
    what it was. *)
Theorem vault_run_keeps_backing
    (w : BankVault.World)
    (cs : list (KYCRegistry.State * (address -> uint256 -> bool) * Msg * vault_call)) :
  token_inv (BankVault.token w) ->
  Forall (fun c => msg_sender (snd (fst c)) <> BankVault.this (BankVault.vault w))
         cs ->
  backing_surplus (vault_run w cs) = backing_surplus w.
Proof.
  revert w. induction cs as [|c cs IH]; intros w Hinv Hall; [reflexivity|].
  inversion Hall as [|c' cs' Hc Hcs]; subst. simpl.
  destruct c as [[[kyc accepts] m] call]. simpl in Hc. simpl.
  destruct (vault_exec kyc accepts m call w) as [w1|e] eqn:E; simpl.
  - destruct (vault_exec_keeps_surplus _ _ _ _ _ _ Hinv Hc E)
      as (Hsur & Hinv1 & Hthis).
    rewrite <- Hsur. apply IH; [exact Hinv1|].
    rewrite Hthis. exact Hcs.
  - apply IH; assumption.
Qed.

Lemma vault_run_keeps_backing_witness :
  let calls :=
    [ (registry_customers, accept_all, deposit_call, VDeposit);
      (registry_customers, accept_all, call_from 2, VTransferBKD 3 30);
      (registry_customers, accept_all, call_from 3, VWithdraw 20);
      (registry_customers, reject_all, call_from 2, VWithdraw 10) ] in
  DepositToken.totalSupply (BankVault.token (vault_run vault_deployed calls)) = 170 /\
  backing_surplus (vault_run vault_deployed calls) = backing_surplus vault_deployed.
Proof.
  split; [vm_compute; reflexivity|].
  apply vault_run_keeps_backing.
  - apply token_inv_decide; vm_compute; reflexivity.
  - repeat (apply Forall_cons; split); try (vm_compute; discriminate).
    constructor.
Defined.

(** X11. [treasuryWithdrawETH] is open to the treasury role only and pays
    out of the ether of the vault whatever amount the vault can cover and
    the recipient accepts: the token is not touched and the amount is not
    compared with the supply. Paid to an account other than the vault, the
    amount reaches that account and the difference between the vault's
    ether and the token supply drops by it; paid to the vault itself, the
    call returns and that difference stays what it was. A payout that fails
    reverts the call. *)
Theorem treasuryWithdrawETH_takes_from_backing
    (accepts : address -> uint256 -> bool) (m : Msg) (to : address)
    (amount : uint256) (w : BankVault.World) :
  (BankVault.hasRole (BankVault.vault w) TREASURY_ROLE (msg_sender m) = false ->
   BankVault.treasuryWithdrawETH accepts m to amount w
     = Revert (AccessControlUnauthorizedAccount (msg_sender m) TREASURY_ROLE)) /\
  (BankVault.hasRole (BankVault.vault w) TREASURY_ROLE (msg_sender m) = true ->
   (payout_fails accepts to amount w ->
    BankVault.treasuryWithdrawETH accepts m to amount w
      = Revert (Error "ETH transfer failed")) /\
   (amount <= BankVault.etherOf (BankVault.ether w)
                (BankVault.this (BankVault.vault w)) ->
    accepts to amount = true ->
    to <> BankVault.this (BankVault.vault w) ->
    exists w1,
      BankVault.treasuryWithdrawETH accepts m to amount w = Ok w1 /\
      BankVault.token w1 = BankVault.token w /\
      BankVault.vault w1 = BankVault.vault w /\
      BankVault.etherOf (BankVault.ether w1) to
        = BankVault.etherOf (BankVault.ether w) to + amount /\
      backing_surplus w1 = backing_surplus w - amount) /\
   (amount <= BankVault.etherOf (BankVault.ether w)
                (BankVault.this (BankVault.vault w)) ->
    accepts to amount = true ->
    to = BankVault.this (BankVault.vault w) ->
    exists w1,
      BankVault.treasuryWithdrawETH accepts m to amount w = Ok w1 /\
      BankVault.token w1 = BankVault.token w /\
      BankVault.vault w1 = BankVault.vault w /\
      backing_surplus w1 = backing_surplus w)).
Proof.
  split.
  - intros H. unfold BankVault.treasuryWithdrawETH, BankVault.onlyRole.
    rewrite H. reflexivity.
  - intros H. unfold BankVault.treasuryWithdrawETH, BankVault.onlyRole.
    rewrite H. cbn [negb revert_if bind]. split; [|split].
    + intros Hfail. rewrite call_value_fails by exact Hfail. reflexivity.
    + intros Hcov Hacc Hne. unfold BankVault.call_value.
      destruct (Z.ltb_spec (BankVault.etherOf (BankVault.ether w)
                              (BankVault.this (BankVault.vault w))) amount);
        [lia|].
      rewrite Hacc. simpl. eexists. split; [reflexivity|].
      split; [reflexivity|]. split; [reflexivity|].
      unfold backing_surplus. simpl. rewrite !etherOf_move_ether, !Z.eqb_refl.
      destruct (Z.eqb_spec to (BankVault.this (BankVault.vault w)));
        [contradiction|].
      destruct (Z.eqb_spec (BankVault.this (BankVault.vault w)) to);
        [congruence|].
      split; lia.
    + intros Hcov Hacc ->. unfold BankVault.call_value.
      destruct (Z.ltb_spec (BankVault.etherOf (BankVault.ether w)
                              (BankVault.this (BankVault.vault w))) amount);
        [lia|].
      rewrite Hacc. simpl. eexists. split; [reflexivity|].
      split; [reflexivity|]. split; [reflexivity|].
      unfold backing_surplus. simpl. rewrite !etherOf_move_ether, !Z.eqb_refl.
      lia.
Qed.

Lemma treasuryWithdrawETH_takes_from_backing_witness :
  BankVault.etherOf (BankVault.ether vault_after_deposit) 20 = 100 /\
  exists w1,
    BankVault.treasuryWithdrawETH accept_all (call_from 1) 1 100
      vault_after_deposit = Ok w1 /\
    backing_surplus w1 = backing_surplus vault_after_deposit - 100 /\
    BankVault.withdraw registry_customers accept_all (call_from 2) 100 w1
      = Revert (Error "ETH transfer failed").
Proof.
  split; [vm_compute; reflexivity|].
  destruct (treasuryWithdrawETH_takes_from_backing accept_all (call_from 1) 1
              100 vault_after_deposit) as [_ H].
  destruct H as (_ & H & _); [vm_compute; reflexivity|].
  destruct H as (w1 & Hok & _ & _ & _ & Hsur);
    [vm_compute; discriminate | reflexivity | vm_compute; discriminate|].
  exists w1. split; [exact Hok|].
  split; [exact Hsur|].
  vm_compute in Hok. injection Hok as <-. vm_compute. reflexivity.
Defined.



(** ** LendingPool: the calls and what they leave behind *)

Section PoolCalls.
Import LendingPool.

Lemma _accrue_entered (now : uint256) (user : address) (st : status)
    (s r : State) :
  _accrue now user (set_status st s) = Ok r ->
  exists s1, _accrue now user s = Ok s1 /\ r = set_status st s1.
Proof.
  rewrite _accrue_set_status. intros H.
  apply bind_Ok in H as (s1 & H1 & H). injection H as <-. eauto.
Qed.

Lemma settled_facts (now : uint256) (user : address) (a' : Account)
    (s s1 : State) :
  _accrue now user s = Ok s1 ->
  accountOf (settled user a' s1) user = a' /\
  (forall other, other <> user ->
     accountOf (settled user a' s1) other = accountOf s other) /\
  this (settled user a' s1) = this s /\
  _roles (settled user a' s1) = _roles s /\
  _status (settled user a' s1) = NOT_ENTERED /\
  maxLTVBps (settled user a' s1) = maxLTVBps s /\
  annualRateBps (settled user a' s1) = annualRateBps s.
Proof.
  intros H.
  apply _accrue_Ok in H as (_ & _ & _ & _ & Hoth & Hthis & Hroles & _ & Hl & Hr).
  split; [apply (accountOf_set_account_eq user a' (set_status ENTERED s1))|].
  split.
  { intros other Hne. rewrite <- (Hoth other Hne).
    apply (accountOf_set_account_ne user other a' (set_status ENTERED s1) Hne). }
  repeat split; assumption.
Qed.

Lemma pool_exec_Ok kyc (m : Msg) (c : pool_call) (s s' : State)
    (t t' : DepositToken.State) :
  is_account_call c = true ->
  pool_exec kyc m c (s, t) = Ok (s', t') ->
  _status s = NOT_ENTERED /\
  KYCRegistry.isKYCApproved (block_timestamp m) kyc (msg_sender m) = true /\
  call_amount c <> 0 /\
  exists s1,
    _accrue (block_timestamp m) (msg_sender m) s = Ok s1 /\
    s' = settled (msg_sender m)
           (account_after c (block_timestamp m) (accountOf s1 (msg_sender m))) s1 /\
    DepositToken._totalSupply t' = DepositToken._totalSupply t.
Proof.
  intros Hc H. destruct c as [amount|amount|amount|amount|ltv rate];
    try discriminate; cbn [pool_exec fst snd call_amount account_after] in *.
  - unfold depositCollateral in H.
    apply nonReentrant_Ok in H as (Hst & r0 & H & Hr).
    injection Hr as Hs Ht. inv_ok H. subst r0 s' t'.
    apply negb_false_iff in Hstep. apply Z.eqb_neq in Hstep0.
    apply _accrue_entered in Hstep1 as (s1 & Hacc & ->).
    pose proof (_accrue_Ok _ _ _ _ Hacc) as (_ & _ & Hlast & _).
    change (accountOf (set_status ENTERED s1) (msg_sender m))
      with (accountOf s1 (msg_sender m)) in *.
    apply checked_add_Ok in Hstep3 as [-> _].
    apply transferFrom_supply in Hstep2.
    repeat (split; [assumption|]). exists s1. split; [exact Hacc|].
    split; [|exact Hstep2]. rewrite <- Hlast. reflexivity.
  - unfold withdrawCollateral in H.
    apply nonReentrant_Ok in H as (Hst & r0 & H & Hr).
    injection Hr as Hs Ht. inv_ok H. subst r0 s' t'.
    apply negb_false_iff in Hstep. apply Z.eqb_neq in Hstep0.
    apply _accrue_entered in Hstep1 as (s1 & Hacc & ->).
    pose proof (_accrue_Ok _ _ _ _ Hacc) as (_ & _ & Hlast & _).
    change (accountOf (set_status ENTERED s1) (msg_sender m))
      with (accountOf s1 (msg_sender m)) in *.
    apply checked_sub_Ok in Hstep3 as [-> _].
    apply _transfer_supply in Hstep7.
    repeat (split; [assumption|]). exists s1. split; [exact Hacc|].
    split; [|exact Hstep7]. rewrite <- Hlast. reflexivity.
  - unfold borrow in H.
    apply nonReentrant_Ok in H as (Hst & r0 & H & Hr).
    injection Hr as Hs Ht. inv_ok H. subst r0 s' t'.
    apply negb_false_iff in Hstep. apply Z.eqb_neq in Hstep0.
    apply _accrue_entered in Hstep1 as (s1 & Hacc & ->).
    pose proof (_accrue_Ok _ _ _ _ Hacc) as (_ & _ & Hlast & _).
    change (accountOf (set_status ENTERED s1) (msg_sender m))
      with (accountOf s1 (msg_sender m)) in *.
    apply checked_add_Ok in Hstep6 as [-> _].
    apply _transfer_supply in Hstep7.
    repeat (split; [assumption|]). exists s1. split; [exact Hacc|].
    split; [|exact Hstep7]. rewrite <- Hlast. reflexivity.
  - unfold repay in H.
    apply nonReentrant_Ok in H as (Hst & r0 & H & Hr).
    injection Hr as Hs Ht. inv_ok H.
    apply negb_false_iff in Hstep. apply Z.eqb_neq in Hstep0.
    apply _accrue_entered in Hstep1 as (s1 & Hacc & ->).
    pose proof (_accrue_Ok _ _ _ _ Hacc) as (_ & _ & Hlast & _).
    change (accountOf (set_status ENTERED s1) (msg_sender m))
      with (accountOf s1 (msg_sender m)) in *.
    apply Z.ltb_lt in Hstep2.
    apply transferFrom_supply in Hstep3.
    repeat (split; [assumption|]). exists s1. split; [exact Hacc|].
    destruct (Z.leb_spec (debt (accountOf s1 (msg_sender m))) amount)
      as [Hfull|Hpart].
    + apply bind_Ok in Hrest as (over & Hover & Hrest).
      apply checked_sub_Ok in Hover as [-> _].
      apply bind_Ok in Hrest as (t2 & Hrefund & Hrest).
      injection Hrest as <-. subst s' t'. cbn [fst snd].
      rewrite Z.min_r by lia.
      replace (debt (accountOf s1 (msg_sender m))
               - debt (accountOf s1 (msg_sender m))) with 0 by lia.
      split; [reflexivity|].
      destruct (0 <? amount - debt (accountOf s1 (msg_sender m))).
      * apply _transfer_supply in Hrefund. congruence.
      * injection Hrefund as <-. exact Hstep3.
    + apply bind_Ok in Hrest as (d & Hd & Hrest).
      apply checked_sub_Ok in Hd as [-> _].
      injection Hrest as <-. subst s' t'. cbn [fst snd].
      rewrite Z.min_l by lia.
      split; [|exact Hstep3]. rewrite <- Hlast. reflexivity.
Qed.

End PoolCalls.

(** Runs a call of the pool up to the end of its accrual, given that the
    guard is free, the caller approved, the amount not zero and the accrual
    returns. *)
Ltac pool_enter Hst Hkyc Hamt Hacc :=
  unfold LendingPool.depositCollateral, LendingPool.withdrawCollateral,
    LendingPool.borrow, LendingPool.repay, LendingPool.nonReentrant;
  rewrite Hst; cbn [revert_if bind];
  rewrite (onlyKYC_Ok _ _ _ Hkyc); cbn [bind];
  match goal with
  | |- context [?amount =? 0] =>
      destruct (Z.eqb_spec amount 0) as [|_]; [lia|]
  end;
  cbn [revert_if bind];
  rewrite _accrue_set_status, Hacc; cbn [bind];
  match goal with
  | |- context [LendingPool.accountOf
                  (LendingPool.set_status LendingPool.ENTERED ?s1) ?u] =>
      change (LendingPool.accountOf
                (LendingPool.set_status LendingPool.ENTERED s1) u)
        with (LendingPool.accountOf s1 u);
      change (LendingPool.maxLTVBps
                (LendingPool.set_status LendingPool.ENTERED s1))
        with (LendingPool.maxLTVBps s1)
  end.

(** X13. A returning [depositCollateral], [withdrawCollateral], [borrow] or
    [repay] first brings the caller's debt up to date and then books the
    amount: a deposit adds it to the collateral, a withdrawal takes it off,
    a loan adds it to the debt, a repayment takes it off the debt but never
    below zero. The caller's [lastAccrued] is the current time. The accounts
    of all other users, the risk parameters and the roles are untouched, the
    guard is released again, and the token supply is what it was. *)
Theorem pool_call_bookkeeping
    (kyc : KYCRegistry.State) (m : Msg) (c : pool_call)
    (s s' : LendingPool.State) (t t' : DepositToken.State) :
  is_account_call c = true ->
  pool_exec kyc m c (s, t) = Ok (s', t') ->
  let now := block_timestamp m in
  let a := LendingPool.accountOf s (msg_sender m) in
  let accrued :=
    {| LendingPool.collateral := LendingPool.collateral a;
       LendingPool.debt :=
         LendingPool.debt a
         + LendingPool.interest (LendingPool.debt a) (LendingPool.annualRateBps s)
             (now - LendingPool.lastAccrued a);
       LendingPool.lastAccrued := now |} in
  LendingPool.accountOf s' (msg_sender m) = account_after c now accrued /\
  (forall other, other <> msg_sender m ->
     LendingPool.accountOf s' other = LendingPool.accountOf s other) /\
  LendingPool.maxLTVBps s' = LendingPool.maxLTVBps s /\
  LendingPool.annualRateBps s' = LendingPool.annualRateBps s /\
  LendingPool._roles s' = LendingPool._roles s /\
  LendingPool.this s' = LendingPool.this s /\
  LendingPool._status s' = LendingPool.NOT_ENTERED /\
  DepositToken.totalSupply t' = DepositToken.totalSupply t.
Proof.
  intros Hc H now a accrued. subst now a accrued.
  apply pool_exec_Ok in H as (_ & _ & _ & s1 & Hacc & -> & Hsup); [|exact Hc].
  destruct (settled_facts _ (msg_sender m)
              (account_after c (block_timestamp m)
                 (LendingPool.accountOf s1 (msg_sender m))) s s1 Hacc)
    as (Hself & Hoth & Hthis & Hroles & Hst & Hltv & Hrate).
  apply _accrue_Ok in Hacc as (Hcoll & Hdebt & _).
  split.
  { rewrite Hself. destruct c; try discriminate; cbn [account_after];
      rewrite Hcoll, Hdebt; reflexivity. }
  repeat (split; [assumption|]). exact Hsup.
Qed.

Lemma pool_call_bookkeeping_witness :
  LendingPool.accountOf (fst pool_with_debt) 2
    = {| LendingPool.collateral := 50; LendingPool.debt := 20;
         LendingPool.lastAccrued := 100 |} /\
  exists s' t',
    pool_exec registry_customers (call_at 2 one_year_later) (PRepay 5)
      pool_with_debt = Ok (s', t') /\
    LendingPool.accountOf s' 2
      = {| LendingPool.collateral := 50; LendingPool.debt := 16;
           LendingPool.lastAccrued := one_year_later |}.
Proof.
  split; [vm_compute; reflexivity|].
  destruct (pool_exec registry_customers (call_at 2 one_year_later) (PRepay 5)
              pool_with_debt) as [[s' t']|e] eqn:E;
    [|vm_compute in E; discriminate].
  exists s', t'. split; [reflexivity|].
  assert (E' : pool_exec registry_customers (call_at 2 one_year_later) (PRepay 5)
                 (fst pool_with_debt, snd pool_with_debt) = Ok (s', t'))
    by exact E.
  destruct (pool_call_bookkeeping registry_customers (call_at 2 one_year_later)
              (PRepay 5) _ _ _ _ eq_refl E') as (Hacct & _).
  cbn [msg_sender block_timestamp call_at] in Hacct.
  rewrite Hacct. vm_compute. reflexivity.
Defined.

Section PoolParameters.
Import LendingPool.

Lemma pool_exec_params kyc (m : Msg) (c : pool_call)
    (st st' : State * DepositToken.State) :
  maxLTVBps (fst st) <= 9000 /\ annualRateBps (fst st) <= 5000 ->
  pool_exec kyc m c st = Ok st' ->
  maxLTVBps (fst st') <= 9000 /\ annualRateBps (fst st') <= 5000.
Proof.
  intros Hin H. destruct st as [s t], st' as [s' t'].
  destruct (is_account_call c) eqn:Hc.
  - apply pool_exec_Ok in H as (_ & _ & _ & s1 & Hacc & -> & _); [|exact Hc].
    destruct (settled_facts _ (msg_sender m)
                (account_after c (block_timestamp m)
                   (accountOf s1 (msg_sender m))) s s1 Hacc)
      as (_ & _ & _ & _ & _ & Hltv & Hrate).
    cbn [fst] in *. rewrite Hltv, Hrate. exact Hin.
  - destruct c; try discriminate. cbn [pool_exec fst snd] in H.
    apply bind_Ok in H as (r & Hset & H). injection H as <- <-.
    unfold setParams in Hset. inv_ok Hset. subst r.
    apply Z.leb_le in Hstep0. apply Z.leb_le in Hstep1.
    cbn. split; assumption.
Qed.

End PoolParameters.

(** X14. [setParams] is open to the risk role only; it refuses a ceiling
    above 9000 basis points with "LTV too high" and, the ceiling being in
    range, a rate above 5000 with "APR too high", and accepts the bounds
    themselves. As the constructor starts at 5000 and 800 and no other call
    writes the parameters, after any sequence of pool calls the ceiling is
    at most 9000 and the rate at most 5000. *)
Theorem pool_parameters_stay_in_range
    (self admin : address) (t : DepositToken.State)
    (cs : list (KYCRegistry.State * Msg * pool_call))
    (m : Msg) (ltv rate : uint256) (s : LendingPool.State) :
  (let st := pool_run (LendingPool.constructor self admin, t) cs in
   LendingPool.maxLTVBps (fst st) <= 9000 /\
   LendingPool.annualRateBps (fst st) <= 5000) /\
  (LendingPool.hasRole s RISK_ROLE (msg_sender m) = false ->
   LendingPool.setParams m ltv rate s
     = Revert (AccessControlUnauthorizedAccount (msg_sender m) RISK_ROLE)) /\
  (LendingPool.hasRole s RISK_ROLE (msg_sender m) = true ->
   (9000 < ltv ->
    LendingPool.setParams m ltv rate s = Revert (Error "LTV too high")) /\
   (ltv <= 9000 -> 5000 < rate ->
    LendingPool.setParams m ltv rate s = Revert (Error "APR too high")) /\
   (ltv <= 9000 -> rate <= 5000 ->
    exists s1,
      LendingPool.setParams m ltv rate s = Ok s1 /\
      LendingPool.maxLTVBps s1 = ltv /\ LendingPool.annualRateBps s1 = rate)).
Proof.
  split; [|split].
  - assert (Hrun : forall cs st,
      LendingPool.maxLTVBps (fst st) <= 9000 /\
      LendingPool.annualRateBps (fst st) <= 5000 ->
      LendingPool.maxLTVBps (fst (pool_run st cs)) <= 9000 /\
      LendingPool.annualRateBps (fst (pool_run st cs)) <= 5000).
    { clear. induction cs as [|c cs IH]; intros st Hin; [exact Hin|].
      simpl. apply IH. destruct c as [[kyc m] call]. simpl.
      destruct (pool_exec kyc m call st) as [st'|e] eqn:E; simpl;
        [|exact Hin].
      eapply pool_exec_params; eassumption. }
    apply Hrun. simpl. lia.
  - intros H. unfold LendingPool.setParams, LendingPool.onlyRole.
    rewrite H. reflexivity.
  - intros H. unfold LendingPool.setParams, LendingPool.onlyRole.
    rewrite H. cbn [negb revert_if bind]. split; [|split].
    + intros Hltv. destruct (Z.leb_spec ltv 9000); [lia | reflexivity].
    + intros Hltv Hrate. destruct (Z.leb_spec ltv 9000); [|lia].
      destruct (Z.leb_spec rate 5000); [lia | reflexivity].
    + intros Hltv Hrate. destruct (Z.leb_spec ltv 9000); [|lia].
      destruct (Z.leb_spec rate 5000); [|lia]. simpl. eauto.
Qed.

Lemma pool_parameters_stay_in_range_witness :
  LendingPool.setParams (call_from 1) 9001 0 (fst pool_with_debt)
    = Revert (Error "LTV too high") /\
  LendingPool.setParams (call_from 1) 9000 5001 (fst pool_with_debt)
    = Revert (Error "APR too high") /\
  exists s1,
    LendingPool.setParams (call_from 1) 9000 5000 (fst pool_with_debt) = Ok s1 /\
    LendingPool.maxLTVBps s1 = 9000.
Proof.
  destruct (pool_parameters_stay_in_range 30 1 token_wired [] (call_from 1)
              9001 0 (fst pool_with_debt)) as (_ & _ & H1).
  destruct (pool_parameters_stay_in_range 30 1 token_wired [] (call_from 1)
              9000 5001 (fst pool_with_debt)) as (_ & _ & H2).
  destruct (pool_parameters_stay_in_range 30 1 token_wired [] (call_from 1)
              9000 5000 (fst pool_with_debt)) as (_ & _ & H3).
  destruct H1 as (H1 & _); [vm_compute; reflexivity|].
  destruct H2 as (_ & H2 & _); [vm_compute; reflexivity|].
  destruct H3 as (_ & _ & H3); [vm_compute; reflexivity|].
  split; [apply H1; lia|]. split; [apply H2; lia|].
  destruct H3 as (s1 & Hok & Hltv & _); [lia | lia |].
  exists s1. split; [exact Hok | exact Hltv].
Defined.

(** X15. With the guard free, the caller approved, a positive amount and a
    returning accrual, [borrow] panics on arithmetic overflow (code 17) when
    [collateral * maxLTVBps] or the accrued debt plus the amount exceeds the
    largest word. When both stay within a word it is decided by the ceiling
    alone: it reverts with [BorrowTooLarge] when the accrued debt plus the
    amount exceeds [collateral * maxLTVBps / 10000], in particular whenever
    the caller has no collateral; otherwise it returns as soon as the token
    lets the pool pay the amount out, with the debt raised by the amount
    and the collateral kept. *)
Theorem borrow_is_decided_by_the_ceiling
    (kyc : KYCRegistry.State) (m : Msg) (amount : uint256)
    (t : DepositToken.State) (s s1 : LendingPool.State) :
  LendingPool._status s = LendingPool.NOT_ENTERED ->
  KYCRegistry.isKYCApproved (block_timestamp m) kyc (msg_sender m) = true ->
  0 < amount ->
  LendingPool._accrue (block_timestamp m) (msg_sender m) s = Ok s1 ->
  let a := LendingPool.accountOf s1 (msg_sender m) in
  let ceiling :=
    Z.quot (LendingPool.collateral a * LendingPool.maxLTVBps s) 10000 in
  (MAX_UINT256 < LendingPool.collateral a * LendingPool.maxLTVBps s
   \/ MAX_UINT256 < LendingPool.debt a + amount ->
   LendingPool.borrow kyc m amount t s = Revert (Panic 17)) /\
  (LendingPool.collateral a * LendingPool.maxLTVBps s <= MAX_UINT256 ->
   LendingPool.debt a + amount <= MAX_UINT256 ->
   (ceiling < LendingPool.debt a + amount ->
    LendingPool.borrow kyc m amount t s = Revert BorrowTooLarge) /\
   (LendingPool.collateral a = 0 -> 0 <= LendingPool.debt a ->
    LendingPool.borrow kyc m amount t s = Revert BorrowTooLarge) /\
   (LendingPool.debt a + amount <= ceiling ->
    forall t',
      DepositToken.transfer kyc (LendingPool.asPool m s) (msg_sender m) amount t
        = Ok t' ->
      exists s',
        LendingPool.borrow kyc m amount t s = Ok (s', t') /\
        LendingPool.debt (LendingPool.accountOf s' (msg_sender m))
          = LendingPool.debt a + amount /\
        LendingPool.collateral (LendingPool.accountOf s' (msg_sender m))
          = LendingPool.collateral a)).
Proof.
  intros Hst Hkyc Hamt Hacc a ceiling. subst ceiling.
  pose proof (_accrue_Ok _ _ _ _ Hacc)
    as (_ & _ & _ & _ & _ & Hthis & _ & _ & Hltv & _).
  split.
  { intros Hov. pool_enter Hst Hkyc Hamt Hacc. fold a.
    unfold checked_mul. rewrite Hltv.
    destruct (Z.leb_spec (LendingPool.collateral a * LendingPool.maxLTVBps s)
                MAX_UINT256) as [Hmul|Hmul]; [|reflexivity].
    cbn [bind]. unfold checked_div. change (10000 =? 0) with false.
    cbn [bind]. unfold checked_add.
    destruct (Z.leb_spec (LendingPool.debt a + amount) MAX_UINT256);
      [lia | reflexivity]. }
  intros Hmul Hadd.
  assert (Hshape : forall k,
    (let* x := checked_mul (LendingPool.collateral a) (LendingPool.maxLTVBps s1) in
     let* maxDebtAllowed := checked_div x 10000 in
     let* wanted := checked_add (LendingPool.debt a) amount in
     k maxDebtAllowed wanted)
    = k (Z.quot (LendingPool.collateral a * LendingPool.maxLTVBps s) 10000)
        (LendingPool.debt a + amount) :> result (LendingPool.State * DepositToken.State)).
  { intros k. unfold checked_mul, checked_add, checked_div. rewrite Hltv.
    destruct (Z.leb_spec (LendingPool.collateral a * LendingPool.maxLTVBps s)
                MAX_UINT256); [|lia].
    cbn [bind]. change (10000 =? 0) with false. cbn [bind].
    destruct (Z.leb_spec (LendingPool.debt a + amount) MAX_UINT256); [|lia].
    reflexivity. }
  assert (Hover :
    Z.quot (LendingPool.collateral a * LendingPool.maxLTVBps s) 10000
      < LendingPool.debt a + amount ->
    LendingPool.borrow kyc m amount t s = Revert BorrowTooLarge).
  { intros Hlt. pool_enter Hst Hkyc Hamt Hacc. fold a.
    rewrite Hshape.
    destruct (Z.ltb_spec
                (Z.quot (LendingPool.collateral a * LendingPool.maxLTVBps s) 10000)
                (LendingPool.debt a + amount)); [reflexivity | lia]. }
  split; [exact Hover|]. split.
  - intros Hzero Hdebt. apply Hover. rewrite Hzero, Z.mul_0_l.
    change (Z.quot 0 10000) with 0. lia.
  - intros Hle t' Hpay. pool_enter Hst Hkyc Hamt Hacc. fold a.
    rewrite Hshape.
    destruct (Z.ltb_spec
                (Z.quot (LendingPool.collateral a * LendingPool.maxLTVBps s) 10000)
                (LendingPool.debt a + amount)); [lia|].
    cbn [revert_if bind]. unfold checked_add.
    destruct (Z.leb_spec (LendingPool.debt a + amount) MAX_UINT256); [|lia].
    cbn [bind].
    match goal with
    | |- context [DepositToken.transfer kyc ?mm _ _ _] =>
        replace mm with (LendingPool.asPool m s)
          by (unfold LendingPool.asPool; cbn; rewrite Hthis; reflexivity)
    end.
    rewrite Hpay. cbn [bind fst snd]. eexists. split; [reflexivity|].
    match goal with
    | |- context [LendingPool.set_account ?u ?acc ?st] =>
        change (LendingPool.accountOf
                  (LendingPool.set_status LendingPool.NOT_ENTERED
                     (LendingPool.set_account u acc st)) u)
          with (LendingPool.accountOf (LendingPool.set_account u acc st) u);
        rewrite (accountOf_set_account_eq u acc st)
    end.
    split; reflexivity.
Qed.

Lemma borrow_is_decided_by_the_ceiling_witness :
  LendingPool.borrow registry_customers (call_from 2) 26
    (snd pool_with_collateral) (fst pool_with_collateral)
    = Revert BorrowTooLarge /\
  exists s' t',
    LendingPool.borrow registry_customers (call_from 2) 25
      (snd pool_with_collateral) (fst pool_with_collateral) = Ok (s', t') /\
    LendingPool.debt (LendingPool.accountOf s' 2) = 25.
Proof.
  split.
  - destruct (borrow_is_decided_by_the_ceiling registry_customers (call_from 2)
                26 (snd pool_with_collateral) (fst pool_with_collateral)
                (commit (fst pool_with_collateral)
                   (LendingPool._accrue 100 2 (fst pool_with_collateral))))
      as (_ & Hin).
    + vm_compute; reflexivity.
    + vm_compute; reflexivity.
    + vm_compute; reflexivity.
    + vm_compute; reflexivity.
    + destruct Hin as (Hover & _).
      * vm_compute; discriminate.
      * vm_compute; discriminate.
      * apply Hover. vm_compute. reflexivity.
  - destruct (borrow_is_decided_by_the_ceiling registry_customers (call_from 2)
                25 (snd pool_with_collateral) (fst pool_with_collateral)
                (commit (fst pool_with_collateral)
                   (LendingPool._accrue 100 2 (fst pool_with_collateral))))
      as (_ & Hin).
    + vm_compute; reflexivity.
    + vm_compute; reflexivity.
    + vm_compute; reflexivity.
    + vm_compute; reflexivity.
    + destruct Hin as (_ & _ & Hin).
      * vm_compute; discriminate.
      * vm_compute; discriminate.
      * destruct (Hin ltac:(vm_compute; discriminate)
                    (commit (snd pool_with_collateral)
                       (DepositToken.transfer registry_customers
                          (LendingPool.asPool (call_from 2)
                             (fst pool_with_collateral))
                          2 25 (snd pool_with_collateral)))
                    ltac:(vm_compute; reflexivity))
          as (s' & Hok & Hdebt & _).
        cbn [msg_sender call_from] in Hdebt.
        eexists s', _. split; [exact Hok|].
        rewrite Hdebt. vm_compute. reflexivity.
Defined.

(** X16. With the guard free, the caller approved, a positive amount and a
    returning accrual, [withdrawCollateral] reverts with "Not enough
    collateral" when the amount exceeds the collateral. For an amount the
    collateral covers, it panics on arithmetic overflow (code 17) when the
    collateral that would remain, times [maxLTVBps], exceeds the largest
    word; when that product stays within a word, it reverts with
    [InsufficientCollateral] if the accrued debt exceeds the ceiling of the
    collateral that would remain. So an account in debt can never withdraw
    all of its collateral. An account without debt, [maxLTVBps] not being
    negative and the product staying within a word, can withdraw any part
    of its collateral that the token lets the pool pay out. *)
Theorem withdrawCollateral_refusals
    (kyc : KYCRegistry.State) (m : Msg) (amount : uint256)
    (t : DepositToken.State) (s s1 : LendingPool.State) :
  LendingPool._status s = LendingPool.NOT_ENTERED ->
  KYCRegistry.isKYCApproved (block_timestamp m) kyc (msg_sender m) = true ->
  0 < amount ->
  LendingPool._accrue (block_timestamp m) (msg_sender m) s = Ok s1 ->
  let a := LendingPool.accountOf s1 (msg_sender m) in
  let left := LendingPool.collateral a - amount in
  (LendingPool.collateral a < amount ->
   LendingPool.withdrawCollateral kyc m amount t s
     = Revert (Error "Not enough collateral")) /\
  (amount <= LendingPool.collateral a ->
   left * LendingPool.maxLTVBps s <= MAX_UINT256 ->
   Z.quot (left * LendingPool.maxLTVBps s) 10000 < LendingPool.debt a ->
   LendingPool.withdrawCollateral kyc m amount t s
     = Revert InsufficientCollateral) /\
  (amount = LendingPool.collateral a -> 0 < LendingPool.debt a ->
   LendingPool.withdrawCollateral kyc m amount t s
     = Revert InsufficientCollateral) /\
  (LendingPool.debt a = 0 -> amount <= LendingPool.collateral a ->
   0 <= LendingPool.maxLTVBps s ->
   left * LendingPool.maxLTVBps s <= MAX_UINT256 ->
   forall t',
     DepositToken.transfer kyc (LendingPool.asPool m s) (msg_sender m) amount t
       = Ok t' ->
     exists s',
       LendingPool.withdrawCollateral kyc m amount t s = Ok (s', t') /\
       LendingPool.collateral (LendingPool.accountOf s' (msg_sender m)) = left) /\
  (amount <= LendingPool.collateral a ->
   MAX_UINT256 < left * LendingPool.maxLTVBps s ->
   LendingPool.withdrawCollateral kyc m amount t s = Revert (Panic 17)).
Proof.
  intros Hst Hkyc Hamt Hacc a left. subst left.
  pose proof (_accrue_Ok _ _ _ _ Hacc)
    as (_ & _ & _ & _ & _ & Hthis & _ & _ & Hltv & _).
  assert (Hover :
    amount <= LendingPool.collateral a ->
    (LendingPool.collateral a - amount) * LendingPool.maxLTVBps s <= MAX_UINT256 ->
    Z.quot ((LendingPool.collateral a - amount) * LendingPool.maxLTVBps s) 10000
      < LendingPool.debt a ->
    LendingPool.withdrawCollateral kyc m amount t s = Revert InsufficientCollateral).
  { intros Hle Hmul Hlt. pool_enter Hst Hkyc Hamt Hacc. fold a.
    unfold checked_sub.
    destruct (Z.leb_spec amount (LendingPool.collateral a)); [|lia].
    cbn [require bind]. unfold checked_mul. rewrite Hltv.
    destruct (Z.leb_spec ((LendingPool.collateral a - amount)
                          * LendingPool.maxLTVBps s) MAX_UINT256); [|lia].
    cbn [bind]. unfold checked_div. change (10000 =? 0) with false. cbn [bind].
    destruct (Z.ltb_spec
                (Z.quot ((LendingPool.collateral a - amount)
                         * LendingPool.maxLTVBps s) 10000)
                (LendingPool.debt a)); [reflexivity | lia]. }
  split; [|split; [exact Hover|split; [|split]]].
  - intros Hlt. pool_enter Hst Hkyc Hamt Hacc. fold a.
    destruct (Z.leb_spec amount (LendingPool.collateral a)); [lia|].
    reflexivity.
  - intros -> Hdebt. apply Hover; [lia | | ].
    + rewrite Z.sub_diag, Z.mul_0_l. unfold MAX_UINT256. lia.
    + rewrite Z.sub_diag, Z.mul_0_l. change (Z.quot 0 10000) with 0. lia.
  - intros Hzero Hle Hnn Hmul t' Hpay. pool_enter Hst Hkyc Hamt Hacc. fold a.
    unfold checked_sub.
    destruct (Z.leb_spec amount (LendingPool.collateral a)); [|lia].
    cbn [require bind]. unfold checked_mul. rewrite Hltv.
    destruct (Z.leb_spec ((LendingPool.collateral a - amount)
                          * LendingPool.maxLTVBps s) MAX_UINT256); [|lia].
    cbn [bind]. unfold checked_div. change (10000 =? 0) with false. cbn [bind].
    rewrite Hzero.
    destruct (Z.ltb_spec
                (Z.quot ((LendingPool.collateral a - amount)
                         * LendingPool.maxLTVBps s) 10000) 0) as [Hneg|_].
    { exfalso.
      assert (0 <= Z.quot ((LendingPool.collateral a - amount)
                           * LendingPool.maxLTVBps s) 10000)
        by (apply Z.quot_pos; nia).
      lia. }
    cbn [revert_if bind].
    match goal with
    | |- context [DepositToken.transfer kyc ?mm _ _ _] =>
        replace mm with (LendingPool.asPool m s)
          by (unfold LendingPool.asPool; cbn; rewrite Hthis; reflexivity)
    end.
    rewrite Hpay. cbn [bind fst snd]. eexists. split; [reflexivity|].
    match goal with
    | |- context [LendingPool.set_account ?u ?acc ?st] =>
        change (LendingPool.accountOf
                  (LendingPool.set_status LendingPool.NOT_ENTERED
                     (LendingPool.set_account u acc st)) u)
          with (LendingPool.accountOf (LendingPool.set_account u acc st) u);
        rewrite (accountOf_set_account_eq u acc st)
    end.
    reflexivity.
  - intros Hle Hov. pool_enter Hst Hkyc Hamt Hacc. fold a.
    unfold checked_sub.
    destruct (Z.leb_spec amount (LendingPool.collateral a)); [|lia].
    cbn [require bind]. unfold checked_mul. rewrite Hltv.
    destruct (Z.leb_spec ((LendingPool.collateral a - amount)
                          * LendingPool.maxLTVBps s) MAX_UINT256); [lia|].
    reflexivity.
Qed.

Lemma withdrawCollateral_refusals_witness :
  LendingPool.withdrawCollateral registry_customers (call_from 2) 51
    (snd pool_with_debt) (fst pool_with_debt)
    = Revert (Error "Not enough collateral") /\
  LendingPool.withdrawCollateral registry_customers (call_from 2) 50
    (snd pool_with_debt) (fst pool_with_debt) = Revert InsufficientCollateral /\
  LendingPool.withdrawCollateral registry_customers (call_from 2) 11
    (snd pool_with_debt) (fst pool_with_debt) = Revert InsufficientCollateral.
Proof.
  split; [|split].
  - destruct (withdrawCollateral_refusals registry_customers (call_from 2)
                51 (snd pool_with_debt) (fst pool_with_debt)
                (commit (fst pool_with_debt)
                   (LendingPool._accrue 100 2 (fst pool_with_debt))))
      as (Hmore & _).
    + vm_compute; reflexivity.
    + vm_compute; reflexivity.
    + vm_compute; reflexivity.
    + vm_compute; reflexivity.
    + apply Hmore. vm_compute. reflexivity.
  - destruct (withdrawCollateral_refusals registry_customers (call_from 2)
                50 (snd pool_with_debt) (fst pool_with_debt)
                (commit (fst pool_with_debt)
                   (LendingPool._accrue 100 2 (fst pool_with_debt))))
      as (_ & _ & Hall & _).
    + vm_compute; reflexivity.
    + vm_compute; reflexivity.
    + vm_compute; reflexivity.
    + vm_compute; reflexivity.
    + apply Hall; vm_compute; reflexivity.
  - destruct (withdrawCollateral_refusals registry_customers (call_from 2)
                11 (snd pool_with_debt) (fst pool_with_debt)
                (commit (fst pool_with_debt)
                   (LendingPool._accrue 100 2 (fst pool_with_debt))))
      as (_ & Hover & _).
    + vm_compute; reflexivity.
    + vm_compute; reflexivity.
    + vm_compute; reflexivity.
    + vm_compute; reflexivity.
    + apply Hover.
      * vm_compute; discriminate.
      * vm_compute; discriminate.
      * vm_compute; reflexivity.
Defined.

(** X17. [getAccount] reports what an accrual at the same time would store:
    whenever [_accrue] returns, the debt [getAccount] projects is the debt
    the accrued account holds, and the collateral is the stored one; the
    third component is the stored [lastAccrued], not the current time. The
    one case in which the view can fail where the accrual returns is an
    indebted account read at its own [lastAccrued] time: the accrual stops
    early there, while the view still multiplies debt and rate, which must
    then not overflow. *)
Theorem getAccount_projects_the_accrual
    (now : uint256) (user : address) (s s1 : LendingPool.State) :
  LendingPool._accrue now user s = Ok s1 ->
  let a := LendingPool.accountOf s user in
  LendingPool.debt a <= MAX_UINT256 ->
  (LendingPool.debt a = 0 \/ now <> LendingPool.lastAccrued a \/
   LendingPool.debt a * LendingPool.annualRateBps s <= MAX_UINT256) ->
  LendingPool.getAccount now s user
    = Ok (LendingPool.collateral a,
          LendingPool.debt (LendingPool.accountOf s1 user),
          LendingPool.lastAccrued a) /\
  LendingPool.collateral (LendingPool.accountOf s1 user) = LendingPool.collateral a.
Proof.
  intros Hacc a Hwf Hcase.
  pose proof (_accrue_Ok _ _ _ _ Hacc) as (Hcoll & Hdebt & _).
  fold a in Hcoll, Hdebt. split; [|exact Hcoll].
  unfold LendingPool._accrue in Hacc. unfold LendingPool.getAccount.
  fold a in Hacc |- *.
  destruct (Z.eqb_spec (LendingPool.debt a) 0) as [Hz|Hnz].
  - rewrite Hdebt, Hz. reflexivity.
  - apply bind_Ok in Hacc as (dt & Hdt & Hacc). rewrite Hdt. cbn [bind].
    pose proof (checked_sub_Ok _ _ _ Hdt) as [-> Hle].
    destruct (Z.eqb_spec (now - LendingPool.lastAccrued a) 0) as [Hz|Hpos].
    + injection Hacc as <-. fold a.
      destruct Hcase as [H|[H|H]]; [contradiction | lia |].
      unfold checked_mul.
      destruct (Z.leb_spec (LendingPool.debt a * LendingPool.annualRateBps s)
                  MAX_UINT256); [|lia].
      cbn [bind]. rewrite Hz, Z.mul_0_r.
      destruct (Z.leb_spec 0 MAX_UINT256) as [_|Hbad];
        [|unfold MAX_UINT256 in Hbad; lia].
      cbn [bind]. unfold checked_div.
      destruct (Z.eqb_spec (10000 * LendingPool.SECONDS_PER_YEAR) 0) as [Hbad|_];
        [discriminate Hbad|].
      cbn [bind]. rewrite Z.quot_0_l by discriminate.
      unfold checked_add. rewrite Z.add_0_r.
      destruct (Z.leb_spec (LendingPool.debt a) MAX_UINT256) as [_|Hbig];
        [reflexivity | lia].
    + apply bind_Ok in Hacc as (x & Hx & Hacc). rewrite Hx. cbn [bind].
      apply bind_Ok in Hacc as (y & Hy & Hacc). rewrite Hy. cbn [bind].
      apply bind_Ok in Hacc as (i & Hi & Hacc). rewrite Hi. cbn [bind].
      apply bind_Ok in Hacc as (d & Hd & Hacc). rewrite Hd. cbn [bind].
      injection Hacc as <-. rewrite accountOf_set_account_eq. reflexivity.
Qed.

Lemma getAccount_projects_the_accrual_witness :
  LendingPool.getAccount one_year_later (fst pool_with_debt) 2 = Ok (50, 21, 100).
Proof.
  destruct (getAccount_projects_the_accrual one_year_later 2 (fst pool_with_debt)
              (commit (fst pool_with_debt)
                 (LendingPool._accrue one_year_later 2 (fst pool_with_debt))))
    as [Hview _].
  - vm_compute; reflexivity.
  - vm_compute; discriminate.
  - right; left. vm_compute. discriminate.
  - rewrite Hview. vm_compute. reflexivity.
Defined.

(** X18. Accruing twice at the same time accrues once: the state a
    returning [_accrue] leaves is a fixed point of [_accrue] at that time.
    So several pool calls of an account within one block charge the
    interest of the block once. *)
Theorem accrue_is_idempotent_at_one_time
    (now : uint256) (user : address) (s s1 : LendingPool.State) :
  LendingPool._accrue now user s = Ok s1 ->
  LendingPool._accrue now user s1 = Ok s1.
Proof.
  intros Hacc.
  pose proof (_accrue_Ok _ _ _ _ Hacc) as (_ & _ & Hlast & _).
  assert (Hagain : forall acc,
    LendingPool.lastAccrued acc = now ->
    LendingPool._accrue now user (LendingPool.set_account user acc s)
    = Ok (LendingPool.set_account user acc s)).
  { intros acc Hl. unfold LendingPool._accrue.
    rewrite accountOf_set_account_eq.
    destruct (LendingPool.debt acc =? 0).
    - unfold LendingPool.set_account. simpl. rewrite insert_insert_eq.
      destruct acc as [c d l]. simpl in Hl. subst l. reflexivity.
    - unfold checked_sub. rewrite Hl, Z.leb_refl. cbn [bind].
      rewrite Z.sub_diag. reflexivity. }
  unfold LendingPool._accrue in Hacc.
  destruct (LendingPool.debt (LendingPool.accountOf s user) =? 0) eqn:Ez.
  - injection Hacc as <-. apply Hagain. reflexivity.
  - apply bind_Ok in Hacc as (dt & Hdt & Hacc).
    apply checked_sub_Ok in Hdt as [-> Hle].
    destruct (Z.eqb_spec (now - LendingPool.lastAccrued
                                  (LendingPool.accountOf s user)) 0) as [Hz|Hpos].
    + injection Hacc as <-. unfold LendingPool._accrue. rewrite Ez.
      unfold checked_sub.
      destruct (Z.leb_spec (LendingPool.lastAccrued
                              (LendingPool.accountOf s user)) now); [|lia].
      cbn [bind]. rewrite Hz. reflexivity.
    + inv_ok Hacc. subst s1. apply Hagain. reflexivity.
Qed.

Lemma accrue_is_idempotent_at_one_time_witness :
  exists s1,
    LendingPool._accrue one_year_later 2 (fst pool_with_debt) = Ok s1 /\
    LendingPool.debt (LendingPool.accountOf s1 2) = 21 /\
    LendingPool._accrue one_year_later 2 s1 = Ok s1.
Proof.
  eexists. split; [vm_compute; reflexivity|].
  split; [vm_compute; reflexivity|].
  apply (accrue_is_idempotent_at_one_time one_year_later 2 (fst pool_with_debt)).
  vm_compute. reflexivity.
Defined.

(** X19. The four account operations of the pool check in the same order:
    while the reentrancy guard is set they refuse entry; with the guard
    free, a caller who is not KYC-approved is refused whatever the amount;
    and for an approved caller a zero amount is refused with [AmountZero]
    before any interest is accrued. *)
Theorem pool_entry_checks
    (kyc : KYCRegistry.State) (m : Msg) (c : pool_call)
    (s : LendingPool.State) (t : DepositToken.State) :
  is_account_call c = true ->
  (LendingPool._status s = LendingPool.ENTERED ->
   pool_exec kyc m c (s, t) = Revert ReentrancyGuardReentrantCall) /\
  (LendingPool._status s = LendingPool.NOT_ENTERED ->
   (KYCRegistry.isKYCApproved (block_timestamp m) kyc (msg_sender m) = false ->
    pool_exec kyc m c (s, t) = Revert (NotKYCApproved (msg_sender m))) /\
   (KYCRegistry.isKYCApproved (block_timestamp m) kyc (msg_sender m) = true ->
    call_amount c = 0 ->
    pool_exec kyc m c (s, t) = Revert AmountZero)).
Proof.
  intros Hc.
  destruct c as [amount|amount|amount|amount|ltv rate]; try discriminate;
    cbn [pool_exec call_amount fst snd];
    unfold LendingPool.depositCollateral, LendingPool.withdrawCollateral,
      LendingPool.borrow, LendingPool.repay, LendingPool.nonReentrant,
      LendingPool.onlyKYC.
  all: split; [intros ->; reflexivity|].
  all: intros ->; cbn [revert_if bind]; split;
    [intros ->; reflexivity | intros -> ->; reflexivity].
Qed.

Lemma pool_entry_checks_witness :
  pool_exec registry_customers (call_from 4) (PBorrow 5) pool_with_debt
    = Revert (NotKYCApproved 4) /\
  pool_exec registry_customers (call_from 2) (PRepay 0) pool_with_debt
    = Revert AmountZero.
Proof.
  destruct (pool_entry_checks registry_customers (call_from 4) (PBorrow 5)
              (fst pool_with_debt) (snd pool_with_debt) eq_refl) as [_ H1].
  destruct (pool_entry_checks registry_customers (call_from 2) (PRepay 0)
              (fst pool_with_debt) (snd pool_with_debt) eq_refl) as [_ H2].
  destruct H1 as [H1 _]; [vm_compute; reflexivity|].
  destruct H2 as [_ H2]; [vm_compute; reflexivity|].
  split.
  - apply H1. vm_compute. reflexivity.
  - apply H2; vm_compute; reflexivity.
Defined.

(** X20. [depositCollateral] does not look at the ceiling. Take the guard
    free, the caller approved and other than the pool, a positive amount, a
    returning accrual, a token whose ledger is consistent, and a pull of
    the amount from the caller to the pool that the token lets through.
    Then the call returns, whatever the debt of the caller, provided the
    collateral plus the amount stays within a word: the amount has moved
    from the caller's token balance to the pool's and is added to the
    collateral, and the debt is the accrued debt. When the collateral plus
    the amount exceeds the largest word, the call panics on arithmetic
    overflow (code 17). *)
Theorem depositCollateral_takes_any_pull
    (kyc : KYCRegistry.State) (m : Msg) (amount : uint256)
    (t t' : DepositToken.State) (s s1 : LendingPool.State) :
  LendingPool._status s = LendingPool.NOT_ENTERED ->
  KYCRegistry.isKYCApproved (block_timestamp m) kyc (msg_sender m) = true ->
  0 < amount ->
  LendingPool._accrue (block_timestamp m) (msg_sender m) s = Ok s1 ->
  token_inv t ->
  msg_sender m <> LendingPool.this s ->
  DepositToken.transferFrom kyc (LendingPool.asPool m s) (msg_sender m)
    (LendingPool.this s) amount t = Ok t' ->
  let a := LendingPool.accountOf s1 (msg_sender m) in
  (LendingPool.collateral a + amount <= MAX_UINT256 ->
   exists s',
     LendingPool.depositCollateral kyc m amount t s = Ok (s', t') /\
     LendingPool.collateral (LendingPool.accountOf s' (msg_sender m))
       = LendingPool.collateral a + amount /\
     LendingPool.debt (LendingPool.accountOf s' (msg_sender m))
       = LendingPool.debt a /\
     DepositToken.balanceOf t' (msg_sender m)
       = DepositToken.balanceOf t (msg_sender m) - amount /\
     DepositToken.balanceOf t' (LendingPool.this s)
       = DepositToken.balanceOf t (LendingPool.this s) + amount) /\
  (MAX_UINT256 < LendingPool.collateral a + amount ->
   LendingPool.depositCollateral kyc m amount t s = Revert (Panic 17)).
Proof.
  intros Hst Hkyc Hamt Hacc Hinv Hne Hpull a.
  pose proof (_accrue_Ok _ _ _ _ Hacc) as (_ & _ & _ & _ & _ & Hthis & _).
  split.
  2:{ intros Hov. pool_enter Hst Hkyc Hamt Hacc. fold a.
      change (LendingPool.this (LendingPool.set_status LendingPool.ENTERED s1))
        with (LendingPool.this s1).
      rewrite (asPool_same_this m s
                 (LendingPool.set_status LendingPool.ENTERED s1))
        by exact Hthis.
      rewrite Hthis, Hpull. cbn [bind]. unfold checked_add.
      destruct (Z.leb_spec (LendingPool.collateral a + amount) MAX_UINT256);
        [lia | reflexivity]. }
  intros Hroom.
  pool_enter Hst Hkyc Hamt Hacc. fold a.
  change (LendingPool.this (LendingPool.set_status LendingPool.ENTERED s1))
    with (LendingPool.this s1).
  rewrite (asPool_same_this m s (LendingPool.set_status LendingPool.ENTERED s1))
    by exact Hthis.
  rewrite Hthis, Hpull. cbn [bind]. unfold checked_add.
  destruct (Z.leb_spec (LendingPool.collateral a + amount) MAX_UINT256); [|lia].
  cbn [bind fst snd]. eexists. split; [reflexivity|].
  match goal with
  | |- context [LendingPool.set_account ?u ?acc ?st] =>
      change (LendingPool.accountOf
                (LendingPool.set_status LendingPool.NOT_ENTERED
                   (LendingPool.set_account u acc st)) u)
        with (LendingPool.accountOf (LendingPool.set_account u acc st) u);
      rewrite (accountOf_set_account_eq u acc st)
  end.
  split; [reflexivity|]. split; [reflexivity|].
  apply transferFrom_Ok in Hpull as (t0 & Hb0 & _ & _ & _ & Hpulled);
    [|lia|exact Hinv|exact Hne].
  destruct Hpulled as [_ _ _ _ _ Hfrom Hto _ _ _ _ _ _].
  rewrite (balanceOf_same_ledger t t0) in Hfrom, Hto by exact Hb0.
  split; assumption.
Qed.

Lemma depositCollateral_takes_any_pull_witness :
  exists s' t',
    LendingPool.depositCollateral registry_customers (call_from 2) 7
      (snd pool_with_debt) (fst pool_with_debt) = Ok (s', t') /\
    LendingPool.collateral (LendingPool.accountOf s' 2) = 57 /\
    DepositToken.balanceOf t' 30 = DepositToken.balanceOf (snd pool_with_debt) 30 + 7.
Proof.
  destruct (depositCollateral_takes_any_pull registry_customers (call_from 2) 7
              (snd pool_with_debt)
              (commit (snd pool_with_debt)
                 (DepositToken.transferFrom registry_customers
                    (LendingPool.asPool (call_from 2) (fst pool_with_debt))
                    2 30 7 (snd pool_with_debt)))
              (fst pool_with_debt)
              (commit (fst pool_with_debt)
                 (LendingPool._accrue 100 2 (fst pool_with_debt))))
    as (Hin & _).
  - vm_compute; reflexivity.
  - vm_compute; reflexivity.
  - vm_compute; reflexivity.
  - vm_compute; reflexivity.
  - apply token_inv_decide; vm_compute; reflexivity.
  - vm_compute; discriminate.
  - vm_compute; reflexivity.
  - destruct Hin as (s' & Hok & Hcoll & _ & _ & Hpool).
    + vm_compute; discriminate.
    + cbn [msg_sender call_from] in Hcoll.
      eexists s', _. split; [exact Hok|].
      split; [rewrite Hcoll; vm_compute; reflexivity|].
      change (LendingPool.this (fst pool_with_debt)) with 30 in Hpool.
      exact Hpool.
Defined.

(** ** InvoiceNFT and FactoringMarket *)

Lemma and_then_Returns {A B : Type} (r : outcome A) (k : A -> outcome B) (b : B) :
  and_then r k = Returns b -> exists a, r = Returns a /\ k a = Returns b.
Proof. destruct r as [a|e]; simpl; [eauto | discriminate]. Qed.

Lemma reverts_if_Returns (c : bool) (e : reason) (u : unit) :
  reverts_if c e = Returns u -> c = false.
Proof. destruct c; simpl; [discriminate | reflexivity]. Qed.

Lemma lift_Returns {A : Type} (r : result A) (a : A) :
  lift r = Returns a -> r = Ok a.
Proof. destruct r; simpl; congruence. Qed.

Section InvoiceFacts.

Import InvoiceNFT.

Lemma _isAuthorized_true (s : State) (owner spender : address) (id : uint256) :
  _isAuthorized s owner spender id = true ->
  spender <> 0 /\
  (owner = spender \/ isApprovedForAll s owner spender = true
   \/ _getApproved s id = spender).
Proof.
  unfold _isAuthorized. intros H.
  apply andb_true_iff in H as [H1 H2].
  apply negb_true_iff, Z.eqb_neq in H1. split; [exact H1|].
  apply orb_true_iff in H2 as [H2|H2].
  - apply orb_true_iff in H2 as [H2|H2]; [left; lia | right; left; exact H2].
  - right; right. lia.
Qed.

Lemma _update_moved (to : address) (id : uint256) (auth : address)
    (s s' : State) (from : address) :
  _update to id auth s = Returns (from, s') ->
  from = _ownerOf s id /\
  (auth <> 0 -> _isAuthorized s from auth id = true) /\
  (to <> 0 -> moved to id s s').
Proof.
  unfold _update. intros H.
  apply and_then_Returns in H as (u & Hauth & H).
  injection H as Hfrom Hs. subst from. split; [reflexivity|]. split.
  - intros Hne. destruct (Z.eqb_spec auth 0) as [|_]; [contradiction|].
    unfold _checkAuthorized in Hauth.
    destruct (_isAuthorized s (_ownerOf s id) auth id); [reflexivity|].
    destruct (_ownerOf s id =? 0); discriminate.
  - intros Hto. destruct (Z.eqb_spec to 0) as [|_]; [contradiction|].
    subst s'.
    destruct (Z.eqb_spec (_ownerOf s id) 0) as [Ho|Ho].
    + split; unfold _ownerOf, _getApproved; cbn;
        try reflexivity; try (intros; contradiction).
      * rewrite lookup_insert_eq. reflexivity.
      * intros id' Hne. rewrite lookup_insert_ne by congruence. reflexivity.
    + split; unfold _ownerOf, _getApproved; cbn; try reflexivity.
      * rewrite lookup_insert_eq. reflexivity.
      * intros id' Hne. rewrite lookup_insert_ne by congruence. reflexivity.
      * intros _. rewrite lookup_insert_eq. reflexivity.
      * intros id' [Hne|Hz]; [|contradiction].
        rewrite lookup_insert_ne by congruence. reflexivity.
Qed.

Lemma _update_Returns (to : address) (id : uint256) (auth : address) (s : State) :
  auth = 0 \/ _isAuthorized s (_ownerOf s id) auth id = true ->
  exists s', _update to id auth s = Returns (_ownerOf s id, s').
Proof.
  intros H. unfold _update.
  destruct (Z.eqb_spec auth 0) as [Ha|Ha].
  - simpl. eauto.
  - destruct H as [H|H]; [contradiction|].
    unfold _checkAuthorized. rewrite H. simpl. eauto.
Qed.

Lemma transferFrom_moved (m : Msg) (from to : address) (id : uint256)
    (s s' : State) :
  transferFrom m from to id s = Returns s' ->
  to <> 0 /\ _ownerOf s id = from /\
  (msg_sender m <> 0 -> _isAuthorized s from (msg_sender m) id = true) /\
  moved to id s s'.
Proof.
  unfold transferFrom. intros H.
  apply and_then_Returns in H as (u & Hto & H).
  apply reverts_if_Returns, Z.eqb_neq in Hto.
  apply and_then_Returns in H as ([prev s1] & Hupd & H).
  apply and_then_Returns in H as (u' & Hprev & H).
  apply reverts_if_Returns, negb_false_iff, Z.eqb_eq in Hprev.
  cbn [fst snd] in *. injection H as ->.
  apply _update_moved in Hupd as (Hfrom & Hauth & Hmoved).
  subst prev. rewrite <- Hprev. auto.
Qed.

Lemma transferFrom_Returns (m : Msg) (from to : address) (id : uint256)
    (s : State) :
  to <> 0 -> _ownerOf s id = from ->
  _isAuthorized s from (msg_sender m) id = true ->
  exists s', transferFrom m from to id s = Returns s'.
Proof.
  intros Hto Hown Hauth. unfold transferFrom.
  destruct (Z.eqb_spec to 0) as [|_]; [contradiction|]. simpl.
  destruct (_update_Returns to id (msg_sender m) s) as (s' & ->).
  { right. rewrite Hown. exact Hauth. }
  simpl. rewrite Hown, Z.eqb_refl. simpl. eauto.
Qed.

End InvoiceFacts.

Section MarketFacts.

Import FactoringMarket.

(** The world a returning call of the market leaves: the listing [l] stored
    under [id], the invoice contract [nft] and the token [t]. *)
Lemma nonReentrant_Returns (body : World -> outcome World) (w w' : World) :
  nonReentrant body w = Returns w' ->
  _status (market w) = NOT_ENTERED /\
  exists w1,
    body {| market := set_status ENTERED (market w);
            invoice := invoice w; token := token w |} = Returns w1 /\
    w' = {| market := set_status NOT_ENTERED (market w1);
            invoice := invoice w1; token := token w1 |}.
Proof.
  unfold nonReentrant. intros H.
  apply and_then_Returns in H as (u & Hst & H).
  apply reverts_if_Returns in Hst.
  apply and_then_Returns in H as (w1 & Hbody & H).
  injection H as <-. split.
  - destruct (_status (market w)); [reflexivity | discriminate].
  - eauto.
Qed.

Lemma onlyKYC_Returns kyc (m : Msg) (user : address) (u : unit) :
  onlyKYC kyc m user = Returns u ->
  KYCRegistry.isKYCApproved (block_timestamp m) kyc user = true.
Proof.
  unfold onlyKYC. intros H.
  apply reverts_if_Returns, negb_false_iff in H. exact H.
Qed.

Lemma listingOf_set_listing_eq (id : uint256) (l : Listing) (s : State) :
  listingOf (set_listing id l s) id = l.
Proof. unfold listingOf, set_listing. cbn. rewrite lookup_insert_eq. reflexivity. Qed.

Lemma listingOf_set_listing_ne (id id' : uint256) (l : Listing) (s : State) :
  id' <> id -> listingOf (set_listing id l s) id' = listingOf s id'.
Proof.
  intros Hne. unfold listingOf, set_listing. cbn.
  rewrite lookup_insert_ne by congruence. reflexivity.
Qed.

Lemma listingOf_set_status (st : status) (s : State) (id : uint256) :
  listingOf (set_status st s) id = listingOf s id.
Proof. reflexivity. Qed.

Lemma list_Returns kyc (m : Msg) (id price_ : uint256) (w w' : World) :
  list_ kyc m id price_ w = Returns w' ->
  _status (market w) = NOT_ENTERED /\
  KYCRegistry.isKYCApproved (block_timestamp m) kyc (msg_sender m) = true /\
  price_ <> 0 /\
  InvoiceNFT._ownerOf (invoice w) id = msg_sender m /\
  msg_sender m <> 0 /\
  exists nft,
    InvoiceNFT.transferFrom (asMarket m w) (msg_sender m) (this (market w)) id
      (invoice w) = Returns nft /\
    w' = {| market :=
              set_status NOT_ENTERED
                (set_listing id {| seller := msg_sender m; price := price_;
                                   active := true |}
                   (set_status ENTERED (market w)));
            invoice := nft; token := token w |}.
Proof.
  unfold list_. intros H.
  apply nonReentrant_Returns in H as (Hst & w1 & H & ->).
  apply and_then_Returns in H as (u & Hkyc & H).
  apply onlyKYC_Returns in Hkyc.
  apply and_then_Returns in H as (u1 & Hprice & H).
  apply reverts_if_Returns, Z.eqb_neq in Hprice.
  apply and_then_Returns in H as (owner & Hown & H).
  apply and_then_Returns in H as (u2 & Hmine & H).
  apply reverts_if_Returns, negb_false_iff, Z.eqb_eq in Hmine.
  apply and_then_Returns in H as (nft & Hmove & H).
  injection H as <-. cbn [market invoice token] in *.
  unfold InvoiceNFT.ownerOf, InvoiceNFT._requireOwned in Hown.
  destruct (Z.eqb_spec (InvoiceNFT._ownerOf (invoice w) id) 0) as [|Hnz];
    [discriminate|].
  injection Hown as Hown. subst owner.
  repeat (split; [assumption || congruence|]).
  exists nft. split; [exact Hmove | reflexivity].
Qed.

Lemma unlist_Returns (m : Msg) (id : uint256) (w w' : World) :
  unlist m id w = Returns w' ->
  let l := listingOf (market w) id in
  _status (market w) = NOT_ENTERED /\
  active l = true /\
  seller l = msg_sender m /\
  exists nft,
    InvoiceNFT.transferFrom (asMarket m w) (this (market w)) (msg_sender m) id
      (invoice w) = Returns nft /\
    w' = {| market :=
              set_status NOT_ENTERED
                (set_listing id (closed l) (set_status ENTERED (market w)));
            invoice := nft; token := token w |}.
Proof.
  intros H l. unfold unlist in H.
  apply nonReentrant_Returns in H as (Hst & w1 & H & ->).
  apply and_then_Returns in H as (u & Hact & H).
  apply reverts_if_Returns, negb_false_iff in Hact.
  apply and_then_Returns in H as (u1 & Hmine & H).
  apply reverts_if_Returns, negb_false_iff, Z.eqb_eq in Hmine.
  apply and_then_Returns in H as (nft & Hmove & H).
  injection H as <-. cbn [market invoice token] in *.
  repeat (split; [assumption|]).
  exists nft. split; [exact Hmove | reflexivity].
Qed.

Lemma buy_Returns kyc (m : Msg) (id : uint256) (w w' : World) :
  buy kyc m id w = Returns w' ->
  let l := listingOf (market w) id in
  _status (market w) = NOT_ENTERED /\
  KYCRegistry.isKYCApproved (block_timestamp m) kyc (msg_sender m) = true /\
  active l = true /\
  exists t nft,
    DepositToken.transferFrom kyc (asMarket m w) (msg_sender m) (seller l)
      (price l) (token w) = Ok t /\
    InvoiceNFT.transferFrom (asMarket m w) (this (market w)) (msg_sender m) id
      (invoice w) = Returns nft /\
    w' = {| market :=
              set_status NOT_ENTERED
                (set_listing id (closed l) (set_status ENTERED (market w)));
            invoice := nft; token := t |}.
Proof.
  intros H l. unfold buy in H.
  apply nonReentrant_Returns in H as (Hst & w1 & H & ->).
  apply and_then_Returns in H as (u & Hkyc & H).
  apply onlyKYC_Returns in Hkyc.
  apply and_then_Returns in H as (u0 & Hact & H).
  apply reverts_if_Returns, negb_false_iff in Hact.
  apply and_then_Returns in H as (t & Hpay & H).
  apply lift_Returns in Hpay.
  apply and_then_Returns in H as (u1 & _ & H).
  apply and_then_Returns in H as (nft & Hmove & H).
  injection H as <-. cbn [market invoice token] in *.
  repeat (split; [assumption|]).
  exists t, nft. repeat (split; [assumption|]). reflexivity.
Qed.

End MarketFacts.

Section Escrow.

Import FactoringMarket.

(** The invariant after a token has moved; [s1] is the invoice contract
    just before the move, with the ownership data of [invoice w]. *)
Lemma escrow_after_move (w : World) (mk : State) (s1 nft : InvoiceNFT.State)
    (t : DepositToken.State) (to : address) (tokenId : uint256) :
  escrow_inv w ->
  moved to tokenId s1 nft ->
  InvoiceNFT._owners s1 = InvoiceNFT._owners (invoice w) ->
  InvoiceNFT._tokenApprovals s1 = InvoiceNFT._tokenApprovals (invoice w) ->
  InvoiceNFT._operatorApprovals s1 = InvoiceNFT._operatorApprovals (invoice w) ->
  (forall id, InvoiceNFT.nextId s1 <= id ->
     id <> tokenId /\ InvoiceNFT.nextId (invoice w) <= id) ->
  this mk = this (market w) ->
  _status mk = NOT_ENTERED ->
  (forall id, id <> tokenId -> listingOf mk id = listingOf (market w) id) ->
  (active (listingOf mk tokenId) = true ->
   to = this (market w) /\ seller (listingOf mk tokenId) <> 0) ->
  escrow_inv {| market := mk; invoice := nft; token := t |}.
Proof.
  intros Hinv Hmv Eown Eappr Eoper Hids Hthis Hst Hothers Hmine.
  destruct Hinv as [Hself Hguard Hheld Hseller Hops Happr Hfresh].
  destruct Hmv as [Hown Howns Hclr Hkeep Hoper Hnext Hinvs Hroles].
  unfold InvoiceNFT._ownerOf, InvoiceNFT._getApproved,
    InvoiceNFT.isApprovedForAll in *.
  rewrite Eown in *. rewrite Eappr in *. rewrite Eoper in *.
  split; cbn [market invoice token]; rewrite ?Hthis;
    unfold InvoiceNFT._ownerOf, InvoiceNFT._getApproved,
      InvoiceNFT.isApprovedForAll.
  - exact Hself.
  - exact Hst.
  - intros id Hact. destruct (Z.eq_dec id tokenId) as [->|Hne].
    + rewrite Hown. apply Hmine, Hact.
    + rewrite Howns by exact Hne. apply Hheld.
      rewrite <- Hothers by exact Hne. exact Hact.
  - intros id Hact. destruct (Z.eq_dec id tokenId) as [->|Hne].
    + apply Hmine, Hact.
    + rewrite Hothers by exact Hne. apply Hseller.
      rewrite <- Hothers by exact Hne. exact Hact.
  - intros owner operator Ho. rewrite Hoper. apply Hops, Ho.
  - intros id Ho. destruct (Z.eq_dec id tokenId) as [->|Hne].
    + destruct (Z.eq_dec (default 0 (InvoiceNFT._owners (invoice w) !! tokenId)) 0)
        as [Hz|Hnz].
      * rewrite Hkeep by (right; exact Hz). apply Happr. left. exact Hz.
      * apply Hclr, Hnz.
    + rewrite Hkeep by (left; exact Hne). apply Happr.
      rewrite <- Howns by exact Hne. exact Ho.
  - intros id Hid. rewrite Hnext in Hid. apply Hids in Hid as [Hne Hid].
    rewrite Howns by exact Hne. apply Hfresh, Hid.
Qed.

(** Who can move an invoice that is not in use or that the market owns:
    nobody from outside. *)
Lemma escrow_not_authorized (w : World) (owner x : address) (id : uint256) :
  escrow_inv w ->
  x <> 0 -> x <> this (market w) ->
  InvoiceNFT._ownerOf (invoice w) id = owner ->
  InvoiceNFT._isAuthorized (invoice w) owner x id = true ->
  owner <> 0 /\ owner <> this (market w).
Proof.
  intros Hinv Hx0 Hxs Hown Hauth.
  apply _isAuthorized_true in Hauth as (_ & Hauth).
  assert (Hcase : owner = 0 \/ owner = this (market w) ->
                  False).
  { intros Ho. destruct Hauth as [He|[Hop|Hap]].
    - destruct Ho; congruence.
    - rewrite (esc_operators w Hinv owner x Ho) in Hop. discriminate.
    - rewrite (esc_approvals w Hinv id) in Hap by (rewrite Hown; exact Ho).
      congruence. }
  split; intros He; apply Hcase; [left | right]; exact He.
Qed.

Lemma escrow_ids_in_use (w : World) (tokenId : uint256) :
  escrow_inv w ->
  InvoiceNFT._ownerOf (invoice w) tokenId <> 0 ->
  forall id, InvoiceNFT.nextId (invoice w) <= id ->
    id <> tokenId /\ InvoiceNFT.nextId (invoice w) <= id.
Proof.
  intros Hinv Hnz id Hid. split; [|exact Hid].
  intros ->. apply Hnz, (esc_fresh w Hinv), Hid.
Qed.

Lemma market_exec_inv kyc (m : Msg) (c : market_call) (w w' : World) :
  escrow_inv w ->
  msg_sender m <> 0 -> msg_sender m <> this (market w) ->
  market_exec kyc m c w = Returns w' ->
  escrow_inv w'.
Proof.
  intros Hinv Hx0 Hxs H.
  pose proof (esc_self w Hinv) as Hself.
  destruct c as [id price_|id|id|from to id|to id|operator approved
                |supplier_ issuer_ faceValue_ dueDate_ uri|o];
    cbn [market_exec] in H.
  - (* list *)
    apply list_Returns in H as (Hst & Hkyc & Hprice & Hown & _ & nft & Hmove & ->).
    apply transferFrom_moved in Hmove as (Hto & _ & _ & Hmv).
    eapply escrow_after_move; try eassumption; try reflexivity.
    + apply escrow_ids_in_use; [exact Hinv | congruence].
    + intros id' Hne. rewrite listingOf_set_status.
      rewrite listingOf_set_listing_ne by exact Hne. reflexivity.
    + intros _. rewrite listingOf_set_status, listingOf_set_listing_eq.
      cbn. split; [reflexivity | exact Hx0].
  - (* unlist *)
    apply unlist_Returns in H as (Hst & Hact & Hsel & nft & Hmove & ->).
    apply transferFrom_moved in Hmove as (Hto & Hown & _ & Hmv).
    eapply escrow_after_move; try eassumption; try reflexivity.
    + apply escrow_ids_in_use; [exact Hinv | congruence].
    + intros id' Hne. rewrite listingOf_set_status.
      rewrite listingOf_set_listing_ne by exact Hne. reflexivity.
    + rewrite listingOf_set_status, listingOf_set_listing_eq.
      cbn. discriminate.
  - (* buy *)
    apply buy_Returns in H as (Hst & Hkyc & Hact & t & nft & Hpay & Hmove & ->).
    apply transferFrom_moved in Hmove as (Hto & Hown & _ & Hmv).
    eapply escrow_after_move; try eassumption; try reflexivity.
    + apply escrow_ids_in_use; [exact Hinv | congruence].
    + intros id' Hne. rewrite listingOf_set_status.
      rewrite listingOf_set_listing_ne by exact Hne. reflexivity.
    + rewrite listingOf_set_status, listingOf_set_listing_eq.
      cbn. discriminate.
  - (* transferFrom of the invoice contract *)
    apply and_then_Returns in H as (nft & Hmove & H). injection H as <-.
    apply transferFrom_moved in Hmove as (Hto & Hown & Hauth & Hmv).
    specialize (Hauth Hx0).
    destruct (escrow_not_authorized w from (msg_sender m) id Hinv Hx0 Hxs Hown Hauth)
      as [Hf0 Hfs].
    unfold with_invoice.
    eapply escrow_after_move; try eassumption; try reflexivity.
    + apply escrow_ids_in_use; [exact Hinv | congruence].
    + exact (esc_guard w Hinv).
    + intros Hact. exfalso. apply Hfs. rewrite <- Hown.
      apply (esc_held w Hinv), Hact.
  - (* approve *)
    apply and_then_Returns in H as (nft & Happ & H). injection H as <-.
    unfold InvoiceNFT.approve in Happ.
    apply and_then_Returns in Happ as (owner & Hown & Happ).
    apply and_then_Returns in Happ as (u & Hchk & Happ).
    injection Happ as <-.
    unfold InvoiceNFT._requireOwned in Hown.
    destruct (Z.eqb_spec (InvoiceNFT._ownerOf (invoice w) id) 0) as [|Hnz];
      [discriminate|].
    injection Hown as Hown.
    apply reverts_if_Returns in Hchk.
    assert (Hns : owner <> this (market w)).
    { intros He.
      destruct (Z.eqb_spec (msg_sender m) 0) as [|_]; [contradiction|].
      destruct (Z.eqb_spec owner (msg_sender m)) as [|_]; [congruence|].
      rewrite (esc_operators w Hinv owner (msg_sender m)) in Hchk
        by (right; exact He).
      discriminate. }
    destruct Hinv as [_ Hguard Hheld Hseller Hops Happr Hfresh].
    split; unfold with_invoice; cbn [market invoice token]; try assumption.
    intros id' Ho. change (InvoiceNFT._ownerOf (InvoiceNFT.set_approved id to (invoice w)) id')
      with (InvoiceNFT._ownerOf (invoice w) id') in Ho.
    unfold InvoiceNFT._getApproved, InvoiceNFT.set_approved. cbn.
    destruct (Z.eq_dec id' id) as [->|Hne].
    + exfalso. destruct Ho; congruence.
    + rewrite lookup_insert_ne by congruence. apply Happr, Ho.
  - (* setApprovalForAll *)
    apply and_then_Returns in H as (nft & Happ & H). injection H as <-.
    unfold InvoiceNFT.setApprovalForAll in Happ.
    apply and_then_Returns in Happ as (u & _ & Happ). injection Happ as <-.
    destruct Hinv as [_ Hguard Hheld Hseller Hops Happr Hfresh].
    split; unfold with_invoice; cbn [market invoice token]; try assumption.
    intros owner op Ho.
    unfold InvoiceNFT.isApprovedForAll, InvoiceNFT.set_operator. cbn.
    rewrite lookup_insert_ne by (destruct Ho; congruence).
    apply Hops, Ho.
  - (* mintInvoice *)
    apply and_then_Returns in H as ([id nft] & Hmint & H). injection H as <-.
    unfold InvoiceNFT.mintInvoice in Hmint.
    apply and_then_Returns in Hmint as (u & _ & Hmint).
    apply and_then_Returns in Hmint as (next & Hnext & Hmint).
    apply lift_Returns, checked_add_Ok in Hnext.
    apply and_then_Returns in Hmint as (s2 & Hmint & Hret).
    injection Hret as <- <-.
    unfold InvoiceNFT._mint in Hmint.
    apply and_then_Returns in Hmint as (u1 & Hto & Hmint).
    apply reverts_if_Returns, Z.eqb_neq in Hto.
    apply and_then_Returns in Hmint as ([prev s3] & Hupd & Hmint).
    apply and_then_Returns in Hmint as (u2 & _ & Hmint).
    cbn [fst snd] in Hmint. injection Hmint as ->.
    apply _update_moved in Hupd as (_ & _ & Hmv). specialize (Hmv Hto).
    unfold with_invoice. cbn [snd].
    eapply escrow_after_move; try eassumption; try reflexivity.
    + cbn [InvoiceNFT.nextId]. intros id' Hid. lia.
    + exact (esc_guard w Hinv).
    + intros Hact. exfalso.
      pose proof (esc_held w Hinv _ Hact) as Hh.
      rewrite (esc_fresh w Hinv) in Hh by lia. congruence.
  - (* a call of the token *)
    apply and_then_Returns in H as (t & _ & H). injection H as <-.
    destruct Hinv. split; assumption.
Qed.

Lemma market_exec_this kyc (m : Msg) (c : market_call) (w w' : World) :
  market_exec kyc m c w = Returns w' ->
  this (market w') = this (market w).
Proof.
  intros H. destruct c; cbn [market_exec] in H.
  - apply list_Returns in H as (_ & _ & _ & _ & _ & nft & _ & ->). reflexivity.
  - apply unlist_Returns in H as (_ & _ & _ & nft & _ & ->). reflexivity.
  - apply buy_Returns in H as (_ & _ & _ & t & nft & _ & _ & ->). reflexivity.
  - apply and_then_Returns in H as (x & _ & H). injection H as <-. reflexivity.
  - apply and_then_Returns in H as (x & _ & H). injection H as <-. reflexivity.
  - apply and_then_Returns in H as (x & _ & H). injection H as <-. reflexivity.
  - apply and_then_Returns in H as (x & _ & H). injection H as <-. reflexivity.
  - apply and_then_Returns in H as (x & _ & H). injection H as <-. reflexivity.
Qed.

Lemma market_run_inv (cs : list (KYCRegistry.State * Msg * market_call))
    (w : World) :
  escrow_inv w ->
  Forall (sent_from_outside (this (market w))) cs ->
  escrow_inv (market_run w cs) /\
  this (market (market_run w cs)) = this (market w).
Proof.
  revert w. induction cs as [|[[kyc m] c] cs IH]; intros w Hinv Hcs.
  - split; [exact Hinv | reflexivity].
  - apply Forall_cons in Hcs as [[Hx0 Hxs] Hcs]. cbn [fst snd] in Hx0, Hxs.
    assert (Hstep : escrow_inv (market_step w (kyc, m, c)) /\
                    this (market (market_step w (kyc, m, c))) = this (market w)).
    { unfold market_step.
      destruct (market_exec kyc m c w) as [w1|e] eqn:E; cbn [settle].
      - split.
        + exact (market_exec_inv kyc m c w w1 Hinv Hx0 Hxs E).
        + exact (market_exec_this kyc m c w w1 E).
      - split; [exact Hinv | reflexivity]. }
    destruct Hstep as [Hinv1 Hthis1].
    change (market_run w ((kyc, m, c) :: cs))
      with (market_run (market_step w (kyc, m, c)) cs).
    destruct (IH (market_step w (kyc, m, c)) Hinv1) as [Hfin Hthis].
    + rewrite Hthis1. exact Hcs.
    + split; [exact Hfin | congruence].
Qed.

Lemma escrow_inv_deployed (self admin bank : address) (t : DepositToken.State) :
  self <> 0 ->
  escrow_inv {| market := constructor self admin;
                invoice := InvoiceNFT.constructor bank;
                token := t |}.
Proof.
  intros Hself. split; cbn; try reflexivity; try assumption.
  - intros id. unfold listingOf. cbn. rewrite lookup_empty. discriminate.
  - intros id. unfold listingOf. cbn. rewrite lookup_empty. discriminate.
Qed.

End Escrow.

Section MarketOwnership.

Import FactoringMarket.

Lemma ownerOf_Returns (s : InvoiceNFT.State) (id : uint256) (owner : address) :
  owner <> 0 -> InvoiceNFT._ownerOf s id = owner ->
  InvoiceNFT.ownerOf s id = Returns owner.
Proof.
  intros Hnz Hown. unfold InvoiceNFT.ownerOf, InvoiceNFT._requireOwned.
  rewrite Hown. destruct (Z.eqb_spec owner 0); [contradiction | reflexivity].
Qed.

Lemma _isAuthorized_owner (s : InvoiceNFT.State) (owner : address) (id : uint256) :
  owner <> 0 -> InvoiceNFT._isAuthorized s owner owner id = true.
Proof.
  intros Hnz. unfold InvoiceNFT._isAuthorized.
  destruct (Z.eqb_spec owner 0); [contradiction|].
  rewrite Z.eqb_refl. reflexivity.
Qed.

End MarketOwnership.



(** X22. The seller of an active listing can always take the invoice back.
    In a state that satisfies the escrow invariant, [unlist] called by the
    seller returns: the invoice is owned by the seller again, the listing
    is closed with its seller and price kept, and no other listing and not
    the token is touched. The call asks for no KYC approval. *)
Theorem seller_can_always_unlist
    (m : Msg) (id : uint256) (w : FactoringMarket.World) :
  escrow_inv w ->
  let l := FactoringMarket.listingOf (FactoringMarket.market w) id in
  FactoringMarket.active l = true ->
  msg_sender m = FactoringMarket.seller l ->
  exists w',
    FactoringMarket.unlist m id w = Returns w' /\
    InvoiceNFT.ownerOf (FactoringMarket.invoice w') id = Returns (msg_sender m) /\
    FactoringMarket.listingOf (FactoringMarket.market w') id = closed l /\
    (forall id', id' <> id ->
       FactoringMarket.listingOf (FactoringMarket.market w') id'
         = FactoringMarket.listingOf (FactoringMarket.market w) id') /\
    FactoringMarket.token w' = FactoringMarket.token w.
Proof.
  intros Hinv l Hact Hsel.
  pose proof (esc_self w Hinv) as Hself.
  pose proof (esc_guard w Hinv) as Hst.
  pose proof (esc_held w Hinv id Hact) as Hheld.
  pose proof (esc_seller w Hinv id Hact) as Hnz. fold l in Hnz.
  set (w0 := {| FactoringMarket.market :=
                  FactoringMarket.set_status FactoringMarket.ENTERED
                    (FactoringMarket.market w);
                FactoringMarket.invoice := FactoringMarket.invoice w;
                FactoringMarket.token := FactoringMarket.token w |}).
  destruct (transferFrom_Returns (FactoringMarket.asMarket m w0)
              (FactoringMarket.this (FactoringMarket.market w)) (msg_sender m)
              id (FactoringMarket.invoice w)) as (nft & Hmove).
  { congruence. }
  { exact Hheld. }
  { apply _isAuthorized_owner, Hself. }
  assert (Hret : FactoringMarket.unlist m id w
            = Returns {| FactoringMarket.market :=
                           FactoringMarket.set_status FactoringMarket.NOT_ENTERED
                             (FactoringMarket.set_listing id (closed l)
                                (FactoringMarket.market w0));
                         FactoringMarket.invoice := nft;
                         FactoringMarket.token := FactoringMarket.token w |}).
  { unfold FactoringMarket.unlist, FactoringMarket.nonReentrant.
    rewrite Hst. cbn [reverts_if and_then].
    fold w0.
    change (FactoringMarket.listingOf (FactoringMarket.market w0) id) with l.
    rewrite Hact. cbn [negb reverts_if and_then].
    rewrite <- Hsel, Z.eqb_refl. cbn [negb reverts_if and_then].
    change (FactoringMarket.this (FactoringMarket.market w0))
      with (FactoringMarket.this (FactoringMarket.market w)).
    change (FactoringMarket.invoice w0) with (FactoringMarket.invoice w).
    rewrite Hmove. cbn [and_then]. rewrite Hsel. reflexivity. }
  eexists. split; [exact Hret|].
  cbn [FactoringMarket.market FactoringMarket.invoice FactoringMarket.token].
  apply transferFrom_moved in Hmove as (_ & _ & _ & Hmv).
  split.
  { apply ownerOf_Returns; [congruence | apply (mv_owner _ _ _ _ Hmv)]. }
  split.
  { rewrite listingOf_set_status. apply listingOf_set_listing_eq. }
  split; [|reflexivity].
  intros id' Hne. rewrite listingOf_set_status.
  rewrite listingOf_set_listing_ne by exact Hne. reflexivity.
Qed.

Lemma escrow_inv_market_deployed : escrow_inv market_deployed.
Proof. apply escrow_inv_deployed. discriminate. Qed.

Lemma escrow_inv_market_approved : escrow_inv market_approved.
Proof.
  apply market_run_inv; [exact escrow_inv_market_deployed|].
  repeat (apply Forall_cons; split); try (split; vm_compute; discriminate).
  constructor.
Qed.

Lemma escrow_inv_market_listed : escrow_inv market_listed.
Proof.
  apply market_run_inv; [exact escrow_inv_market_approved|].
  repeat (apply Forall_cons; split); try (split; vm_compute; discriminate).
  constructor.
Qed.

Lemma seller_can_always_unlist_witness :
  exists w',
    FactoringMarket.unlist (call_from 3) 1 market_listed = Returns w' /\
    InvoiceNFT.ownerOf (FactoringMarket.invoice w') 1 = Returns 3.
Proof.
  destruct (seller_can_always_unlist (call_from 3) 1 market_listed)
    as (w' & Hret & Hown & _).
  - exact escrow_inv_market_listed.
  - vm_compute; reflexivity.
  - vm_compute; reflexivity.
  - exists w'. split; [exact Hret | exact Hown].
Defined.

(** X23. [buy] settles a sale. In a state that satisfies the escrow
    invariant, for an active listing and an approved buyer other than the
    seller, the call returns exactly when the token lets the market pull
    the price from the buyer to the seller; a refusal of the token is the
    refusal of [buy]. When it returns, the buyer has paid the price, the
    seller has received it, the buyer owns the invoice and the listing is
    closed. *)
Theorem buy_settles_the_sale
    (kyc : KYCRegistry.State) (m : Msg) (id : uint256)
    (w : FactoringMarket.World) :
  escrow_inv w ->
  token_inv (FactoringMarket.token w) ->
  let l := FactoringMarket.listingOf (FactoringMarket.market w) id in
  let pull :=
    DepositToken.transferFrom kyc (FactoringMarket.asMarket m w) (msg_sender m)
      (FactoringMarket.seller l) (FactoringMarket.price l)
      (FactoringMarket.token w) in
  FactoringMarket.active l = true ->
  KYCRegistry.isKYCApproved (block_timestamp m) kyc (msg_sender m) = true ->
  msg_sender m <> 0 ->
  msg_sender m <> FactoringMarket.seller l ->
  0 <= FactoringMarket.price l ->
  (forall e, pull = Revert e ->
     FactoringMarket.buy kyc m id w = Reverts (Base e)) /\
  (forall t, pull = Ok t ->
     exists w',
       FactoringMarket.buy kyc m id w = Returns w' /\
       FactoringMarket.token w' = t /\
       InvoiceNFT.ownerOf (FactoringMarket.invoice w') id
         = Returns (msg_sender m) /\
       FactoringMarket.listingOf (FactoringMarket.market w') id = closed l /\
       DepositToken.balanceOf t (msg_sender m)
         = DepositToken.balanceOf (FactoringMarket.token w) (msg_sender m)
           - FactoringMarket.price l /\
       DepositToken.balanceOf t (FactoringMarket.seller l)
         = DepositToken.balanceOf (FactoringMarket.token w)
             (FactoringMarket.seller l)
           + FactoringMarket.price l /\
       DepositToken.totalSupply t
         = DepositToken.totalSupply (FactoringMarket.token w)).
Proof.
  intros Hinv Htok l pull Hact Hkyc Hx0 Hne Hprice.
  pose proof (esc_self w Hinv) as Hself.
  pose proof (esc_guard w Hinv) as Hst.
  pose proof (esc_held w Hinv id Hact) as Hheld.
  set (w0 := {| FactoringMarket.market :=
                  FactoringMarket.set_status FactoringMarket.ENTERED
                    (FactoringMarket.market w);
                FactoringMarket.invoice := FactoringMarket.invoice w;
                FactoringMarket.token := FactoringMarket.token w |}).
  destruct (transferFrom_Returns (FactoringMarket.asMarket m w0)
              (FactoringMarket.this (FactoringMarket.market w)) (msg_sender m)
              id (FactoringMarket.invoice w)) as (nft & Hmove).
  { exact Hx0. }
  { exact Hheld. }
  { apply _isAuthorized_owner, Hself. }
  assert (Hpre : FactoringMarket.buy kyc m id w
            = let+ t := lift pull in
              Returns {| FactoringMarket.market :=
                           FactoringMarket.set_status FactoringMarket.NOT_ENTERED
                             (FactoringMarket.set_listing id (closed l)
                                (FactoringMarket.market w0));
                         FactoringMarket.invoice := nft;
                         FactoringMarket.token := t |}).
  { unfold FactoringMarket.buy, FactoringMarket.nonReentrant.
    rewrite Hst. cbn [reverts_if and_then].
    fold w0. unfold FactoringMarket.onlyKYC. rewrite Hkyc.
    cbn [negb reverts_if and_then].
    change (FactoringMarket.listingOf (FactoringMarket.market w0) id) with l.
    rewrite Hact. cbn [negb reverts_if and_then].
    change (FactoringMarket.token w0) with (FactoringMarket.token w).
    change (DepositToken.transferFrom kyc (FactoringMarket.asMarket m w0)
              (msg_sender m) (FactoringMarket.seller l)
              (FactoringMarket.price l) (FactoringMarket.token w)) with pull.
    destruct pull as [t|e]; cbn [lift and_then require]; [|reflexivity].
    change (FactoringMarket.this (FactoringMarket.market w0))
      with (FactoringMarket.this (FactoringMarket.market w)).
    change (FactoringMarket.invoice w0) with (FactoringMarket.invoice w).
    rewrite Hmove. reflexivity. }
  split.
  - intros e He. rewrite Hpre, He. reflexivity.
  - intros t Ht. rewrite Hpre, Ht. cbn [lift and_then].
    eexists. split; [reflexivity|].
    cbn [FactoringMarket.market FactoringMarket.invoice FactoringMarket.token].
    split; [reflexivity|].
    apply transferFrom_moved in Hmove as (_ & _ & _ & Hmv).
    split.
    { apply ownerOf_Returns; [exact Hx0 | apply (mv_owner _ _ _ _ Hmv)]. }
    split.
    { rewrite listingOf_set_status. apply listingOf_set_listing_eq. }
    subst pull.
    apply transferFrom_Ok in Ht as (t0 & Hb0 & Hs0 & _ & _ & Hpaid);
      [|exact Hprice|exact Htok|exact Hne].
    destruct Hpaid as [_ _ _ _ _ Hfrom Hto _ Hsup _ _ _ _].
    rewrite (balanceOf_same_ledger (FactoringMarket.token w) t0) in Hfrom, Hto
      by exact Hb0.
    split; [exact Hfrom|]. split; [exact Hto|].
    unfold DepositToken.totalSupply. congruence.
Qed.

Lemma buy_settles_the_sale_witness :
  exists w',
    FactoringMarket.buy registry_customers (call_from 2) 1 market_listed
      = Returns w' /\
    InvoiceNFT.ownerOf (FactoringMarket.invoice w') 1 = Returns 2 /\
    DepositToken.balanceOf (FactoringMarket.token w') 3 = 80.
Proof.
  pose proof (buy_settles_the_sale registry_customers (call_from 2) 1
                market_listed escrow_inv_market_listed) as H.
  cbv zeta in H. destruct H as [_ H].
  - apply token_inv_decide; vm_compute; reflexivity.
  - vm_compute; reflexivity.
  - vm_compute; reflexivity.
  - vm_compute; discriminate.
  - vm_compute; discriminate.
  - vm_compute; discriminate.
  - destruct (H (commit (FactoringMarket.token market_listed)
                   (DepositToken.transferFrom registry_customers
                      (FactoringMarket.asMarket (call_from 2) market_listed)
                      2 3 60 (FactoringMarket.token market_listed))))
      as (w' & Hret & Htok & Hown & _).
    + vm_compute; reflexivity.
    + exists w'. split; [exact Hret|]. split; [exact Hown|].
      rewrite Htok. vm_compute. reflexivity.
Defined.

(** X24. What the market refuses, with the guard free. A listing that is
    not active can neither be withdrawn nor bought ([NotActive]); an active
    listing can be withdrawn by its seller only ([NotOwner]); a caller
    without KYC approval can neither list nor buy; and an approved caller
    cannot list at price zero ([AmountZero]), an invoice that does not
    exist, or an invoice of somebody else ([NotOwner]). *)
Theorem market_refusals
    (kyc : KYCRegistry.State) (m : Msg) (id : uint256)
    (w : FactoringMarket.World) :
  FactoringMarket._status (FactoringMarket.market w)
    = FactoringMarket.NOT_ENTERED ->
  let l := FactoringMarket.listingOf (FactoringMarket.market w) id in
  let approved :=
    KYCRegistry.isKYCApproved (block_timestamp m) kyc (msg_sender m) in
  let owner := InvoiceNFT._ownerOf (FactoringMarket.invoice w) id in
  (FactoringMarket.active l = false ->
     FactoringMarket.unlist m id w = Reverts NotActive /\
     (approved = true -> FactoringMarket.buy kyc m id w = Reverts NotActive)) /\
  (FactoringMarket.active l = true -> msg_sender m <> FactoringMarket.seller l ->
     FactoringMarket.unlist m id w = Reverts NotOwner) /\
  (approved = false ->
     FactoringMarket.buy kyc m id w
       = Reverts (Base (NotKYCApproved (msg_sender m))) /\
     forall price,
       FactoringMarket.list_ kyc m id price w
         = Reverts (Base (NotKYCApproved (msg_sender m)))) /\
  (approved = true ->
     FactoringMarket.list_ kyc m id 0 w = Reverts (Base AmountZero) /\
     forall price, price <> 0 ->
       (owner = 0 ->
        FactoringMarket.list_ kyc m id price w
          = Reverts (ERC721NonexistentToken id)) /\
       (owner <> 0 -> owner <> msg_sender m ->
        FactoringMarket.list_ kyc m id price w = Reverts NotOwner)).
Proof.
  intros Hst l approved owner.
  unfold FactoringMarket.unlist, FactoringMarket.buy, FactoringMarket.list_,
    FactoringMarket.nonReentrant, FactoringMarket.onlyKYC.
  rewrite Hst. cbn [reverts_if and_then].
  cbn [FactoringMarket.market FactoringMarket.invoice FactoringMarket.token].
  change (FactoringMarket.listingOf
            (FactoringMarket.set_status FactoringMarket.ENTERED
               (FactoringMarket.market w)) id) with l.
  fold approved.
  split; [|split; [|split]].
  - intros Hact. rewrite Hact. split; [reflexivity|].
    intros ->. reflexivity.
  - intros Hact Hne. rewrite Hact. cbn [negb reverts_if and_then].
    destruct (Z.eqb_spec (FactoringMarket.seller l) (msg_sender m)) as [He|_];
      [congruence | reflexivity].
  - intros ->. split; [reflexivity|]. intros price. reflexivity.
  - intros ->. cbn [negb reverts_if and_then]. split; [reflexivity|].
    intros price Hprice.
    destruct (Z.eqb_spec price 0) as [|_]; [contradiction|].
    cbn [reverts_if and_then].
    unfold InvoiceNFT.ownerOf, InvoiceNFT._requireOwned. fold owner.
    split.
    + intros ->. reflexivity.
    + intros Hnz Hne.
      destruct (Z.eqb_spec owner 0) as [|_]; [contradiction|].
      cbn [and_then].
      destruct (Z.eqb_spec owner (msg_sender m)) as [|_]; [contradiction|].
      reflexivity.
Qed.

Lemma market_refusals_witness :
  FactoringMarket.unlist (call_from 2) 1 market_listed = Reverts NotOwner /\
  FactoringMarket.buy registry_customers (call_from 4) 1 market_listed
    = Reverts (Base (NotKYCApproved 4)) /\
  FactoringMarket.buy registry_customers (call_from 3) 1 market_sold
    = Reverts NotActive /\
  FactoringMarket.list_ registry_customers (call_from 3) 1 60 market_sold
    = Reverts NotOwner.
Proof.
  pose proof (market_refusals registry_customers (call_from 2) 1 market_listed)
    as H1.
  pose proof (market_refusals registry_customers (call_from 4) 1 market_listed)
    as H2.
  pose proof (market_refusals registry_customers (call_from 3) 1 market_sold)
    as H3.
  cbv zeta in H1, H2, H3.
  destruct H1 as (_ & H1 & _); [vm_compute; reflexivity|].
  destruct H2 as (_ & _ & H2 & _); [vm_compute; reflexivity|].
  destruct H3 as (H3 & _ & _ & H4); [vm_compute; reflexivity|].
  split; [|split; [|split]].
  - apply H1; [vm_compute; reflexivity | vm_compute; discriminate].
  - apply H2. vm_compute; reflexivity.
  - apply H3; vm_compute; reflexivity.
  - destruct H4 as [_ H4]; [vm_compute; reflexivity|].
    apply (H4 60); [discriminate | vm_compute; discriminate
                   | vm_compute; discriminate].
Defined.

(** X25. The escrow invariant holds along every run of calls of the market
    ([list], [unlist], [buy]), of the invoice contract ([transferFrom],
    [approve], [setApprovalForAll], [mintInvoice]) and of the token, sent
    by accounts other than the zero address and the market itself,
    reverted calls included: the invoice of every active listing stays
    owned by the market, which has no operator and whose invoices carry no
    approval, so that no outside account can move it; the guard is free;
    and the ids from [nextId] on stay unused. *)
Theorem market_run_keeps_escrow
    (w : FactoringMarket.World)
    (cs : list (KYCRegistry.State * Msg * market_call)) :
  escrow_inv w ->
  Forall (sent_from_outside
            (FactoringMarket.this (FactoringMarket.market w))) cs ->
  escrow_inv (market_run w cs) /\
  forall id x,
    FactoringMarket.active
      (FactoringMarket.listingOf
         (FactoringMarket.market (market_run w cs)) id) = true ->
    x <> FactoringMarket.this (FactoringMarket.market w) ->
    InvoiceNFT._isAuthorized (FactoringMarket.invoice (market_run w cs))
      (FactoringMarket.this (FactoringMarket.market w)) x id = false.
Proof.
  intros Hinv Hcs.
  destruct (market_run_inv cs w Hinv Hcs) as [Hfin Hthis].
  split; [exact Hfin|].
  intros id x Hact Hx.
  destruct (InvoiceNFT._isAuthorized (FactoringMarket.invoice (market_run w cs))
              (FactoringMarket.this (FactoringMarket.market w)) x id) eqn:E;
    [|reflexivity].
  exfalso.
  pose proof (_isAuthorized_true _ _ _ _ E) as [Hx0 _].
  rewrite <- Hthis in E, Hx.
  destruct (escrow_not_authorized (market_run w cs) _ x id Hfin Hx0 Hx
              (esc_held _ Hfin id Hact) E) as [_ Hns].
  apply Hns. reflexivity.
Qed.

Lemma market_run_keeps_escrow_witness :
  escrow_inv market_sold /\
  InvoiceNFT._isAuthorized (FactoringMarket.invoice market_listed) 40 3 1 = false.
Proof.
  split.
  - apply (market_run_keeps_escrow market_listed
             [ (registry_customers, call_from 2, MBuy 1) ]).
    + exact escrow_inv_market_listed.
    + repeat (apply Forall_cons; split); try (split; vm_compute; discriminate).
      constructor.
  - apply (market_run_keeps_escrow market_approved
             [ (registry_customers, call_from 3, MList 1 60);
               (registry_customers, call_from 2,
                TToken (DepositToken.Approve 40 1000)) ]).
    + exact escrow_inv_market_approved.
    + repeat (apply Forall_cons; split); try (split; vm_compute; discriminate).
      constructor.
    + vm_compute; reflexivity.
    + vm_compute; discriminate.
Defined.

(** X26. [mintInvoice] issues the ids in sequence. A caller without the
    bank role is refused. For a bank, while the ids from [nextId] on are
    unused and [nextId] is below the largest word, a mint to the zero
    address is refused and any other mint returns the id [nextId]: the
    supplier owns the new invoice, its data and URI are those passed,
    [nextId] has advanced by one, no other invoice has changed owner or
    data, and the ids from the new [nextId] on are unused again. *)
Theorem mintInvoice_issues_the_next_id
    (m : Msg) (supplier issuer : address) (faceValue dueDate : uint256)
    (uri : string) (s : InvoiceNFT.State) :
  let id := InvoiceNFT.nextId s in
  let call :=
    InvoiceNFT.mintInvoice m supplier issuer faceValue dueDate uri s in
  (InvoiceNFT.hasRole s BANK_ROLE (msg_sender m) = false ->
   call = Reverts (InvoiceUnauthorizedAccount (msg_sender m) BANK_ROLE)) /\
  (InvoiceNFT.hasRole s BANK_ROLE (msg_sender m) = true ->
   id < MAX_UINT256 ->
   (forall id', id <= id' -> InvoiceNFT._ownerOf s id' = 0) ->
   (supplier = 0 -> call = Reverts (ERC721InvalidReceiver 0)) /\
   (supplier <> 0 ->
    exists s',
      call = Returns (id, s') /\
      InvoiceNFT.nextId s' = id + 1 /\
      InvoiceNFT.ownerOf s' id = Returns supplier /\
      InvoiceNFT.tokenURI s' id = Returns uri /\
      InvoiceNFT.invoiceOf s' id
        = {| InvoiceNFT.metadataURI := uri;
             InvoiceNFT.faceValue := faceValue;
             InvoiceNFT.dueDate := dueDate;
             InvoiceNFT.issuer := issuer;
             InvoiceNFT.supplier := supplier |} /\
      (forall id', id' <> id ->
         InvoiceNFT._ownerOf s' id' = InvoiceNFT._ownerOf s id' /\
         InvoiceNFT.invoiceOf s' id' = InvoiceNFT.invoiceOf s id') /\
      (forall id', id + 1 <= id' -> InvoiceNFT._ownerOf s' id' = 0))).
Proof.
  intros id call. subst call.
  unfold InvoiceNFT.mintInvoice, InvoiceNFT.onlyRole. split.
  - intros ->. reflexivity.
  - intros -> Hroom Hfresh. cbn [negb reverts_if and_then].
    unfold checked_add. fold id.
    destruct (Z.leb_spec (id + 1) MAX_UINT256) as [_|]; [|lia].
    cbn [lift and_then]. unfold InvoiceNFT._mint. split.
    + intros ->. reflexivity.
    + intros Hnz. destruct (Z.eqb_spec supplier 0) as [|_]; [contradiction|].
      cbn [reverts_if and_then].
      match goal with
      | |- context [InvoiceNFT._update supplier id 0 ?s1] => set (s1' := s1)
      end.
      destruct (InvoiceNFT._update supplier id 0 s1') as [[prev s2]|e] eqn:Hupd.
      2:{ exfalso. destruct (_update_Returns supplier id 0 s1') as (s2 & H2);
            [left; reflexivity | congruence]. }
      apply _update_moved in Hupd as (Hprev & _ & Hmv). specialize (Hmv Hnz).
      assert (Hp0 : prev = 0).
      { rewrite Hprev. change (InvoiceNFT._ownerOf s1' id)
          with (InvoiceNFT._ownerOf s id). apply Hfresh. lia. }
      rewrite Hp0. cbn [and_then fst snd negb Z.eqb reverts_if].
      exists s2. split; [reflexivity|].
      destruct Hmv as [Ho Hos _ _ _ Hnext Hinvs _].
      split; [rewrite Hnext; reflexivity|].
      split; [apply ownerOf_Returns; assumption|].
      assert (Hdata : InvoiceNFT.invoiceOf s2 id
                = {| InvoiceNFT.metadataURI := uri;
                     InvoiceNFT.faceValue := faceValue;
                     InvoiceNFT.dueDate := dueDate;
                     InvoiceNFT.issuer := issuer;
                     InvoiceNFT.supplier := supplier |}).
      { unfold InvoiceNFT.invoiceOf. rewrite Hinvs. subst s1'. cbn.
        rewrite lookup_insert_eq. reflexivity. }
      split.
      { unfold InvoiceNFT.tokenURI. rewrite Ho.
        destruct (Z.eqb_spec supplier 0) as [|_]; [contradiction|].
        cbn [negb require lift and_then]. rewrite Hdata. reflexivity. }
      split; [exact Hdata|]. split.
      * intros id' Hne. split; [apply Hos, Hne|].
        unfold InvoiceNFT.invoiceOf. rewrite Hinvs. subst s1'. cbn.
        rewrite lookup_insert_ne by congruence. reflexivity.
      * intros id' Hid. rewrite Hos by lia.
        change (InvoiceNFT._ownerOf s1' id') with (InvoiceNFT._ownerOf s id').
        apply Hfresh. lia.
Qed.

Lemma mintInvoice_issues_the_next_id_witness :
  InvoiceNFT.mintInvoice (call_from 3) 3 5 100 1000 "ipfs://invoice-2"
    (FactoringMarket.invoice market_listed)
    = Reverts (InvoiceUnauthorizedAccount 3 BANK_ROLE) /\
  exists s',
    InvoiceNFT.mintInvoice (call_from 1) 3 5 100 1000 "ipfs://invoice-2"
      (FactoringMarket.invoice market_listed) = Returns (2, s') /\
    InvoiceNFT.ownerOf s' 2 = Returns 3.
Proof.
  pose proof (mintInvoice_issues_the_next_id (call_from 3) 3 5 100 1000
                "ipfs://invoice-2" (FactoringMarket.invoice market_listed))
    as H1.
  pose proof (mintInvoice_issues_the_next_id (call_from 1) 3 5 100 1000
                "ipfs://invoice-2" (FactoringMarket.invoice market_listed))
    as H2.
  cbv zeta in H1, H2.
  destruct H1 as [H1 _]. destruct H2 as [_ H2].
  split; [apply H1; vm_compute; reflexivity|].
  destruct H2 as [_ H2].
  - vm_compute; reflexivity.
  - vm_compute; reflexivity.
  - exact (esc_fresh market_listed escrow_inv_market_listed).
  - destruct H2 as (s' & Hret & _ & Hown & _); [discriminate|].
    exists s'. split.
    + rewrite Hret. vm_compute. reflexivity.
    + rewrite <- Hown. vm_compute. reflexivity.
Defined.

(** ** server.js: the canonical form *)

Section KeyOrder.

Import Server.

Lemma lt_units_irrefl (a : list N) : lt_units a a = false.
Proof.
  induction a as [|x a IH]; [reflexivity|]. cbn.
  rewrite N.ltb_irrefl. exact IH.
Qed.

Lemma lt_units_total (a b : list N) :
  lt_units a b = false -> lt_units b a = false -> a = b.
Proof.
  revert b. induction a as [|x a IH]; intros [|y b]; cbn; try discriminate.
  - reflexivity.
  - destruct (N.ltb_spec x y) as [Hxy|Hxy]; [discriminate|].
    destruct (N.ltb_spec y x) as [Hyx|Hyx]; [discriminate|].
    intros H1 H2. assert (x = y) by lia. subst y. f_equal. apply IH; assumption.
Qed.

Lemma lt_units_asym (a b : list N) :
  lt_units a b = true -> lt_units b a = false.
Proof.
  revert b. induction a as [|x a IH]; intros [|y b]; cbn; try discriminate.
  - reflexivity.
  - destruct (N.ltb_spec x y) as [Hxy|Hxy].
    + intros _. destruct (N.ltb_spec y x) as [Hyx|Hyx]; [lia|].
      destruct (N.ltb_spec x y); [reflexivity | lia].
    + destruct (N.ltb_spec y x) as [Hyx|Hyx]; [discriminate|]. apply IH.
Qed.

Lemma lt_units_trans (a b c : list N) :
  lt_units a b = true -> lt_units b c = true -> lt_units a c = true.
Proof.
  revert b c. induction a as [|x a IH]; intros [|y b] [|z c]; cbn;
    try discriminate; try reflexivity.
  destruct (N.ltb_spec x y) as [Hxy|Hxy].
  - intros _. destruct (N.ltb_spec y z) as [Hyz|Hyz].
    + intros _. destruct (N.ltb_spec x z); [reflexivity | lia].
    + destruct (N.ltb_spec z y) as [Hzy|Hzy]; [discriminate|].
      intros _. destruct (N.ltb_spec x z); [reflexivity | lia].
  - destruct (N.ltb_spec y x) as [Hyx|Hyx]; [discriminate|].
    intros Hab. destruct (N.ltb_spec y z) as [Hyz|Hyz].
    + intros _. destruct (N.ltb_spec x z); [reflexivity | lia].
    + destruct (N.ltb_spec z y) as [Hzy|Hzy]; [discriminate|].
      intros Hbc. destruct (N.ltb_spec x z) as [|Hxz]; [reflexivity|].
      destruct (N.ltb_spec z x); [lia|]. exact (IH b c Hab Hbc).
Qed.

(** Inserting two keys gives the same list in either order. *)
Lemma insert_key_comm (a b : list N) (l : list (list N)) :
  insert_key a (insert_key b l) = insert_key b (insert_key a l).
Proof.
  induction l as [|c l IH]; cbn.
  - destruct (lt_units b a) eqn:Eba, (lt_units a b) eqn:Eab; try reflexivity.
    + apply lt_units_asym in Eba. congruence.
    + rewrite (lt_units_total a b Eab Eba). reflexivity.
  - destruct (lt_units c a) eqn:Eca, (lt_units c b) eqn:Ecb; cbn;
      rewrite ?Eca, ?Ecb.
    + rewrite IH. reflexivity.
    + destruct (lt_units b a) eqn:Eba; [reflexivity|].
      destruct (lt_units b c) eqn:Ebc.
      * rewrite (lt_units_trans b c a Ebc Eca) in Eba. discriminate.
      * rewrite (lt_units_total c b Ecb Ebc) in Eca. congruence.
    + destruct (lt_units a b) eqn:Eab; [reflexivity|].
      destruct (lt_units a c) eqn:Eac.
      * rewrite (lt_units_trans a c b Eac Ecb) in Eab. discriminate.
      * rewrite (lt_units_total c a Eca Eac) in Ecb. congruence.
    + destruct (lt_units b a) eqn:Eba, (lt_units a b) eqn:Eab; try reflexivity.
      * apply lt_units_asym in Eba. congruence.
      * rewrite (lt_units_total a b Eab Eba). reflexivity.
Qed.

Lemma sort_Permutation (l1 l2 : list (list N)) :
  Permutation l1 l2 -> sort l1 = sort l2.
Proof.
  induction 1 as [|x l1 l2 _ IH|x y l|l1 l2 l3 _ IH1 _ IH2]; cbn.
  - reflexivity.
  - unfold sort in IH. rewrite IH. reflexivity.
  - apply insert_key_comm.
  - congruence.
Qed.

Lemma get_Some_In {A : Type} (k : list N) (fields : list (list N * A)) (v : A) :
  get k fields = Some v -> In (k, v) fields.
Proof.
  induction fields as [|[k' v'] fields IH]; cbn; [discriminate|].
  destruct (bool_decide_reflect (k' = k)) as [->|_].
  - intros [= ->]. left. reflexivity.
  - intros H. right. apply IH, H.
Qed.

Lemma get_None_iff {A : Type} (k : list N) (fields : list (list N * A)) :
  get k fields = None <-> ~ In k (map fst fields).
Proof.
  induction fields as [|[k' v'] fields IH]; cbn.
  - split; [intros _ [] | reflexivity].
  - destruct (bool_decide_reflect (k' = k)) as [->|Hne].
    + split; [discriminate | intros H; exfalso; apply H; left; reflexivity].
    + rewrite IH. split.
      * intros H [He|Hin]; [contradiction | apply H, Hin].
      * intros H Hin. apply H. right. exact Hin.
Qed.

Lemma get_map {A B : Type} (g : A -> B) (k : list N) (fields : list (list N * A)) :
  get k (map (fun kv => let '(k, v) := kv in (k, g v)) fields)
    = option_map g (get k fields).
Proof.
  induction fields as [|[k' v'] fields IH]; cbn; [reflexivity|].
  destruct (bool_decide (k' = k)); [reflexivity | exact IH].
Qed.

Variable number : Type.

(** Induction on a value, with the hypothesis for every item of an array
    and every field of an object. *)
Lemma value_induction (P : value number -> Prop) :
  P Null -> (forall b, P (Bool b)) -> (forall n, P (Number n)) ->
  (forall s, P (String s)) ->
  (forall items, Forall P items -> P (Array items)) ->
  (forall fields, Forall (fun kv => P (snd kv)) fields -> P (Object fields)) ->
  forall v, P v.
Proof.
  intros Hnull Hbool Hnum Hstr Harr Hobj.
  fix IH 1. intros [|b|n|s|items|fields].
  - exact Hnull.
  - apply Hbool.
  - apply Hnum.
  - apply Hstr.
  - apply Harr. induction items as [|v items IHitems].
    + apply List.Forall_nil.
    + apply List.Forall_cons; [apply IH | exact IHitems].
  - apply Hobj. induction fields as [|[k v] fields IHfields].
    + apply List.Forall_nil.
    + apply List.Forall_cons; [apply IH | exact IHfields].
Qed.

Variable JSON_stringify_number : number -> list N.
Variable JSON_stringify_string : list N -> list N.

Lemma stableStringify_same_data (v1 v2 : value number) :
  same_data v1 v2 ->
  stableStringify JSON_stringify_number JSON_stringify_string v1
  = stableStringify JSON_stringify_number JSON_stringify_string v2.
Proof.
  revert v2. induction v1 as [|b|n|s|items IH|fields IH] using value_induction;
    intros v2 Hsame; inversion Hsame; subst; try reflexivity.
  - cbn [stableStringify]. do 3 f_equal.
    match goal with H : Forall2 same_data _ _ |- _ => rename H into H2 end.
    clear Hsame. induction H2 as [|v v' items items' Hv _ IH2].
    + reflexivity.
    + apply Forall_cons in IH as [IHv IHitems]. cbn. f_equal.
      * apply IHv, Hv.
      * apply IH2, IHitems.
  - cbn [stableStringify].
    match goal with
    | Hk : forall k, In k _ <-> In k _ |- _ => rename Hk into Hkeys
    end.
    match goal with
    | Hv : forall k v1 v2, _ -> _ -> same_data v1 v2 |- _ => rename Hv into Hvals
    end.
    match goal with
    | H1 : NoDup (map fst fields), H2 : NoDup (map fst ?f2) |- _ =>
        rename H1 into Hnd1; rename H2 into Hnd2
    end.
    rewrite (sort_Permutation (map fst fields) (map fst fields2)).
    2:{ apply NoDup_Permutation; [assumption | assumption |].
        intros k. rewrite !list_elem_of_In. apply Hkeys. }
    do 3 f_equal. apply map_ext. intros k. do 2 f_equal.
    rewrite !get_map.
    destruct (get k fields) as [v1|] eqn:E1.
    + destruct (get k fields2) as [v2|] eqn:E2.
      * cbn. pose proof (get_Some_In _ _ _ E1) as Hin.
        rewrite List.Forall_forall in IH.
        apply (IH (k, v1) Hin v2), (Hvals k v1 v2 E1 E2).
      * exfalso. apply get_None_iff in E2. apply E2, Hkeys.
        apply (in_map fst _ (k, v1)), get_Some_In, E1.
    + destruct (get k fields2) as [v2|] eqn:E2; [|reflexivity].
      exfalso. apply get_None_iff in E1. apply E1, Hkeys.
      apply (in_map fst _ (k, v2)), get_Some_In, E2.
Qed.

End KeyOrder.

Lemma same_fields {number : Type}
    (fields1 fields2 : list (list N * Server.value number)) :
  Forall (fun kv => forall v2, Server.get (fst kv) fields2 = Some v2 ->
                               same_data (snd kv) v2) fields1 ->
  forall k v1 v2,
    Server.get k fields1 = Some v1 -> Server.get k fields2 = Some v2 ->
    same_data v1 v2.
Proof.
  intros Hall k v1 v2 H1 H2. rewrite List.Forall_forall in Hall.
  exact (Hall (k, v1) (get_Some_In _ _ _ H1) v2 H2).
Qed.

(** X27. [stableStringify] does not depend on the order in which objects
    list their fields: two values that hold the same data, at every depth,
    have the same canonical text, and so the same message to sign. *)
Theorem stableStringify_ignores_key_order {number : Type}
    (JSON_stringify_number : number -> list N)
    (JSON_stringify_string : list N -> list N)
    (v1 v2 : Server.value number) :
  same_data v1 v2 ->
  Server.stableStringify JSON_stringify_number JSON_stringify_string v1
  = Server.stableStringify JSON_stringify_number JSON_stringify_string v2 /\
  Server.buildKycMessage
    (Server.stableStringify JSON_stringify_number JSON_stringify_string v1)
  = Server.buildKycMessage
      (Server.stableStringify JSON_stringify_number JSON_stringify_string v2).
Proof.
  intros Hsame.
  pose proof (stableStringify_same_data number JSON_stringify_number
                JSON_stringify_string v1 v2 Hsame) as H.
  split; [exact H | rewrite H; reflexivity].
Qed.

Lemma stableStringify_ignores_key_order_witness :
  Server.stableStringify digit quoted payload_sent
  = Server.stableStringify digit quoted payload_rebuilt.
Proof.
  apply (stableStringify_ignores_key_order digit quoted payload_sent
           payload_rebuilt).
  apply same_object.
  - apply (bool_decide_unpack _). vm_compute. exact I.
  - apply (bool_decide_unpack _). vm_compute. exact I.
  - intros k. cbn. tauto.
  - apply same_fields.
    repeat (apply List.Forall_cons); try apply List.Forall_nil;
      intros v2 H; vm_compute in H; injection H as <-.
    + apply same_string.
    + apply same_number.
    + apply same_array. apply List.Forall2_cons; [|apply List.Forall2_nil].
      apply same_object.
      * apply (bool_decide_unpack _). vm_compute. exact I.
      * apply (bool_decide_unpack _). vm_compute. exact I.
      * intros k. cbn. tauto.
      * apply same_fields.
        repeat (apply List.Forall_cons); try apply List.Forall_nil;
          intros v2 H; vm_compute in H; injection H as <-.
        -- apply same_string.
        -- apply same_null.
Defined.
